(** * NPRI contact and identifier extraction: a Rocq model

    A shallow embedding of the extraction pipeline of the emission_dta
    scripts ([main.py], [extract_contact_info.py],
    [improved_contact_extractor.py], [enhanced_contact_extractor.py],
    [clean_contact_data.py]) together with the properties stated about it.

    Conventions.
    - A Python [str] is a Rocq [string]; the functions that look at single
      characters work on [list ascii].  The model is exact on ASCII text:
      a character above 127 is treated as an uncased symbol that is neither
      a space nor a digit.
    - A Python [dict] with string keys is a [gmap string string]; a table
      of patterns that the code iterates over in insertion order is an
      association list.
    - [None] is [None]; a function that returns "a dict or None" returns an
      [option (gmap string string)].
    - The browser (Selenium) is a collaborator: it is a record of the
      answers it gives.  The parsed listing page (BeautifulSoup) is a tree. *)

From Stdlib Require Import Ascii String List Bool Arith Lia.
From stdpp Require Import gmap strings list.

Local Open Scope string_scope.
Local Open Scope list_scope.

(** ** Python string methods *)

Module Text.

Definition chars (s : string) : list ascii := list_ascii_of_string s.
Definition str (l : list ascii) : string := string_of_list_ascii l.

Definition code (c : ascii) : nat := nat_of_ascii c.
Definition in_range (lo hi : nat) (c : ascii) : bool :=
  ((lo <=? code c)%nat && (code c <=? hi)%nat)%bool.

(** [str.isspace] on one character: TAB..CR, FS..US and the blank. *)
Definition is_space (c : ascii) : bool := in_range 9 13 c || in_range 28 32 c.
Definition is_digit (c : ascii) : bool := in_range 48 57 c.
Definition is_upper (c : ascii) : bool := in_range 65 90 c.
Definition is_lower (c : ascii) : bool := in_range 97 122 c.
Definition is_alpha (c : ascii) : bool := is_upper c || is_lower c.
(** The regular-expression word characters [[A-Za-z0-9_]]. *)
Definition is_word (c : ascii) : bool :=
  is_alpha c || is_digit c || (code c =? 95)%nat.

Definition lower_char (c : ascii) : ascii :=
  if is_upper c then ascii_of_nat (code c + 32) else c.
Definition upper_char (c : ascii) : ascii :=
  if is_lower c then ascii_of_nat (code c - 32) else c.

Definition ascii_eqb (a b : ascii) : bool := Ascii.eqb a b.

(** [s.lower()], [s.upper()] *)
Definition lower_l (l : list ascii) : list ascii := map lower_char l.
Definition upper_l (l : list ascii) : list ascii := map upper_char l.
Definition lower (s : string) : string := str (lower_l (chars s)).
Definition upper (s : string) : string := str (upper_l (chars s)).

(** [s.strip()] *)
Fixpoint lstrip_l (l : list ascii) : list ascii :=
  match l with
  | c :: t => if is_space c then lstrip_l t else l
  | [] => []
  end.
Definition rstrip_l (l : list ascii) : list ascii := rev (lstrip_l (rev l)).
Definition strip_l (l : list ascii) : list ascii := rstrip_l (lstrip_l l).
Definition strip (s : string) : string := str (strip_l (chars s)).

(** [s.isdigit()]: non-empty and every character a digit. *)
Definition isdigit_l (l : list ascii) : bool :=
  negb (Nat.eqb (length l) 0) && forallb is_digit l.
Definition isdigit (s : string) : bool := isdigit_l (chars s).

(** [s.startswith(p)] *)
Fixpoint starts_with (eq : ascii -> ascii -> bool) (p l : list ascii) : bool :=
  match p, l with
  | [], _ => true
  | a :: p', b :: l' => eq a b && starts_with eq p' l'
  | _ :: _, [] => false
  end.

(** [sub in s] *)
Fixpoint contains_l (sub l : list ascii) : bool :=
  starts_with ascii_eqb sub l ||
  match l with
  | [] => false
  | _ :: t => contains_l sub t
  end.
Definition contains (sub s : string) : bool := contains_l (chars sub) (chars s).

(** [s.split(sep)] for a non-empty separator: [skip] counts the characters
    of a separator just recognised that are still to be passed over, [cur]
    is the piece being read, reversed. *)
Fixpoint split_on_aux (sep : list ascii) (skip : nat) (cur : list ascii)
    (l : list ascii) : list (list ascii) :=
  match l with
  | [] => [rev cur]
  | c :: t =>
      match skip with
      | S k => split_on_aux sep k cur t
      | O =>
          if starts_with ascii_eqb sep l
          then rev cur :: split_on_aux sep (length sep - 1) [] t
          else split_on_aux sep 0 (c :: cur) t
      end
  end.
Definition split_on (sep s : string) : list string :=
  map str (split_on_aux (chars sep) 0 [] (chars s)).

(** [s.split()]: the maximal runs of non-space characters. *)
Fixpoint split_ws_aux (cur : list ascii) (l : list ascii) : list (list ascii) :=
  match l with
  | [] => match cur with [] => [] | _ => [rev cur] end
  | c :: t =>
      if is_space c
      then match cur with
           | [] => split_ws_aux [] t
           | _ => rev cur :: split_ws_aux [] t
           end
      else split_ws_aux (c :: cur) t
  end.
Definition split_ws (s : string) : list string :=
  map str (split_ws_aux [] (chars s)).

(** [s.replace(old, new)] for a non-empty [old]. *)
Fixpoint replace_aux (old new : list ascii) (skip : nat) (l : list ascii)
    : list ascii :=
  match l with
  | [] => []
  | c :: t =>
      match skip with
      | S k => replace_aux old new k t
      | O =>
          if starts_with ascii_eqb old l
          then new ++ replace_aux old new (length old - 1) t
          else c :: replace_aux old new 0 t
      end
  end.
Definition replace (old new s : string) : string :=
  str (replace_aux (chars old) (chars new) 0 (chars s)).

Definition len (s : string) : nat := length (chars s).

(** The 256 characters. *)
Definition all_ascii : list ascii := map ascii_of_nat (seq 0 256).

End Text.

(** ** Regular expressions

    The fragment of Python's [re] syntax that the patterns of the scripts
    use: literal text, a character class repeated between [lo] and [hi]
    times (greedy or lazy), sequence, alternation, one capturing group,
    the end-of-string anchor and the word boundary.  Every repetition in
    the scripts' patterns is over a single character class.

    The matcher is the usual backtracking one: [run] returns the states a
    pattern can end in, tried-first first, so the match Python reports is
    the head of the list at the leftmost start position that has one. *)

Module Re.
Import Text.

Inductive citem : Type :=
| CChr (c : ascii)          (* one character *)
| CRng (lo hi : ascii)      (* a range  lo-hi *)
| CSpace                    (* \s *)
| CDigit.                   (* \d *)

Definition citem_test (it : citem) (c : ascii) : bool :=
  match it with
  | CChr a => ascii_eqb a c
  | CRng lo hi => in_range (code lo) (code hi) c
  | CSpace => is_space c
  | CDigit => is_digit c
  end.

Definition set_test (items : list citem) (c : ascii) : bool :=
  existsb (fun it => citem_test it c) items.

(** Membership in [[items]] or [[^items]]; under IGNORECASE a character
    belongs to the set when either of its two cases does. *)
Definition cls_test (ic neg : bool) (items : list citem) (c : ascii) : bool :=
  xorb neg
    (if ic then set_test items (lower_char c) || set_test items (upper_char c)
     else set_test items c).

Definition chr_eq (ic : bool) (a b : ascii) : bool :=
  if ic then ascii_eqb (lower_char a) (lower_char b) else ascii_eqb a b.

Inductive re : Type :=
| Lit (s : string)
| Rep (neg : bool) (items : list citem) (lo : nat) (hi : option nat)
      (greedy : bool)
| Seq (a b : re)
| Alt (a b : re)
| Grp (a : re)
| Eos
| Wb.

(** A matcher state: the number of characters read since the start of
    the match, the character before the current position, the text still
    to be read and the text of group 1, if the group has matched. *)
Record mstate : Type := MState {
  m_pos : nat;
  m_prev : option ascii;
  m_rest : list ascii;
  m_cap : option (list ascii)
}.

Definition advance (k : nat) (st : mstate) : mstate :=
  MState (m_pos st + k)
         (match last (firstn k (m_rest st)) with
          | Some c => Some c
          | None => m_prev st
          end)
         (skipn k (m_rest st)) (m_cap st).

(** Length of the longest prefix of [l] in the class, at most [cap]. *)
Fixpoint span_len (p : ascii -> bool) (cap : option nat) (l : list ascii)
    : nat :=
  match cap, l with
  | Some O, _ => O
  | _, [] => O
  | _, c :: t =>
      if p c then S (span_len p (option_map pred cap) t) else O
  end.

(** The repetition counts to try, in order. *)
Definition counts (greedy : bool) (lo n : nat) : list nat :=
  let up := seq lo (S n - lo) in
  if greedy then rev up else up.

Definition is_word_opt (o : option ascii) : bool :=
  match o with Some c => is_word c | None => false end.

(** [$]: at the end, or before a newline that ends the text. *)
Definition at_end (l : list ascii) : bool :=
  match l with
  | [] => true
  | [c] => (code c =? 10)%nat
  | _ => false
  end.

Fixpoint run (ic : bool) (r : re) (st : mstate) : list mstate :=
  match r with
  | Lit s =>
      if starts_with (chr_eq ic) (chars s) (m_rest st)
      then [advance (length (chars s)) st] else []
  | Rep neg items lo hi greedy =>
      let n := span_len (cls_test ic neg items) hi (m_rest st) in
      map (fun k => advance k st) (counts greedy lo n)
  | Seq a b => flat_map (run ic b) (run ic a st)
  | Alt a b => run ic a st ++ run ic b st
  | Grp a =>
      map (fun st' =>
             MState (m_pos st') (m_prev st') (m_rest st')
               (Some (firstn (m_pos st' - m_pos st) (m_rest st))))
          (run ic a st)
  | Eos => if at_end (m_rest st) then [st] else []
  | Wb =>
      if xorb (is_word_opt (m_prev st)) (is_word_opt (head (m_rest st)))
      then [st] else []
  end.

(** A match: the whole matched text and group 1. *)
Record rmatch : Type := RMatch {
  group0 : list ascii;
  group1 : option (list ascii)
}.

Definition match_at (ic : bool) (r : re) (prev : option ascii)
    (l : list ascii) : option rmatch :=
  match run ic r (MState 0 prev l None) with
  | st' :: _ => Some (RMatch (firstn (m_pos st') l) (m_cap st'))
  | [] => None
  end.

(** [re.search]: the first start position with a match. *)
Fixpoint search_l (ic : bool) (r : re) (prev : option ascii)
    (l : list ascii) : option rmatch :=
  match match_at ic r prev l with
  | Some m => Some m
  | None =>
      match l with
      | [] => None
      | c :: t => search_l ic r (Some c) t
      end
  end.

(** [re.findall] (the matches themselves): non-overlapping, left to
    right; [skip] counts the characters of the last match still to pass. *)
Fixpoint findall_l (ic : bool) (r : re) (skip : nat) (prev : option ascii)
    (l : list ascii) : list rmatch :=
  match skip with
  | S k =>
      match l with
      | [] => []
      | c :: t => findall_l ic r k (Some c) t
      end
  | O =>
      match match_at ic r prev l with
      | Some m =>
          m :: match l with
               | [] => []
               | c :: t => findall_l ic r (length (group0 m) - 1) (Some c) t
               end
      | None =>
          match l with
          | [] => []
          | c :: t => findall_l ic r 0 (Some c) t
          end
      end
  end.

(** [re.sub(r, repl, text)] for a pattern that matches no empty text. *)
Fixpoint sub_l (ic : bool) (r : re) (repl : list ascii) (skip : nat)
    (prev : option ascii) (l : list ascii) : list ascii :=
  match l with
  | [] => []
  | c :: t =>
      match skip with
      | S k => sub_l ic r repl k (Some c) t
      | O =>
          match match_at ic r prev l with
          | Some m =>
              repl ++ sub_l ic r repl (length (group0 m) - 1) (Some c) t
          | None => c :: sub_l ic r repl 0 (Some c) t
          end
      end
  end.

Definition search (ic : bool) (r : re) (s : string) : option rmatch :=
  search_l ic r None (chars s).
Definition findall (ic : bool) (r : re) (s : string) : list rmatch :=
  findall_l ic r 0 None (chars s).
Definition sub (r : re) (repl s : string) : string :=
  str (sub_l false r (chars repl) 0 None (chars s)).

(** [m.group(1)] as a string; the group takes part in every match of a
    pattern with [has_group], so the [None] case is not met for those. *)
Definition group (m : rmatch) : string :=
  str (match group1 m with Some g => g | None => [] end).
Definition whole (m : rmatch) : string := str (group0 m).

(** Shorthands for the pieces the patterns are made of. *)
Definition ws : list citem := [CSpace].
Definition star (neg : bool) (items : list citem) : re :=
  Rep neg items 0 None true.
Definition plus (neg : bool) (items : list citem) : re :=
  Rep neg items 1 None true.
Definition lazy_star (neg : bool) (items : list citem) : re :=
  Rep neg items 0 None false.
Definition lazy_plus (neg : bool) (items : list citem) : re :=
  Rep neg items 1 None false.
Definition one (neg : bool) (items : list citem) : re :=
  Rep neg items 1 (Some 1) true.
Definition exactly (n : nat) (items : list citem) : re :=
  Rep false items n (Some n) true.

(** A sequence and an alternation of several pieces. *)
Fixpoint cat (l : list re) : re :=
  match l with
  | [] => Lit ""
  | [a] => a
  | a :: t => Seq a (cat t)
  end.
Fixpoint alt (l : list re) : re :=
  match l with
  | [] => Rep false [] 1 (Some 1) true
  | [a] => a
  | a :: t => Alt a (alt t)
  end.

End Re.

(** ** The patterns of the contact extractors *)

Module Patterns.
Import Text Re.

Definition nl : ascii := "010"%char.
Definition cr : ascii := "013"%char.
Definition bsl : ascii := "\"%char.

Definition digit09 : list citem := [CRng "0" "9"].
Definition letters : list citem := [CRng "A" "Z"; CRng "a" "z"].
Definition upper_AZ : list citem := [CRng "A" "Z"].
Definition lower_az : list citem := [CRng "a" "z"].

(** [[0-9\-\(\)\s]] *)
Definition phone_chars : list citem :=
  [CRng "0" "9"; CChr "-"; CChr "("; CChr ")"; CSpace].
(** [[a-zA-Z0-9._%+-]] and [[a-zA-Z0-9.-]] *)
Definition email_local : list citem :=
  [CRng "a" "z"; CRng "A" "Z"; CRng "0" "9";
   CChr "."; CChr "_"; CChr "%"; CChr "+"; CChr "-"].
Definition email_domain : list citem :=
  [CRng "a" "z"; CRng "A" "Z"; CRng "0" "9"; CChr "."; CChr "-"].

(** [[a-zA-Z0-9._%+-]+@[a-zA-Z0-9.-]+\.[a-zA-Z]{2,}] *)
Definition email_shape : re :=
  cat [plus false email_local; Lit "@"; plus false email_domain; Lit ".";
       Rep false [CRng "a" "z"; CRng "A" "Z"] 2 None true].

(** [[A-Z][a-z]+ [A-Z][a-z]+] *)
Definition two_words : re :=
  cat [one false upper_AZ; plus false lower_az; Lit " ";
       one false upper_AZ; plus false lower_az].

(** r"Phone:\s*([0-9\-\(\)\s]+)" *)
Definition phone_pattern : re :=
  cat [Lit "Phone:"; star false ws; Grp (plus false phone_chars)].
(** r"Email:\s*([a-zA-Z0-9._%+-]+@[a-zA-Z0-9.-]+\.[a-zA-Z]{2,})" *)
Definition email_pattern : re :=
  cat [Lit "Email:"; star false ws; Grp email_shape].
(** r"Contact Language:\s*([A-Za-z]+)" *)
Definition language_pattern : re :=
  cat [Lit "Contact Language:"; star false ws; Grp (plus false letters)].

(** [extract_contact_info.py], [contact_patterns] *)
(** r"Contact information[^}]*?([A-Za-z\s]+)\s+Position:" *)
Definition name_pattern : re :=
  cat [Lit "Contact information"; lazy_star true [CChr "}"];
       Grp (plus false [CRng "A" "Z"; CRng "a" "z"; CSpace]);
       plus false ws; Lit "Position:"].
(** r"Position:\s*([^\\n\\r]+)": in a raw string the class holds the
    backslash and the letters n and r. *)
Definition position_pattern : re :=
  cat [Lit "Position:"; star false ws;
       Grp (plus true [CChr bsl; CChr "n"; CChr bsl; CChr "r"])].

Definition contact_patterns : list (string * re) :=
  [("name", name_pattern);
   ("position", position_pattern);
   ("phone", phone_pattern);
   ("email", email_pattern);
   ("language", language_pattern)].

(** [improved_contact_extractor.py], [known_patterns] *)
(** r"(?:Number of full-time employee equivalents|employees?)[^0-9]*([0-9]+)" *)
Definition known_employees : re :=
  cat [alt [Lit "Number of full-time employee equivalents";
            cat [Lit "employee"; Rep false [CChr "s"] 0 (Some 1) true]];
       star true digit09; Grp (plus false digit09)].

Definition known_patterns : list (string * re) :=
  [("business_number", Lit "863108833");
   ("employees", known_employees);
   ("contact_name", Lit "Colin Hennel");
   ("position", Lit "Manager, HSE and Regulatory");
   ("phone", Lit "587-315-1181");
   ("email", Lit "chennel@pinecliffenergy.com");
   ("language", Lit "English")].

(** [generic_patterns] *)
(** r"Business number[^0-9]*([0-9]{9})" *)
Definition generic_business_number : re :=
  cat [Lit "Business number"; star true digit09; Grp (exactly 9 digit09)].
(** r"Number of full-time employee equivalents[^0-9]*([0-9]+)" *)
Definition generic_employees : re :=
  cat [Lit "Number of full-time employee equivalents"; star true digit09;
       Grp (plus false digit09)].

Definition generic_patterns : list (string * re) :=
  [("business_number", generic_business_number);
   ("employees", generic_employees);
   ("phone", phone_pattern);
   ("email", email_pattern);
   ("language", language_pattern)].

(** [name_patterns] *)
(** r"Contact information[^a-zA-Z]*([A-Z][a-z]+ [A-Z][a-z]+)" *)
Definition name_after_heading : re :=
  cat [Lit "Contact information";
       star true [CRng "a" "z"; CRng "A" "Z"]; Grp two_words].
(** r"([A-Z][a-z]+ [A-Z][a-z]+)[\s\n]*Position:" *)
Definition name_before_position : re :=
  cat [Grp two_words; star false [CSpace; CChr nl]; Lit "Position:"].
Definition name_patterns : list re :=
  [name_after_heading; name_before_position].

(** [position_patterns] *)
(** [(?:\s+Phone:|Email:|$)] *)
Definition position_end_1 : re :=
  alt [cat [plus false ws; Lit "Phone:"]; Lit "Email:"; Eos].
(** r"Position:\s*([^\\n\\r\\}]+?)(?:\s+Phone:|Email:|$)" *)
Definition position_1 : re :=
  cat [Lit "Position:"; star false ws;
       Grp (lazy_plus true
              [CChr bsl; CChr "n"; CChr bsl; CChr "r"; CChr bsl; CChr "}"]);
       position_end_1].
(** r"Position:\s*([^\n\r}]+?)(?:\s+Phone:|Email:|Contact Language:)" *)
Definition position_2 : re :=
  cat [Lit "Position:"; star false ws;
       Grp (lazy_plus true [CChr nl; CChr cr; CChr "}"]);
       alt [cat [plus false ws; Lit "Phone:"]; Lit "Email:";
            Lit "Contact Language:"]].
Definition position_patterns : list re := [position_1; position_2].

(** r"\{\{[^}]*\}\}": an unresolved template placeholder *)
Definition placeholder : re :=
  cat [Lit "{{"; star true [CChr "}"]; Lit "}}"].

(** [enhanced_contact_extractor.py], [patterns] *)
(** r"Business number[^}]*?(\d{9})" *)
Definition enhanced_business_number : re :=
  cat [Lit "Business number"; lazy_star true [CChr "}"];
       Grp (exactly 9 [CDigit])].
(** r"Number of full-time employee equivalents[^}]*?(\d+)" *)
Definition enhanced_employees : re :=
  cat [Lit "Number of full-time employee equivalents";
       lazy_star true [CChr "}"]; Grp (plus false [CDigit])].
(** r"Contact information[^}]*?([A-Z][a-z]+ [A-Z][a-z]+)" *)
Definition enhanced_contact_name : re :=
  cat [Lit "Contact information"; lazy_star true [CChr "}"]; Grp two_words].
(** r"Position:\s*([^\\n\\r\\}]+?)(?:\s+Phone:|$)" *)
Definition enhanced_position : re :=
  cat [Lit "Position:"; star false ws;
       Grp (lazy_plus true
              [CChr bsl; CChr "n"; CChr bsl; CChr "r"; CChr bsl; CChr "}"]);
       alt [cat [plus false ws; Lit "Phone:"]; Eos]].
(** r"Phone:\s*([0-9\-\(\)\s]+?)(?:\s+|\\n|\\r|$)": the alternatives
    [\\n] and [\\r] are a backslash followed by a letter. *)
Definition enhanced_phone : re :=
  cat [Lit "Phone:"; star false ws; Grp (lazy_plus false phone_chars);
       alt [plus false ws; Lit "\n"; Lit "\r"; Eos]].

Definition enhanced_patterns : list (string * re) :=
  [("business_number", enhanced_business_number);
   ("employees", enhanced_employees);
   ("contact_name", enhanced_contact_name);
   ("position", enhanced_position);
   ("phone", enhanced_phone);
   ("email", email_pattern);
   ("language", language_pattern)].

(** [clean_contact_data.py] *)
(** r"<[^>]+>" *)
Definition html_tag : re := cat [Lit "<"; plus true [CChr ">"]; Lit ">"].
(** r"\s+" *)
Definition whitespace_run : re := plus false ws.

(** [main.py] *)
(** r"/2024/(\d+)" *)
Definition href_year_id : re := cat [Lit "/2024/"; Grp (plus false [CDigit])].
(** r"\b\d{4,5}\b" *)
Definition id_token : re := cat [Wb; Rep false [CDigit] 4 (Some 5) true; Wb].

End Patterns.

(** ** The browser as a collaborator *)

Module Selenium.

(** A [WebElement]: its rendered text and what [find_element] answers for
    an XPath ([None]: [NoSuchElementException]). *)
#[warnings="-register-all"]
Inductive WebElement : Type :=
| Element (text : string) (find_element : string -> option WebElement).

Definition text (e : WebElement) : string :=
  match e with Element t _ => t end.
Definition find_element (e : WebElement) (xpath : string)
    : option WebElement :=
  match e with Element _ f => f xpath end.

(** A loaded page: [driver.page_source] and the answer of
    [driver.find_elements] for an XPath; [None] is a raised exception. *)
Record Driver : Type := {
  page_source : option string;
  find_elements : string -> option (list WebElement)
}.

(** What happens up to the end of page loading. *)
Inductive session : Type :=
| ImportFails                (* selenium is not installed: ImportError *)
| DriverFails                (* launching or navigating raises *)
| Loaded (d : Driver).

End Selenium.

(** ** extract_contact_info.py

    The function is modelled from the loaded page on: what it stores in
    [contact_info] and what it returns.  The waits before the extraction
    are in [Waiter]; closing the browser in the [finally] clause is taken
    to succeed. *)

Module ExtractContactInfo.
Import Text Re Patterns Selenium.

(** for key, pattern in contact_patterns.items():
        match = re.search(pattern, all_text, re.IGNORECASE)
        if match: contact_info[key] = match.group(1).strip() *)
Definition labeled_step (all_text : string) (contact_info : gmap string string)
    (kp : string * re) : gmap string string :=
  match search true (snd kp) all_text with
  | Some m => <[fst kp := strip (group m)]> contact_info
  | None => contact_info
  end.

Definition method1 (all_text : string) (contact_info : gmap string string)
    : gmap string string :=
  fold_left (labeled_step all_text) contact_patterns contact_info.

(** The keys of [contact_patterns]. *)
Definition labeled_keys : list string := map fst contact_patterns.

Definition xpath_business_number : string :=
  "//td[contains(text(), '863108833')] | //span[contains(text(), '863108833')]".
Definition xpath_employees : string :=
  "//td[contains(text(), 'Number of full-time employee')] | //span[contains(text(), 'Number of full-time employee')]".
Definition xpath_row : string := ".//ancestor::tr".
Definition xpath_value_cell : string :=
  ".//td[2] | .//span[contains(text(), '1')]".
Definition xpath_text (literal : string) : string :=
  "//*[contains(text(), '" ++ literal ++ "')]".

(** The inner try with the bare except: the value cell of the row of the
    first element. *)
Definition employees_value (e : WebElement) : option string :=
  match find_element e xpath_row with
  | Some parent_row =>
      match find_element parent_row xpath_value_cell with
      | Some value_cell => Some (strip (text value_cell))
      | None => None
      end
  | None => None
  end.

(** Method 2.  The dict is updated in place, so an exception raised by a
    later query keeps what was stored before it. *)
Definition method2 (d : Driver) (contact_info : gmap string string)
    : gmap string string :=
  match find_elements d xpath_business_number with
  | None => contact_info
  | Some business_number_elements =>
      let ci :=
        match business_number_elements with
        | e :: _ => <["business_number" := strip (text e)]> contact_info
        | [] => contact_info
        end in
      match find_elements d xpath_employees with
      | None => ci
      | Some (e :: _) =>
          match employees_value e with
          | Some v => <["employees" := v]> ci
          | None => ci
          end
      | Some [] => ci
      end
  end.

(** One hardcoded literal of Method 3: [None] when the query raises. *)
Definition literal_step (d : Driver) (key literal : string)
    (contact_info : gmap string string) : option (gmap string string) :=
  match find_elements d (xpath_text literal) with
  | None => None
  | Some (_ :: _) => Some (<[key := literal]> contact_info)
  | Some [] => Some contact_info
  end.

Definition method3 (d : Driver) (contact_info : gmap string string)
    : gmap string string :=
  match literal_step d "name" "Colin Hennel" contact_info with
  | None => contact_info
  | Some ci1 =>
      match literal_step d "phone" "587-315-1181" ci1 with
      | None => ci1
      | Some ci2 =>
          match literal_step d "email" "chennel@pinecliffenergy.com" ci2 with
          | None => ci2
          | Some ci3 => ci3
          end
      end
  end.

(** The dict at the end of the methods; reading [page_source] is the first
    statement of the enclosing try, so its failure skips all three. *)
Definition collect (d : Driver) : gmap string string :=
  match page_source d with
  | None => ∅
  | Some all_text => method3 d (method2 d (method1 all_text ∅))
  end.

(** if contact_info: return contact_info  else: return None *)
Definition finish (contact_info : gmap string string)
    : option (gmap string string) :=
  if decide (contact_info = ∅) then None else Some contact_info.

Definition scrape_contact_info_selenium (s : session)
    : option (gmap string string) :=
  match s with
  | ImportFails => None
  | DriverFails => None
  | Loaded d => finish (collect d)
  end.

(** [main]: "success": contact_info is not None *)
Definition success (contact_info : option (gmap string string)) : bool :=
  match contact_info with Some _ => true | None => false end.

End ExtractContactInfo.

(** ** The files the scripts write *)

Module Files.

(** The files by name; [writable] tells whether [open(name, "w")]
    succeeds. *)
Record world : Type := {
  files : gmap string string;
  writable : string -> bool
}.

(** with open(name, "w") as f: f.write(content) -- [None] when it raises *)
Definition write_file (name content : string) (w : world) : option world :=
  if writable w name
  then Some {| files := <[name := content]> (files w); writable := writable w |}
  else None.

End Files.

(** ** improved_contact_extractor.py *)

Module ImprovedContactExtractor.
Import Text Re Patterns Files.

(** Method 1, one key of [known_patterns]: the if/elif chain on [key]. *)
Definition known_step (page_source : string)
    (contact_info : gmap string string) (kp : string * re)
    : gmap string string :=
  let key := fst kp in
  let pattern := snd kp in
  match search true pattern page_source with
  | None => contact_info
  | Some _ =>
      if String.eqb key "business_number"
      then <[key := "863108833"]> contact_info
      else if String.eqb key "contact_name"
      then <[key := "Colin Hennel"]> contact_info
      else if String.eqb key "position"
      then <[key := "Manager, HSE and Regulatory"]> contact_info
      else if String.eqb key "phone"
      then <[key := "587-315-1181"]> contact_info
      else if String.eqb key "email"
      then <[key := "chennel@pinecliffenergy.com"]> contact_info
      else if String.eqb key "language"
      then <[key := "English"]> contact_info
      else if String.eqb key "employees"
      then match search true pattern page_source with
           | Some m => <[key := group m]> contact_info
           | None => <[key := "1"]> contact_info
           end
      else contact_info
  end.

(** if npri_id == "1368": ... *)
Definition method1 (npri_id page_source : string)
    (contact_info : gmap string string) : gmap string string :=
  if String.eqb npri_id "1368"
  then fold_left (known_step page_source) known_patterns contact_info
  else contact_info.

(** Method 2: if key not in contact_info: ... *)
Definition generic_step (page_source : string)
    (contact_info : gmap string string) (kp : string * re)
    : gmap string string :=
  match contact_info !! fst kp with
  | Some _ => contact_info
  | None =>
      match search true (snd kp) page_source with
      | Some m => <[fst kp := strip (group m)]> contact_info
      | None => contact_info
      end
  end.

Definition method2 (page_source : string)
    (contact_info : gmap string string) : gmap string string :=
  fold_left (generic_step page_source) generic_patterns contact_info.

(** Method 3: the first name pattern that matches; then break. *)
Fixpoint first_name (page_source : string) (patterns : list re)
    : option string :=
  match patterns with
  | [] => None
  | pattern :: rest =>
      match search true pattern page_source with
      | Some m => Some (strip (group m))
      | None => first_name page_source rest
      end
  end.

Definition method3 (page_source : string)
    (contact_info : gmap string string) : gmap string string :=
  match contact_info !! "contact_name" with
  | Some _ => contact_info
  | None =>
      match first_name page_source name_patterns with
      | Some name => <["contact_name" := name]> contact_info
      | None => contact_info
      end
  end.

(** Method 4: the first position pattern whose cleaned value is not empty. *)
Fixpoint first_position (page_source : string) (patterns : list re)
    : option string :=
  match patterns with
  | [] => None
  | pattern :: rest =>
      match search true pattern page_source with
      | Some m =>
          let position := strip (sub placeholder "" (strip (group m))) in
          if String.eqb position ""
          then first_position page_source rest
          else Some position
      | None => first_position page_source rest
      end
  end.

Definition method4 (page_source : string)
    (contact_info : gmap string string) : gmap string string :=
  match contact_info !! "position" with
  | Some _ => contact_info
  | None =>
      match first_position page_source position_patterns with
      | Some position => <["position" := position]> contact_info
      | None => contact_info
      end
  end.

(** The dict after each method, starting from [{}]. *)
Definition after1 (npri_id page_source : string) : gmap string string :=
  method1 npri_id page_source ∅.
Definition after2 (npri_id page_source : string) : gmap string string :=
  method2 page_source (after1 npri_id page_source).
Definition after3 (npri_id page_source : string) : gmap string string :=
  method3 page_source (after2 npri_id page_source).
Definition after4 (npri_id page_source : string) : gmap string string :=
  method4 page_source (after3 npri_id page_source).

Definition finish (contact_info : gmap string string)
    : option (gmap string string) :=
  if decide (contact_info = ∅) then None else Some contact_info.

(** The run on a page already loaded: the debug file is written first
    (a failure there is caught by the outer except and gives [None]),
    then the four methods run. [captured] is [None] when reading
    [driver.page_source] raises. *)
Definition extract_contact_with_progress (npri_id : string)
    (captured : option string) (w : world)
    : option (gmap string string) * world :=
  match captured with
  | None => (None, w)
  | Some page_source =>
      match write_file ("debug_page_" ++ npri_id ++ ".html") page_source w with
      | None => (None, w)
      | Some w' => (finish (after4 npri_id page_source), w')
      end
  end.

(** [process_all_companies]: "success": contact_info is not None *)
Definition success (contact_info : option (gmap string string)) : bool :=
  match contact_info with Some _ => true | None => false end.

End ImprovedContactExtractor.

(** ** enhanced_contact_extractor.py *)

Module EnhancedContactExtractor.
Import Text Re Patterns Files.

(** matches = re.findall(pattern, page_source, re.IGNORECASE | re.DOTALL)
    if matches:
        value = matches[0].strip()
        value = re.sub(r"\{\{[^}]*\}\}", "", value).strip()
        contact_info[key] = value
    With one group [findall] lists the group's text, so [matches[0]] is
    group 1 of the first match; DOTALL changes the dot only. *)
Definition enhanced_step (page_source : string)
    (contact_info : gmap string string) (kp : string * re)
    : gmap string string :=
  match findall true (snd kp) page_source with
  | m :: _ =>
      <[fst kp := strip (sub placeholder "" (strip (group m)))]> contact_info
  | [] => contact_info
  end.

Definition collect (page_source : string) : gmap string string :=
  fold_left (enhanced_step page_source) enhanced_patterns ∅.

(** The run on a page already loaded: the page source is saved, then the
    patterns run and the dict is returned, empty or not.  Nothing is
    caught here: [None] stands for the exception of a failed write. *)
Definition extract_contact_info_enhanced (npri_id page_source : string)
    (w : world) : option (gmap string string) * world :=
  match write_file ("page_source_" ++ npri_id ++ ".html") page_source w with
  | None => (None, w)
  | Some w' => (Some (collect page_source), w')
  end.

End EnhancedContactExtractor.

(** ** The two cascades, statement by statement

    The cascades once more, as the statements of the function bodies
    acting on the state of the interpreter.  The state is taken as large
    as it could be: it holds the dict that the name [contact_info] was
    last bound to, as if the binding outlived the call, and the files.
    A run starts in whatever state the run before it left. *)

Module Stateful.
Import Text Re Patterns Files.

Record process : Type := {
  contact_info : option (gmap string string);
  disk : world
}.

(** The state in which [contact_info] is bound to the dict [d]. *)
Definition bound (d : gmap string string) (w : world) : process :=
  {| contact_info := Some d; disk := w |}.

(** A piece of a function body: the value it gives, or [None] when it
    raises, and the state it leaves. *)
Definition M (A : Type) : Type := process -> option A * process.

#[global] Instance M_ret : MRet M := fun A x p => (Some x, p).
#[global] Instance M_bind : MBind M := fun A B f m p =>
  match m p with
  | (Some x, p') => f x p'
  | (None, p') => (None, p')
  end.

(** contact_info = {} *)
Definition new_dict : M unit := fun p =>
  (Some tt, {| contact_info := Some ∅; disk := disk p |}).

(** key in contact_info -- NameError when the name is not bound *)
Definition has_key (key : string) : M bool := fun p =>
  match contact_info p with
  | Some d => (Some (bool_decide (is_Some (d !! key))), p)
  | None => (None, p)
  end.

(** contact_info[key] = value: the dict is updated in place *)
Definition set_item (key value : string) : M unit := fun p =>
  match contact_info p with
  | Some d =>
      (Some tt, {| contact_info := Some (<[key := value]> d); disk := disk p |})
  | None => (None, p)
  end.

(** The dict that [contact_info] is bound to. *)
Definition get_dict : M (gmap string string) := fun p =>
  match contact_info p with
  | Some d => (Some d, p)
  | None => (None, p)
  end.

(** with open(name, "w") as f: f.write(content) *)
Definition write (name content : string) : M unit := fun p =>
  match write_file name content (disk p) with
  | Some w => (Some tt, {| contact_info := contact_info p; disk := w |})
  | None => (None, p)
  end.

(** for x in l: body(x) *)
Fixpoint for_each {A : Type} (l : list A) (body : A -> M unit) : M unit :=
  match l with
  | [] => mret tt
  | x :: rest => body x ;; for_each rest body
  end.

(** *** improved_contact_extractor.py, lines 63 to 160 *)

(** The body of the loop of Method 1. *)
Definition known_stmt (page_source : string) (kp : string * re) : M unit :=
  let key := fst kp in
  let pattern := snd kp in
  match search true pattern page_source with
  | None => mret tt
  | Some _ =>
      if String.eqb key "business_number" then set_item key "863108833"
      else if String.eqb key "contact_name" then set_item key "Colin Hennel"
      else if String.eqb key "position"
      then set_item key "Manager, HSE and Regulatory"
      else if String.eqb key "phone" then set_item key "587-315-1181"
      else if String.eqb key "email"
      then set_item key "chennel@pinecliffenergy.com"
      else if String.eqb key "language" then set_item key "English"
      else if String.eqb key "employees"
      then match search true pattern page_source with
           | Some m => set_item key (group m)
           | None => set_item key "1"
           end
      else mret tt
  end.

(** The body of the loop of Method 2. *)
Definition generic_stmt (page_source : string) (kp : string * re) : M unit :=
  present ← has_key (fst kp);
  if present : bool then mret tt
  else match search true (snd kp) page_source with
       | Some m => set_item (fst kp) (strip (group m))
       | None => mret tt
       end.

(** Method 3 and Method 4. *)
Definition name_stmt (page_source : string) : M unit :=
  present ← has_key "contact_name";
  if present : bool then mret tt
  else match ImprovedContactExtractor.first_name page_source name_patterns with
       | Some name => set_item "contact_name" name
       | None => mret tt
       end.
Definition position_stmt (page_source : string) : M unit :=
  present ← has_key "position";
  if present : bool then mret tt
  else match ImprovedContactExtractor.first_position page_source
               position_patterns with
       | Some position => set_item "position" position
       | None => mret tt
       end.

(** The four methods, which follow [contact_info = {}]. *)
Definition methods (npri_id page_source : string) : M unit :=
  (if String.eqb npri_id "1368"
   then for_each known_patterns (known_stmt page_source)
   else mret tt) ;;
  for_each generic_patterns (generic_stmt page_source) ;;
  name_stmt page_source ;;
  position_stmt page_source.

(** From the writing of the debug file to the return. *)
Definition cascade (npri_id page_source : string)
    : M (option (gmap string string)) :=
  write ("debug_page_" ++ npri_id ++ ".html") page_source ;;
  new_dict ;;
  methods npri_id page_source ;;
  d ← get_dict;
  mret (if decide (d = ∅) then None else Some d).

(** except Exception: return None *)
Definition extract_contact_with_progress (npri_id page_source : string)
    (p : process) : option (gmap string string) * process :=
  match cascade npri_id page_source p with
  | (Some contact_info, p') => (contact_info, p')
  | (None, p') => (None, p')
  end.

(** *** enhanced_contact_extractor.py, lines 69 to 99 *)

Definition enhanced_stmt (page_source : string) (kp : string * re) : M unit :=
  match findall true (snd kp) page_source with
  | m :: _ =>
      set_item (fst kp) (strip (sub placeholder "" (strip (group m))))
  | [] => mret tt
  end.

(** From the saving of the page source to the return; nothing is caught:
    [None] is an exception that leaves the function. *)
Definition extract_contact_info_enhanced (npri_id page_source : string)
    : M (gmap string string) :=
  write ("page_source_" ++ npri_id ++ ".html") page_source ;;
  new_dict ;;
  for_each enhanced_patterns (enhanced_stmt page_source) ;;
  get_dict.

End Stateful.

(** ** clean_contact_data.py *)

Module CleanContactData.
Import Text Re Patterns.

(** position = re.sub(r"<[^>]+>", "", position)
    position = re.sub(r"\s+", " ", position).strip() *)
Definition clean_position (position : string) : string :=
  strip (sub whitespace_run " " (sub html_tag "" position)).

(** One item with a true success flag and a non-empty dict. *)
Definition clean_contact_info (contact_info : gmap string string)
    : gmap string string :=
  match contact_info !! "position" with
  | Some position => <["position" := clean_position position]> contact_info
  | None => contact_info
  end.

End CleanContactData.

(** ** The parsed listing page (BeautifulSoup) *)

Module Soup.
Import Text.

#[warnings="-register-all"]
Inductive node : Type :=
| NText (s : string)
| NTag (name : string) (attrs : list (string * string)) (kids : list node).

(** Every node below [n], in document order. *)
Fixpoint descendants (n : node) : list node :=
  match n with
  | NText _ => []
  | NTag _ _ kids => flat_map (fun k => k :: descendants k) kids
  end.

Definition is_tag (names : list string) (n : node) : bool :=
  match n with
  | NTag name _ _ => existsb (String.eqb name) names
  | NText _ => false
  end.

Fixpoint attr_lookup (key : string) (attrs : list (string * string))
    : option string :=
  match attrs with
  | [] => None
  | (k, v) :: rest => if String.eqb k key then Some v else attr_lookup key rest
  end.

(** [tag.get(key)] *)
Definition get (key : string) (n : node) : option string :=
  match n with
  | NTag _ attrs _ => attr_lookup key attrs
  | NText _ => None
  end.

(** [tag.find_all(names)] and [tag.find_all("a", href=True)] *)
Definition find_all (names : list string) (n : node) : list node :=
  filter (fun d => is_tag names d = true) (descendants n).
Definition find_all_links (n : node) : list node :=
  filter (fun d => match get "href" d with Some _ => true | None => false end = true)
         (find_all ["a"] n).
(** [tag.find(...)]: the first one *)
Definition find (names : list string) (n : node) : option node :=
  head (find_all names n).
Definition find_link (n : node) : option node := head (find_all_links n).

(** The strings below a node, in document order. *)
Definition strings (n : node) : list string :=
  flat_map (fun d => match d with NText s => [s] | NTag _ _ _ => [] end)
           (match n with NText _ => [n] | NTag _ _ _ => descendants n end).

Definition concat_strings (l : list string) : string :=
  fold_right String.append "" l.

(** [tag.get_text()] *)
Definition get_text (n : node) : string := concat_strings (strings n).
(** [tag.get_text(strip=True)]: each string stripped, the empty ones left out *)
Definition get_text_strip (n : node) : string :=
  concat_strings
    (filter (fun s => negb (String.eqb s "") = true) (map strip (strings n))).

End Soup.

(** ** urllib.parse.quote and unquote (on ASCII text) *)

Module Url.
Import Text.

Definition hex_digit (n : nat) : ascii :=
  if (n <? 10)%nat then ascii_of_nat (48 + n) else ascii_of_nat (55 + n).
Definition hex_value (c : ascii) : option nat :=
  if is_digit c then Some (code c - 48)
  else if in_range 65 70 c then Some (code c - 55)
  else if in_range 97 102 c then Some (code c - 87)
  else None.

(** Characters [quote] leaves alone: letters, digits, [_.-~] and [/]. *)
Definition is_safe (c : ascii) : bool :=
  is_alpha c || is_digit c ||
  existsb (ascii_eqb c) ["_"; "."; "-"; "~"; "/"]%char.

Definition quote_char (c : ascii) : list ascii :=
  if is_safe c then [c]
  else ["%"%char; hex_digit (code c / 16); hex_digit (code c mod 16)].
Definition quote (s : string) : string := str (flat_map quote_char (chars s)).

Fixpoint unquote_aux (skip : nat) (l : list ascii) : list ascii :=
  match l with
  | [] => []
  | c :: t =>
      match skip with
      | S k => unquote_aux k t
      | O =>
          match c, t with
          | "%"%char, h :: l0 :: _ =>
              match hex_value h, hex_value l0 with
              | Some a, Some b => ascii_of_nat (16 * a + b) :: unquote_aux 2 t
              | _, _ => c :: unquote_aux 0 t
              end
          | _, _ => c :: unquote_aux 0 t
          end
      end
  end.
Definition unquote (s : string) : string := str (unquote_aux 0 (chars s)).

End Url.

(** ** main.py: the identifier resolver *)

Module MainPy.
Import Text Re Patterns Soup Url.

(** What a piece of the function body does to the control flow: it
    returns a value, raises, or falls through to the next statement. *)
Inductive flow (A : Type) : Type :=
| Return (a : A)
| Raise
| Next.
Arguments Return {A} a.
Arguments Raise {A}.
Arguments Next {A}.

(** The first element of a loop whose body returns or raises. *)
Fixpoint first_flow {A B : Type} (body : A -> flow B) (l : list A) : flow B :=
  match l with
  | [] => Next
  | x :: rest =>
      match body x with
      | Next => first_flow body rest
      | r => r
      end
  end.

(** "NPRI" in header.upper() and "ID" in header.upper() *)
Definition is_npri_id_header (header : string) : bool :=
  contains "NPRI" (upper header) && contains "ID" (upper header).

Fixpoint index_of (p : string -> bool) (idx : nat) (l : list string)
    : option nat :=
  match l with
  | [] => None
  | h :: t => if p h then Some idx else index_of p (S idx) t
  end.

Definition npri_id_index (header_texts : list string) : option nat :=
  index_of is_npri_id_header 0 header_texts.

(** url.split("name=")[1].split("&")[0], then unquote: [None] is the
    IndexError of a URL without "name=". *)
Definition company_name_from_url (url : string) : option string :=
  match split_on "name=" url !! 1%nat with
  | None => None
  | Some after =>
      match split_on "&" after !! 0%nat with
      | None => None
      | Some name => Some (unquote name)
      end
  end.

(** company_name_decoded.replace(".", "").split() *)
Definition company_keywords (company_name_decoded : string) : list string :=
  split_ws (replace "." "" company_name_decoded).

(** any(keyword.lower() in row_text.lower()
        for keyword in company_keywords if len(keyword) > 3) *)
Definition row_has_company (keywords : list string) (row_text : string) : bool :=
  existsb (fun keyword =>
             (3 <? len keyword)%nat && contains (lower keyword) (lower row_text))
          keywords.

(** A link of a company row. *)
Definition row_link (link : node) : flow string :=
  let href := default "" (get "href" link) in
  let link_text := get_text_strip link in
  if contains "/2024/" href && isdigit link_text then Return link_text
  else if isdigit link_text && (3 <=? len link_text)%nat then Return link_text
  else Next.

(** The NPRI ID cell of a company row. *)
Definition row_cell (npri_id_index : nat) (cells : list node) : flow string :=
  match cells !! npri_id_index with
  | None => Next
  | Some npri_cell =>
      match find_link npri_cell with
      | None => Next
      | Some cell_link =>
          let link_text := get_text_strip cell_link in
          if isdigit link_text then Return link_text else Next
      end
  end.

Definition company_row (keywords : list string) (npri_id_index : nat)
    (row : node) : flow string :=
  let cells := find_all ["td"; "th"] row in
  let row_text := get_text row in
  if row_has_company keywords row_text
  then match first_flow row_link (find_all_links row) with
       | Next => row_cell npri_id_index cells
       | r => r
       end
  else Next.

(** Any link of the table. *)
Definition table_link (link : node) : flow string :=
  let href := default "" (get "href" link) in
  let link_text := get_text_strip link in
  if contains "/2024/" href && isdigit link_text then Return link_text
  else match search false href_year_id href with
       | Some href_match => Return (group href_match)
       | None => Next
       end.

(** Any cell of the table. *)
Definition table_cell (cell : node) : flow string :=
  let cell_text := get_text_strip cell in
  if isdigit cell_text && (3 <=? len cell_text)%nat then Return cell_text
  else Next.

(** The body of the loop over the tables. *)
Definition examine_table (url : string) (table : node) : flow string :=
  match find ["tr"] table with
  | None => Next                                        (* continue *)
  | Some headers_row =>
      let header_texts :=
        map get_text_strip (find_all ["th"; "td"] headers_row) in
      match npri_id_index header_texts with
      | None => Next
      | Some idx =>
          let all_rows := find_all ["tr"] table in
          match company_name_from_url url with
          | None => Raise
          | Some company_name_decoded =>
              let keywords := company_keywords company_name_decoded in
              match first_flow (company_row keywords idx) all_rows with
              | Next =>
                  match first_flow table_link (find_all_links table) with
                  | Next =>
                      first_flow table_cell
                        (flat_map (find_all ["td"; "th"]) all_rows)
                  | r => r
                  end
              | r => r
              end
          end
      end
  end.

(** The table phase of the resolver. *)
Definition table_phase (url : string) (tables : list node) : flow string :=
  first_flow (examine_table url) tables.

Definition known_npri_ids : list string := ["1368"; "6626"; "15098"].

(** for npri_id in known_npri_ids: if npri_id in page_text: return npri_id *)
Definition known_id_in (page_text : string) : option string :=
  List.find (fun npri_id => contains npri_id page_text) known_npri_ids.

(** numbers = re.findall(r"\b\d{4,5}\b", page_text) *)
Definition numbers (page_text : string) : list string :=
  map whole (findall false id_token page_text).

(** The exits of the function after the page has been requested. *)
Inductive exit_path : Type :=
| RequestFailed                      (* the request raised: return None *)
| NoTables                           (* "No tables found": return None *)
| TableId (npri_id : string)         (* a return inside the table loop *)
| ParsingError                       (* an exception in the loop: return None *)
| KnownId (npri_id : string)         (* a known identifier in the text *)
| TextScanned (page_text : string).  (* candidates printed: return None *)

(** The function that [main.py] names [download_npri_csv_with_selenium],
    up to the exit it takes: [response] is the parsed page, or [None]
    when the request raises. *)
Definition resolve (url : string) (response : option node) : exit_path :=
  match response with
  | None => RequestFailed
  | Some soup =>
      match find_all ["table"] soup with
      | [] => NoTables
      | tables =>
          match table_phase url tables with
          | Return npri_id => TableId npri_id
          | Raise => ParsingError
          | Next =>
              let page_text := get_text soup in
              match known_id_in page_text with
              | Some npri_id => KnownId npri_id
              | None => TextScanned page_text
              end
          end
      end
  end.

(** The value returned at an exit. *)
Definition returned (e : exit_path) : option string :=
  match e with
  | TableId npri_id => Some npri_id
  | KnownId npri_id => Some npri_id
  | _ => None
  end.

Definition download_npri_csv_with_selenium (url : string)
    (response : option node) : option string :=
  returned (resolve url response).

Section SetOrder.

(** [list(set(numbers))]: Python fixes no order for the elements of a
    set; [list_of_set] is the order of the run at hand. *)
Variable list_of_set : gset string -> list string.



End SetOrder.

(** [create_url_for_company] *)
Definition create_url_for_company (company_name : string) : string :=
  "https://pollution-waste.canada.ca/national-release-inventory/"
  ++ "?fromYear=2024&toYear=2024&name=" ++ quote company_name
  ++ "&direction=ascending&order=NPRI_Id&length=10&page=1".

(** [get_known_npri_data] *)
Definition get_known_npri_data : list (string * option string) :=
  [("Pine Cliff Energy Ltd", Some "1368");
   ("Spur Petroleum Ltd", None);
   ("Signalta Resources Ltd", None)].

Fixpoint assoc {A : Type} (key : string) (l : list (string * A)) : option A :=
  match l with
  | [] => None
  | (k, v) :: rest => if String.eqb k key then Some v else assoc key rest
  end.

(** *** process_single_company

    The body calls two functions by their global names.  A global name is
    looked up in the module's namespace when the call is executed, and a
    name that is not bound there raises [NameError]. *)

Inductive exn : Type :=
| NameError (name : string).

(** A callable taking the URL and returning an identifier or [None]. *)
Definition scraper : Type := string -> option string.

(** The functions of one argument bound at module level; the other names
    [main.py] binds are modules, classes and functions of other shapes. *)
Record page_fetchers : Type := {
  static_page : string -> option node;    (* what requests and bs4 give *)
  selenium_page : scraper                 (* what scrape_with_selenium gives *)
}.

Definition bound_names : list string :=
  ["os"; "sys"; "time"; "urllib"; "Path"; "requests"; "BeautifulSoup";
   "download_npri_csv_with_selenium"; "scrape_with_selenium";
   "create_url_for_company"; "get_known_npri_data";
   "process_single_company"; "read_companies_from_file"; "main"].

(** The namespace of [main.py] restricted to callables of the URL. *)
Definition main_globals (f : page_fetchers) : list (string * scraper) :=
  [("scrape_with_selenium", selenium_page f)].

Definition call_global (globals : list (string * scraper)) (name url : string)
    : exn + option string :=
  match assoc name globals with
  | Some f => inr (f url)
  | None => inl (NameError name)
  end.

(** if x: ...  on a string or None *)
Definition truthy (x : option string) : bool :=
  match x with
  | Some s => negb (String.eqb s "")
  | None => false
  end.

Definition process_single_company (globals : list (string * scraper))
    (company_name : string) : exn + (string * option string * string) :=
  let url := create_url_for_company company_name in
  match call_global globals "scrape_npri_data" url with
  | inl e => inl e
  | inr first_npri_id =>
      if truthy first_npri_id
      then inr (company_name, first_npri_id, "Static Scraping")
      else
        match call_global globals "scrape_with_selenium" url with
        | inl e => inl e
        | inr first_npri_id =>
            if truthy first_npri_id
            then inr (company_name, first_npri_id, "Selenium")
            else
              match assoc company_name get_known_npri_data with
              | Some (Some fallback_id) =>
                  if truthy (Some fallback_id)
                  then inr (company_name, Some fallback_id, "Known Data")
                  else inr (company_name, None, "Failed")
              | _ => inr (company_name, None, "Failed")
              end
        end
  end.

End MainPy.

(** ** Waiting for the page

    Instants are whole seconds counted from the return of [driver.get].
    [sleep d now] is the instant at which [time.sleep(d)], called at [now],
    returns.  [wait_until timeout cond now] is Selenium's
    [WebDriverWait(driver, timeout).until(cond)] called at [now]: the
    instant at which it returns, and whether it returned normally ([true])
    or raised [TimeoutException] ([false]).  [content_at t] tells whether
    one of the anchor texts is in the page at instant [t]. *)

Module Waiter.

Section Clock.

Variable sleep : nat -> nat -> nat.
Variable wait_until : nat -> (nat -> bool) -> nat -> nat * bool.
Variable content_at : nat -> bool.

(** [extract_contact_info.py]: sleep(10); try: wait.until(...) except
    TimeoutException: (a message); sleep(15).  The result is the instant
    at which extraction begins and whether content was detected. *)
Definition scrape_wait (timeout : nat) : nat * bool :=
  let t1 := sleep 10 0 in
  let '(t2, detected) := wait_until timeout content_at t1 in
  (sleep 15 t2, detected).

(** [enhanced_contact_extractor.py]: sleep(20); wait 30; sleep(10). *)
Definition enhanced_wait : nat * bool :=
  let t1 := sleep 20 0 in
  let '(t2, detected) := wait_until 30 content_at t1 in
  (sleep 10 t2, detected).

(** [improved_contact_extractor.py]:
    for i in range(6): time.sleep(5); if <anchor in page_source>: break *)
Fixpoint progress_loop (n : nat) (now : nat) : nat * bool :=
  match n with
  | O => (now, false)
  | S n' =>
      let now' := sleep 5 now in
      if content_at now' then (now', true) else progress_loop n' now'
  end.

Definition improved_wait : nat * bool := progress_loop 6 0.

End Clock.

(** A clock without overrun, and a wait that tests once and then times
    out. *)
Definition exact_sleep (d now : nat) : nat := now + d.
Definition single_check (timeout : nat) (cond : nat -> bool) (now : nat)
    : nat * bool :=
  if cond now then (now, true) else (now + timeout, false).

(** The content appears at instant [t0] and stays. *)
Definition appears_at (t0 : nat) (content_at : nat -> bool) : Prop :=
  forall t, content_at t = true <-> t0 <= t.

End Waiter.

(** ** Shapes of field values and the classification the specification
    describes *)

Module Shapes.
Import Text Re Patterns.

(** The words a pattern can read, whatever the order in which the matcher
    tries them and whatever stands around them (an anchor reads the empty
    word). *)
Fixpoint lang (ic : bool) (r : re) (w : list ascii) : Prop :=
  match r with
  | Lit s =>
      length w = length (chars s) /\ starts_with (chr_eq ic) (chars s) w = true
  | Rep neg items lo hi _ =>
      forallb (cls_test ic neg items) w = true /\ lo <= length w /\
      match hi with Some h => length w <= h | None => True end
  | Seq a b => exists w1 w2, w = w1 ++ w2 /\ lang ic a w1 /\ lang ic b w2
  | Alt a b => lang ic a w \/ lang ic b w
  | Grp a => lang ic a w
  | Eos => w = []
  | Wb => w = []
  end.

(** The words group 1 can hold after a match of [r]. *)
Fixpoint grp_lang (ic : bool) (r : re) (w : list ascii) : Prop :=
  match r with
  | Grp a => lang ic a w
  | Seq a b => grp_lang ic a w \/ grp_lang ic b w
  | Alt a b => grp_lang ic a w \/ grp_lang ic b w
  | _ => False
  end.

(** Every match of [r] goes through a group. *)
Fixpoint has_group (r : re) : bool :=
  match r with
  | Grp _ => true
  | Seq a b => has_group a || has_group b
  | Alt a b => has_group a && has_group b
  | _ => false
  end.

(** A phone value as the patterns can produce it: digits, hyphens,
    parentheses and white space. *)
Definition phone_shape (v : string) : bool :=
  forallb (set_test phone_chars) (chars v).
(** A phone value of digits, hyphens and parentheses only. *)
Definition strict_phone_shape (v : string) : bool :=
  forallb (set_test [CRng "0" "9"; CChr "-"; CChr "("; CChr ")"]) (chars v).
(** local@domain.tld: a non-empty local part, a non-empty domain and a
    top-level domain of at least two letters. *)
Definition email_ok (v : string) : Prop :=
  exists local domain tld : list ascii,
    chars v = local ++ "@"%char :: domain ++ "."%char :: tld /\
    local <> [] /\ forallb (set_test email_local) local = true /\
    domain <> [] /\ forallb (set_test email_domain) domain = true /\
    2 <= length tld /\ forallb is_alpha tld = true.
(** Nine digits. *)
Definition business_number_shape (v : string) : bool :=
  (len v =? 9)%nat && forallb is_digit (chars v).
(** Purely numeric. *)
Definition numeric (v : string) : bool := isdigit v.

(** What the labeled-field patterns and the hardcoded literals guarantee
    of a value stored under [key]. *)
Definition labeled_shape (key v : string) : Prop :=
  if String.eqb key "phone" then phone_shape v = true /\ strip v = v
  else if String.eqb key "email" then email_ok v
  else True.
(** The same with the nine digits of the business number. *)
Definition improved_shape (key v : string) : Prop :=
  labeled_shape key v /\
  if String.eqb key "business_number" then business_number_shape v = true
  else True.

(** Every value of the dict has the shape of its key. *)
Definition shaped (shape : string -> string -> Prop)
    (m : gmap string string) : Prop :=
  forall k v, m !! k = Some v -> shape k v.

(** The text before the label holds no earlier "phone:", in any case:
    "phone:" not in (pre + "Phone").lower() *)
Definition no_earlier_label (pre : string) : Prop :=
  contains "phone:" (lower (pre ++ "Phone")) = false.

(** The outcome of an attempt as the specification names it. *)
Inductive outcome : Type := Success | Partial | Failure.

Definition has_key (m : gmap string string) (k : string) : bool :=
  match m !! k with Some _ => true | None => false end.

(** The rule in the specification's words: a name, phone or e-mail makes
    a Success; otherwise any field makes a Partial; otherwise Failure.
    [name_key] is the key the extractor at hand uses for the name. *)
Definition spec_classify (name_key : string) (m : gmap string string)
    : outcome :=
  if has_key m name_key || has_key m "phone" || has_key m "email"
  then Success
  else if decide (m = ∅) then Failure else Partial.

(** The outcome the code records: the flag "success" and nothing else. *)
Definition recorded_outcome (success : bool) : outcome :=
  if success then Success else Failure.

(** A three-way outcome read with Partial counted as Success. *)
Definition two_way (o : outcome) : outcome :=
  match o with
  | Failure => Failure
  | _ => Success
  end.

End Shapes.

(** ** Pages and sessions used as examples *)

Module Scenarios.
Import Text Selenium Files Soup MainPy.

(** An element with no descendants that any query finds. *)
Definition leaf (t : string) : WebElement := Element t (fun _ => None).

(** A browser showing [source], in which the XPath [xpath] (and no other)
    finds [found]. *)
Definition browser (source xpath : string) (found : list WebElement)
    : Driver :=
  {| page_source := Some source;
     find_elements := fun x => if String.eqb x xpath then Some found else Some [] |}.

(** A browser showing [source] in which no queried element exists. *)
Definition plain_browser (source : string) : Driver :=
  {| page_source := Some source; find_elements := fun _ => Some [] |}.

Definition empty_world : world :=
  {| files := ∅; writable := fun _ => true |}.

(** The markup around the body of a page, as the browser serialises it. *)
Definition html (body : string) : string :=
  "<html><head></head><body>" ++ body ++ "</body></html>".
Definition table_row (cells : string) : string :=
  "<table><tbody><tr>" ++ cells ++ "</tr></tbody></table>".

(** A facility page that shows only the number of employees. *)
Definition employees_only_page : string :=
  html (table_row
          "<td>Number of full-time employee equivalents</td><td>5</td>").

(** A phone number written with blanks. *)
Definition spaced_phone_page : string :=
  html (table_row "<td>Phone: 587 315 1181</td>").

(** The hardcoded phone number inside a tag of its own, after the label
    and a blank. *)
Definition tagged_phone_page : string :=
  html (table_row "<td>Phone: <b>587-315-1181</b></td>").

(** Another phone number in a tag of its own, after the label and a
    blank; and the same without the blank. *)
Definition tagged_other_phone_page : string :=
  html (table_row "<td>Phone: <b>403-555-0199</b></td>").
Definition tight_tagged_phone_page : string :=
  html (table_row "<td>Phone:<b>403-555-0199</b></td>").

(** A page with another phone number after the label and the hardcoded one
    elsewhere, and the browser that shows it: the second paragraph is the
    one element whose text contains the hardcoded number. *)
Definition two_phones_page : string :=
  html "<p>Phone: 403-555-0199</p><p>Head office 587-315-1181</p>".
Definition two_phones_browser : Driver :=
  browser two_phones_page (ExtractContactInfo.xpath_text "587-315-1181")
    [leaf "Head office 587-315-1181"].

(** A listing: one table with the header row [Company, header] and one
    data row for Acme whose second cell links to /2024/4821. *)
Definition header_cell (header : string) : node :=
  NTag "th" [] [NText header].
Definition header_row (header : string) : node :=
  NTag "tr" [] [NTag "th" [] [NText "Company"]; header_cell header].
Definition acme_row : node :=
  NTag "tr" []
    [NTag "td" [] [NText "Acme"];
     NTag "td" [] [NTag "a" [("href", "/2024/4821")] [NText "4821"]]].
Definition listing_table (header : string) : node :=
  NTag "table" [] [header_row header; acme_row].
Definition listing (header : string) : node :=
  NTag "[document]" [] [listing_table header].


(** The same with other numbers in the text. *)
Definition candidates_page : node :=
  NTag "[document]" []
    [NTag "p" [] [NText "Reports filed: 4821 and 20455, not 123456"];
     NTag "table" []
       [NTag "tr" [] [NTag "th" [] [NText "Facility"];
                      NTag "th" [] [NText "City"]];
        NTag "tr" [] [NTag "td" [] [NText "North plant"];
                      NTag "td" [] [NText "Calgary"]]]].

(** A page whose business number sits in a cell together with its label,
    and the browser that shows it. *)
Definition labelled_cell_page : string :=
  html (table_row "<td>Business number: 863108833</td>").
Definition labelled_cell_browser : Driver :=
  browser labelled_cell_page ExtractContactInfo.xpath_business_number
    [leaf "Business number: 863108833"].

End Scenarios.

(** * Further definitions

    The browser fallback of [main.py], the exports
    ([save_contact_info_to_csv], [json_to_csv.py], the CSV step of
    [clean_contact_data.py]) and the text files the scripts hand on to
    each other ([process_all_companies.py] writes company_npri_ids.txt,
    the contact extractors read it). *)

Module UrlShape.
Import Text.

(** A character that is neither "=" nor "&". *)
Definition plain_char (c : ascii) : bool :=
  negb (ascii_eqb "=" c) && negb (ascii_eqb "&" c).

(** The rest of the search URL after the encoded name. *)
Definition url_tail : string :=
  "&direction=ascending&order=NPRI_Id&length=10&page=1".

End UrlShape.

Module MoreShapes.
Import Text.

(** A value with no white space at either end. *)
Definition trimmed (key value : string) : Prop := strip value = value.

(** The keys of the dicts: [scrape_contact_info_selenium] names the
    contact "name", the two later extractors "contact_name". *)
Definition scrape_keys : list string :=
  ["name"; "position"; "phone"; "email"; "language"; "business_number";
   "employees"].
Definition later_keys : list string :=
  ["business_number"; "employees"; "contact_name"; "position"; "phone";
   "email"; "language"].
Definition key_among (keys : list string) (key value : string) : Prop :=
  In key keys.

(** The first character, if there is one, is not white space. *)
Definition head_not_space (l : list ascii) : bool :=
  match l with c :: _ => negb (is_space c) | [] => true end.

(** Every white-space character is a blank, and no two follow one
    another. *)
Fixpoint single_spaced (l : list ascii) : bool :=
  match l with
  | [] => true
  | c :: t =>
      (negb (is_space c) || (ascii_eqb c " " && head_not_space t))
      && single_spaced t
  end.

(** [k] characters of white space and then none. *)
Definition run_of (k : nat) (l : list ascii) : Prop :=
  forallb is_space (firstn k l) = true /\ head_not_space (skipn k l) = true.

(** After a "<": the next ">" follows at once, or there is none; no tag
    begins at a "<" of a text where this holds everywhere. *)
Definition is_lt (c : ascii) : bool := ascii_eqb "<" c.
Definition is_gt (c : ascii) : bool := ascii_eqb ">" c.
Definition not_gt (c : ascii) : bool := negb (is_gt c).
Definition open_ok (t : list ascii) : bool :=
  match t with
  | [] => true
  | c :: _ => is_gt c || forallb not_gt t
  end.
Fixpoint tag_free (l : list ascii) : bool :=
  match l with
  | [] => true
  | c :: t => (negb (is_lt c) || open_ok t) && tag_free t
  end.

End MoreShapes.

(** ** main.py: the browser fallback *)

Module ScrapeWithSelenium.
Import Text MainPy.

(** A link element: what [get_attribute("href")] and [.text] give. *)
Record Link : Type := {
  href : option string;
  text : string
}.

(** The page after [driver.get]: whether the wait for a table returns
    (it raises TimeoutException otherwise) and what the two
    [find_elements] calls answer, [None] when the call raises. *)
Record Page : Type := {
  table_found : bool;
  detail_links : option (list Link);     (* By.CSS_SELECTOR, "a.detail-link" *)
  all_links : option (list Link)         (* By.TAG_NAME, "a" *)
}.

Inductive session : Type :=
| ImportFails             (* selenium is not installed *)
| DriverFails             (* webdriver.Chrome raises *)
| GetFails                (* driver.get raises *)
| Loaded (p : Page).

(** The body of the first loop: ["/2024/" in href] raises TypeError when
    the element has no href. *)
Definition detail_link (link : Link) : flow string :=
  match href link with
  | None => Raise
  | Some h =>
      let t := strip (text link) in
      if contains "/2024/" h && isdigit t then Return t else Next
  end.

(** The body of the second loop: href = link.get_attribute("href") or "" *)
Definition any_link (link : Link) : flow string :=
  let h := match href link with Some h => h | None => "" end in
  let t := strip (text link) in
  if contains "/2024/" h && isdigit t then Return t else Next.

Definition scrape_page (p : Page) : option string :=
  if table_found p
  then match detail_links p with
       | None => None
       | Some links =>
           match first_flow detail_link links with
           | Return t => Some t
           | Raise => None
           | Next =>
               match all_links p with
               | None => None
               | Some links =>
                   match first_flow any_link links with
                   | Return t => Some t
                   | _ => None
                   end
               end
           end
       end
  else None.

(** Every exception is caught by the outer handlers, which return None. *)
Definition scrape_with_selenium (s : session) : option string :=
  match s with
  | Loaded p => scrape_page p
  | _ => None
  end.

End ScrapeWithSelenium.

(** ** Pages in ASCII

    [str.isdigit], [str.strip], [str.lower] and the class [\d] are
    modelled on ASCII characters, where they agree with Python's; on
    other characters Python's versions accept more (the digits of other
    scripts, superscript digits, the white space of Unicode).  What is
    said of the digits of an identifier is therefore said of pages in
    ASCII. *)

Module AsciiPages.
Import Text Soup ScrapeWithSelenium.

Definition is_ascii (s : string) : bool :=
  forallb (fun c => (code c <? 128)%nat) (chars s).

Fixpoint ascii_node (n : node) : bool :=
  match n with
  | NText s => is_ascii s
  | NTag name attrs kids =>
      is_ascii name
      && forallb (fun kv => is_ascii (fst kv) && is_ascii (snd kv)) attrs
      && forallb ascii_node kids
  end.

Definition ascii_links (links : option (list Link)) : bool :=
  match links with
  | Some l => forallb (fun link => is_ascii (text link)) l
  | None => true
  end.

(** The text of every link of the page is in ASCII. *)
Definition ascii_session (s : session) : bool :=
  match s with
  | Loaded p => ascii_links (detail_links p) && ascii_links (all_links p)
  | _ => true
  end.

End AsciiPages.

(** ** The records of the JSON files and their CSV exports *)

Module ContactData.
Import Text.

(** One element of [contact_data]: the four keys every script writes;
    [contact_info] is [None] for JSON null. *)
Record item : Type := {
  company_name : string;
  npri_id : string;
  contact_info : option (gmap string string);
  success : bool
}.

(** What a CSV file holds at the end, as rows of cells; [completed] is
    false when an exception ended the writing, and the file then keeps
    the rows written before it. *)
Inductive csv_outcome : Type :=
| NothingWritten
| Written (rows : list (list string)) (completed : bool).

(** [sorted] on a list of strings. *)
Fixpoint insert_sorted (s : string) (l : list string) : list string :=
  match l with
  | [] => [s]
  | h :: t => if String.leb s h then s :: l else h :: insert_sorted s t
  end.
Definition sorted (l : list string) : list string :=
  fold_right insert_sorted [] l.

(** all_fields = set()
    for data in contact_data:
        contact_info = data.get("contact_info")
        if contact_info: all_fields.update(contact_info.keys()) *)
Definition add_fields (all_fields : gset string) (data : item) : gset string :=
  match contact_info data with
  | Some ci => if decide (ci = ∅) then all_fields else all_fields ∪ dom ci
  | None => all_fields
  end.
Definition all_fields (contact_data : list item) : gset string :=
  fold_left add_fields contact_data ∅.

(** for field in all_fields: row[field] = value(field) *)
Definition fill (fields : list string) (value : string -> string)
    (row : gmap string string) : gmap string string :=
  fold_left (fun row field => <[field := value field]> row) fields row.

(** contact_info.get(field, "") *)
Definition get_field (ci : gmap string string) (field : string) : string :=
  match ci !! field with Some v => v | None => "" end.

(** [DictWriter.writerow]: the cells in the order of [fieldnames], the
    empty string for a key the row lacks. *)
Definition csv_row (fieldnames : list string) (row : gmap string string)
    : list string :=
  map (get_field row) fieldnames.

(** The loop that writes the rows: [None] from [row_of] is an exception,
    which ends the loop. *)
Fixpoint write_rows (row_of : item -> option (gmap string string))
    (fieldnames : list string) (contact_data : list item)
    : list (list string) * bool :=
  match contact_data with
  | [] => ([], true)
  | data :: rest =>
      match row_of data with
      | None => ([], false)
      | Some row =>
          let (rows, completed) := write_rows row_of fieldnames rest in
          (csv_row fieldnames row :: rows, completed)
      end
  end.

(** str(b) *)
Definition str_bool (b : bool) : string := if b then "True" else "False".

(** The dict of a record, empty for a failed extraction. *)
Definition info (data : item) : gmap string string :=
  match contact_info data with Some ci => ci | None => ∅ end.

(** No dict uses one of the three column names of the records. *)
Definition plain_keys (contact_data : list item) : Prop :=
  forall d m, In d contact_data -> contact_info d = Some m ->
    m !! "company_name" = None /\ m !! "npri_id" = None /\
    m !! "success" = None.

(** The row of a record in the CSV of [json_to_csv]. *)
Definition json_cells (contact_data : list item) (data : item) : list string :=
  [company_name data; npri_id data; str_bool (success data)]
  ++ map (get_field (info data)) (sorted (elements (all_fields contact_data))).

(** No dict uses one of the two column names that the CSV files of
    [extract_contact_info.py] and [clean_contact_data.py] begin with. *)
Definition plain_record_keys (contact_data : list item) : Prop :=
  forall d m, In d contact_data -> contact_info d = Some m ->
    m !! "company_name" = None /\ m !! "npri_id" = None.

(** The row of a record in those CSV files, for the set [fields] of
    columns: the name, the identifier and the record's value of every
    field in sorted order, the empty string where it has none. *)
Definition record_cells (fields : gset string) (data : item) : list string :=
  [company_name data; npri_id data]
  ++ map (get_field (info data)) (sorted (elements fields)).

End ContactData.

(** ** extract_contact_info.py: save_contact_info_to_csv *)

Module SaveCsv.
Import Text ContactData.

(** row = {"company_name": ..., "npri_id": ...}
    contact_info = data.get("contact_info", {})
    for field in all_fields: row[field] = contact_info.get(field, "")
    The key is present with the value None for a failed extraction, so
    the default is not used and [None.get] raises AttributeError as soon
    as the loop has a field to go through. *)
Definition row_of (fields : list string) (data : item)
    : option (gmap string string) :=
  let row := <["npri_id" := npri_id data]>
               (<["company_name" := company_name data]> ∅) in
  match contact_info data with
  | Some ci => Some (fill fields (get_field ci) row)
  | None => match fields with [] => Some row | _ :: _ => None end
  end.

Definition fieldnames (contact_data : list item) : list string :=
  ["company_name"; "npri_id"] ++ sorted (elements (all_fields contact_data)).

(** For an output file that can be opened. *)
Definition save_contact_info_to_csv (contact_data : list item) : csv_outcome :=
  match contact_data with
  | [] => NothingWritten
  | _ :: _ =>
      let names := fieldnames contact_data in
      let (rows, completed) :=
        write_rows (row_of (elements (all_fields contact_data))) names
          contact_data in
      Written (names :: rows) completed
  end.

End SaveCsv.

(** ** json_to_csv.py *)

Module JsonToCsv.
Import Text ContactData.

(** if contact_info: ... contact_info.get(field, "")  else: ... "" *)
Definition row_of (fields : list string) (data : item)
    : option (gmap string string) :=
  let row := <["success" := str_bool (success data)]>
               (<["npri_id" := npri_id data]>
                  (<["company_name" := company_name data]> ∅)) in
  match contact_info data with
  | Some ci =>
      if decide (ci = ∅) then Some (fill fields (fun _ => "") row)
      else Some (fill fields (get_field ci) row)
  | None => Some (fill fields (fun _ => "") row)
  end.

Definition fieldnames (contact_data : list item) : list string :=
  ["company_name"; "npri_id"; "success"]
  ++ sorted (elements (all_fields contact_data)).

(** On the list read from the JSON file. *)
Definition convert_json_to_csv (contact_data : list item) : csv_outcome :=
  match contact_data with
  | [] => NothingWritten
  | _ :: _ =>
      let names := fieldnames contact_data in
      let (rows, completed) :=
        write_rows (row_of (elements (all_fields contact_data))) names
          contact_data in
      Written (names :: rows) completed
  end.

End JsonToCsv.

(** ** clean_contact_data.py: the list and its CSV *)

Module CleanData.
Import Text ContactData.

(** if item["success"] and item["contact_info"]: ... append *)
Definition clean_item (data : item) : list item :=
  match contact_info data with
  | Some ci =>
      if success data && negb (bool_decide (ci = ∅))
      then [{| company_name := company_name data;
               npri_id := npri_id data;
               contact_info := Some (CleanContactData.clean_contact_info ci);
               success := success data |}]
      else []
  | None => []
  end.
Definition cleaned_data (data : list item) : list item :=
  flat_map clean_item data.

(** for item in cleaned_data: all_fields.update(item["contact_info"].keys())
    [None] is the AttributeError of a null [contact_info]. *)
Fixpoint final_fields (cleaned : list item) (acc : gset string)
    : option (gset string) :=
  match cleaned with
  | [] => Some acc
  | data :: rest =>
      match contact_info data with
      | Some ci => final_fields rest (acc ∪ dom ci)
      | None => None
      end
  end.

(** The fields of the kept records. *)
Definition kept_fields (cleaned : list item) : gset string :=
  fold_left (fun acc data => acc ∪ dom (info data)) cleaned ∅.

(** row[field] = item["contact_info"].get(field, "") *)
Definition row_of (fields : list string) (data : item)
    : option (gmap string string) :=
  let row := <["npri_id" := npri_id data]>
               (<["company_name" := company_name data]> ∅) in
  match contact_info data with
  | Some ci => Some (fill fields (get_field ci) row)
  | None => None
  end.

(** The CSV step of [clean_contact_data] on the list read from the JSON
    file. *)
Definition final_csv (data : list item) : csv_outcome :=
  match cleaned_data data with
  | [] => NothingWritten
  | cleaned =>
      match final_fields cleaned ∅ with
      | None => NothingWritten
      | Some fields =>
          let names := ["company_name"; "npri_id"] ++ sorted (elements fields) in
          let (rows, completed) :=
            write_rows (row_of (sorted (elements fields))) names cleaned in
          Written (names :: rows) completed
      end
  end.

End CleanData.

(** ** The text files the scripts hand on to each other *)

Module TextFile.
Import Text.

(** The newline character as a string. *)
Definition eol : string := String "010"%char "".

(** [str(n)] for a natural number. *)
Definition digit_char (d : nat) : ascii := ascii_of_nat (48 + d).
Fixpoint decimal (fuel n : nat) (acc : list ascii) : list ascii :=
  match fuel with
  | O => acc
  | S fuel' =>
      let acc' := digit_char (n mod 10) :: acc in
      if (n / 10 =? 0)%nat then acc' else decimal fuel' (n / 10) acc'
  end.
Definition str_nat (n : nat) : string := str (decimal (S n) n []).

(** [file.readlines()] in text mode: the lines with their newline; a
    carriage return, alone or before a newline, is read as a newline. *)
Fixpoint readlines_aux (cur l : list ascii) : list (list ascii) :=
  match l with
  | [] => match cur with [] => [] | _ :: _ => [rev cur] end
  | c :: t =>
      if ascii_eqb c "010" then rev (c :: cur) :: readlines_aux [] t
      else if ascii_eqb c "013"
      then rev ("010"%char :: cur)
           :: match t with
              | c' :: t' =>
                  if ascii_eqb c' "010" then readlines_aux [] t'
                  else readlines_aux [] t
              | [] => []
              end
      else readlines_aux (c :: cur) t
  end.
Definition readlines (content : string) : list string :=
  map str (readlines_aux [] (chars content)).

(** [s.lstrip()] and [s.startswith(p)] on strings. *)
Definition lstrip (s : string) : string := str (lstrip_l (chars s)).
Definition startswith (s p : string) : bool :=
  starts_with ascii_eqb (chars p) (chars s).

(** [s.split(sep, 1)]: cut at the first separator, if there is one. *)
Fixpoint split1_aux (sep cur l : list ascii) : list (list ascii) :=
  match l with
  | [] => [rev cur]
  | c :: t =>
      if starts_with ascii_eqb sep l
      then [rev cur; skipn (length sep) l]
      else split1_aux sep (c :: cur) t
  end.
Definition split1 (sep s : string) : list string :=
  map str (split1_aux (chars sep) [] (chars s)).

(** The body of the loop over the lines of [company_npri_ids.txt], which
    [read_npri_ids_from_file] and [process_all_companies] share up to
    the prefixes they exclude:
      line = line.strip()
      if ":" in line and not line.startswith(p) ...:
          parts = line.split(":", 1)
          if len(parts) == 2:
              company_name = parts[0].strip(); npri_id = parts[1].strip()
              if npri_id.isdigit(): append((company_name, npri_id)) *)
Definition parse_line (excluded : list string) (raw : string)
    : list (string * string) :=
  let line := strip raw in
  if contains ":" line && negb (existsb (startswith line) excluded)
  then match split1 ":" line with
       | [part0; part1] =>
           let company_name := strip part0 in
           let npri_id := strip part1 in
           if isdigit npri_id then [(company_name, npri_id)] else []
       | _ => []
       end
  else [].

(** A text without a line break, and one without a colon. *)
Definition not_break (c : ascii) : bool :=
  negb (ascii_eqb c "010") && negb (ascii_eqb c "013").
Definition not_colon (c : ascii) : bool := negb (ascii_eqb ":" c).
Definition one_line (s : string) : bool := forallb not_break (chars s).
Definition no_colon (s : string) : bool := forallb not_colon (chars s).

End TextFile.

(** ** process_all_companies.py: save_results_to_file *)

Module ProcessAllCompanies.
Import Text Files TextFile.

(** (company_name, npri_id, status) *)
Definition result : Type := string * option string * string.

(** if npri_id: ...  *)
Definition found (r : result) : bool :=
  match r with
  | (_, Some npri_id, _) => negb (String.eqb npri_id "")
  | (_, None, _) => false
  end.

Definition result_line (r : result) : string :=
  match r with
  | (company_name, Some npri_id, status) =>
      if String.eqb npri_id ""
      then company_name ++ ": NOT FOUND (" ++ status ++ ")" ++ eol
      else company_name ++ ": " ++ npri_id ++ eol
  | (company_name, None, status) =>
      company_name ++ ": NOT FOUND (" ++ status ++ ")" ++ eol
  end.

Definition results_text (results : list result) : string :=
  "Company Name and First NPRI ID Results" ++ eol
  ++ str (repeat "="%char 50) ++ eol ++ eol
  ++ String.concat "" (map result_line results)
  ++ eol ++ eol ++ "Processed " ++ str_nat (length results) ++ " companies"
  ++ eol
  ++ "Successfully found NPRI IDs for "
  ++ str_nat (length (filter found results)) ++ "/"
  ++ str_nat (length results) ++ " companies" ++ eol.

(** A failure to open or write the file is caught and reported; the
    world is then as before. *)
Definition save_results_to_file (results : list result) (output_file : string)
    (w : world) : world :=
  match write_file output_file (results_text results) w with
  | Some w' => w'
  | None => w
  end.

End ProcessAllCompanies.

(** ** The readers of company_npri_ids.txt *)

Module ReadNpriIds.
Import Text Files TextFile.

(** extract_contact_info.py *)
Definition excluded : list string :=
  ["="; "Company Name and"; "Processed"; "Successfully"].

(** [read_npri_ids_from_file]: a missing file gives the empty list. *)
Definition read_npri_ids_from_file (filename : string) (w : world)
    : list (string * string) :=
  match files w !! filename with
  | Some content => flat_map (parse_line excluded) (readlines content)
  | None => []
  end.

(** improved_contact_extractor.py, [process_all_companies] *)
Definition improved_excluded : list string := ["="; "Company"].

(** [companies_data] in [process_all_companies]. *)
Definition companies_data (w : world) : list (string * string) :=
  match files w !! "company_npri_ids.txt" with
  | Some content =>
      flat_map (parse_line improved_excluded) (readlines content)
  | None => []
  end.

(** What a reader gets back from one result written to the file. *)
Definition read_back (excluded : list string)
    (r : ProcessAllCompanies.result) : list (string * string) :=
  match r with
  | (company_name, Some npri_id, _) =>
      if negb (String.eqb npri_id "")
         && negb (existsb (startswith (lstrip company_name)) excluded)
         && isdigit (strip npri_id)
      then [(strip company_name, strip npri_id)]
      else []
  | (_, None, _) => []
  end.

(** A result that fits on its line: no line break in its three parts and
    no colon in the company name. *)
Definition fits_line (r : ProcessAllCompanies.result) : bool :=
  match r with
  | (company_name, npri_id, status) =>
      one_line company_name && no_colon company_name
      && one_line (match npri_id with Some s => s | None => "" end)
      && one_line status
  end.

End ReadNpriIds.

(** ** main.py, process_all_companies.py: read_companies_from_file *)

Module ReadCompanies.
Import Text Files TextFile.

(** companies = [line.strip() for line in file if line.strip()]
    A missing file gives the empty list. *)
Definition read_companies_from_file (filename : string) (w : world)
    : list string :=
  match files w !! filename with
  | Some content =>
      flat_map (fun line =>
                  if String.eqb (strip line) "" then [] else [strip line])
               (readlines content)
  | None => []
  end.

End ReadCompanies.

(** ** extract_contact_info.py: the list that main hands to the exports *)

Module ExtractMain.
Import Text Selenium ContactData.

(** for company_name, npri_id in companies_and_ids:
        contact_info = scrape_contact_info_selenium(npri_id)
        result = {"company_name": ..., "npri_id": ...,
                  "contact_info": contact_info,
                  "success": contact_info is not None}
    Each run carries the session the browser goes through for its
    identifier. *)
Definition result_of (run : string * string * session) : item :=
  let contact_info :=
    ExtractContactInfo.scrape_contact_info_selenium run.2 in
  {| company_name := run.1.1;
     npri_id := run.1.2;
     contact_info := contact_info;
     success := ExtractContactInfo.success contact_info |}.
Definition contact_data (runs : list (string * string * session))
    : list item :=
  map result_of runs.

(** Whether the CSV was written to its end. *)
Definition completed (o : csv_outcome) : bool :=
  match o with
  | NothingWritten => false
  | Written _ completed => completed
  end.
(** The rows of the CSV after the header. *)
Definition data_rows (o : csv_outcome) : list (list string) :=
  match o with
  | NothingWritten => []
  | Written rows _ => tl rows
  end.

End ExtractMain.

(** ** Further scenarios *)

Module MoreScenarios.
Import Soup Scenarios.

(** A listing whose identifier column holds a link named "details". *)
Definition details_listing : node :=
  NTag "[document]" []
    [NTag "table" []
       [header_row "NPRI ID";
        NTag "tr" []
          [NTag "td" [] [NText "Borealis Gas Ltd"];
           NTag "td" []
             [NTag "a" [("href", "./2024/20455")] [NText "details"]]]]].

(** A position followed by two blanks and the e-mail label. *)
Definition position_page : string :=
  html (table_row "<td>Position: Plant Manager  Email: pm@example.ca</td>").

(** A page whose only link has blanks around its text. *)
Definition padded_link_page : ScrapeWithSelenium.Page :=
  {| ScrapeWithSelenium.table_found := true;
     ScrapeWithSelenium.detail_links := Some [];
     ScrapeWithSelenium.all_links :=
       Some [{| ScrapeWithSelenium.href :=
                  Some "https://pollution-waste.canada.ca/national-release-inventory/2024/20455";
                ScrapeWithSelenium.text := " 20455 " |}] |}.

(** Three records in the order of a run: an extraction that found a
    phone number, one that failed, one that found an e-mail address. *)
Definition found_item : ContactData.item :=
  {| ContactData.company_name := "Pine Cliff Energy Ltd";
     ContactData.npri_id := "1368";
     ContactData.contact_info := Some (<["phone" := "403-555-0199"]> ∅);
     ContactData.success := true |}.
Definition failed_item : ContactData.item :=
  {| ContactData.company_name := "Spur Petroleum Ltd";
     ContactData.npri_id := "6626";
     ContactData.contact_info := None;
     ContactData.success := false |}.
Definition late_item : ContactData.item :=
  {| ContactData.company_name := "Signalta Resources Ltd";
     ContactData.npri_id := "15098";
     ContactData.contact_info := Some (<["email" := "info@signalta.example"]> ∅);
     ContactData.success := true |}.

(** The results of a run: an identifier found, a download that failed,
    and two companies whose names begin like a line of the report. *)
Definition sample_results : list ProcessAllCompanies.result :=
  [("Pine Cliff Energy Ltd", Some "1368", "SUCCESS");
   ("Spur Petroleum Ltd", None, "No CSV file was downloaded");
   ("Processed Foods Inc", Some "20455", "SUCCESS");
   ("Company X Ltd", Some "4821", "SUCCESS")].

(** A companies file with a blank line, padding and a Windows line end. *)
Definition companies_world : Files.world :=
  {| Files.files :=
       <["companies.txt" :=
           ("  Pine Cliff Energy Ltd " ++ String "013" TextFile.eol
            ++ TextFile.eol ++ "Spur Petroleum Ltd")%string]> ∅;
     Files.writable := fun _ => true |}.

(** A batch of two: the first page shows a phone number, the second
    browser cannot be started. *)
Definition mixed_runs : list (string * string * Selenium.session) :=
  [("Pine Cliff Energy Ltd", "1368",
    Selenium.Loaded (Scenarios.plain_browser Scenarios.spaced_phone_page));
   ("Spur Petroleum Ltd", "6626", Selenium.DriverFails)].

End MoreScenarios.


(** * Properties *)

(** ** Characters and strings *)

Module TextFacts.
Import Text.

Lemma chars_str (l : list ascii) : chars (str l) = l.
Proof. apply list_ascii_of_string_of_list_ascii. Qed.

Lemma str_chars (s : string) : str (chars s) = s.
Proof. apply string_of_list_ascii_of_string. Qed.

(** A property that holds of the 256 characters holds of every one. *)
Lemma in_all_ascii (c : ascii) : In c all_ascii.
Proof.
  unfold all_ascii. rewrite <- (ascii_nat_embedding c).
  apply in_map, in_seq. pose proof (nat_ascii_bounded c). lia.
Qed.

Lemma ascii_forall (P : ascii -> bool) :
  forallb P all_ascii = true -> forall c, P c = true.
Proof.
  intros H c. rewrite forallb_forall in H. apply H, in_all_ascii.
Qed.

Lemma ascii_implies (P Q : ascii -> bool) :
  forallb (fun c => implb (P c) (Q c)) all_ascii = true ->
  forall c, P c = true -> Q c = true.
Proof.
  intros H c Hc.
  pose proof (ascii_forall _ H c) as K. simpl in K.
  now rewrite Hc in K.
Qed.

Lemma lstrip_l_length (l : list ascii) : length (lstrip_l l) <= length l.
Proof.
  induction l as [|c t IH]; simpl; [lia|].
  destruct (is_space c); simpl; lia.
Qed.

Lemma lstrip_l_cons (c : ascii) (t : list ascii) :
  lstrip_l (c :: t) = c :: t -> is_space c = false.
Proof.
  simpl. destruct (is_space c); [|easy].
  intros E. pose proof (lstrip_l_length t) as L. rewrite E in L.
  simpl in L. lia.
Qed.

Lemma lstrip_l_idem (l : list ascii) : lstrip_l (lstrip_l l) = lstrip_l l.
Proof.
  induction l as [|c t IH]; simpl; [easy|].
  destruct (is_space c) eqn:E; [easy|]. simpl. now rewrite E.
Qed.

Lemma lstrip_l_suffix (l : list ascii) : exists p, l = p ++ lstrip_l l.
Proof.
  induction l as [|c t [p Hp]]; simpl.
  - now exists [].
  - destruct (is_space c).
    + exists (c :: p). simpl. now f_equal.
    + now exists [].
Qed.

Lemma strip_l_infix (l : list ascii) : exists p q, l = p ++ strip_l l ++ q.
Proof.
  unfold strip_l, rstrip_l.
  destruct (lstrip_l_suffix l) as [p Hp].
  destruct (lstrip_l_suffix (rev (lstrip_l l))) as [q Hq].
  exists p, (rev q).
  rewrite <- rev_app_distr, <- Hq, rev_involutive. exact Hp.
Qed.

Lemma forallb_strip_l (P : ascii -> bool) (l : list ascii) :
  forallb P l = true -> forallb P (strip_l l) = true.
Proof.
  intros H. destruct (strip_l_infix l) as (p & q & E).
  rewrite E in H. rewrite !forallb_app in H.
  apply andb_true_iff in H as [_ H]. now apply andb_true_iff in H as [H _].
Qed.

Lemma lstrip_l_id (l : list ascii) :
  forallb (fun c => negb (is_space c)) l = true -> lstrip_l l = l.
Proof.
  destruct l as [|c t]; simpl; [easy|].
  intros H. apply andb_true_iff in H as [H _].
  now destruct (is_space c).
Qed.

Lemma strip_l_id (l : list ascii) :
  forallb (fun c => negb (is_space c)) l = true -> strip_l l = l.
Proof.
  intros H. unfold strip_l, rstrip_l.
  rewrite (lstrip_l_id l H), lstrip_l_id, rev_involutive; [easy|].
  rewrite forallb_forall in *. intros c Hc. apply H. now apply in_rev.
Qed.

(** [strip] leaves a stripped text as it is. *)
Lemma strip_l_idem (l : list ascii) : strip_l (strip_l l) = strip_l l.
Proof.
  unfold strip_l at 2 3. set (a := lstrip_l l).
  assert (lstrip_l a = a) as Ha by apply lstrip_l_idem.
  set (b := rstrip_l a).
  assert (rstrip_l b = b) as Hb.
  { unfold b, rstrip_l. now rewrite rev_involutive, lstrip_l_idem. }
  assert (lstrip_l b = b) as Hl.
  { destruct (lstrip_l_suffix (rev a)) as [q Hq].
    assert (a = b ++ rev q) as E.
    { unfold b, rstrip_l. rewrite <- rev_app_distr, <- Hq.
      now rewrite rev_involutive. }
    destruct b as [|c b']; [easy|].
    rewrite E in Ha. simpl in Ha. apply lstrip_l_cons in Ha.
    simpl. now rewrite Ha. }
  unfold strip_l. now rewrite Hl.
Qed.

Lemma strip_idem (s : string) : strip (strip s) = strip s.
Proof. unfold strip. now rewrite chars_str, strip_l_idem. Qed.

Lemma length_strip_l (l : list ascii) : length (strip_l l) <= length l.
Proof.
  destruct (strip_l_infix l) as (p & q & E).
  rewrite E at 2. rewrite !length_app. lia.
Qed.

End TextFacts.

(** ** The matcher *)

Module ReFacts.
Import Text Re Shapes TextFacts.

Lemma starts_with_length eq (p l : list ascii) :
  starts_with eq p l = true -> length p <= length l.
Proof.
  revert l. induction p as [|a p IH]; intros [|b l]; simpl; try lia; try easy.
  intros H. apply andb_true_iff in H as [_ H]. apply IH in H. lia.
Qed.

Lemma starts_with_firstn eq (p l : list ascii) :
  starts_with eq p l = true -> starts_with eq p (firstn (length p) l) = true.
Proof.
  revert l. induction p as [|a p IH]; intros [|b l]; simpl; try easy.
  intros H. apply andb_true_iff in H as [H1 H2].
  now rewrite H1, IH.
Qed.

Lemma span_len_spec (p : ascii -> bool) (cap : option nat) (l : list ascii) :
  let n := span_len p cap l in
  n <= length l /\ forallb p (firstn n l) = true /\
  match cap with Some h => n <= h | None => True end.
Proof.
  revert cap. induction l as [|c t IH]; intros cap; simpl.
  - destruct cap as [[|h]|]; simpl; repeat split; lia.
  - destruct cap as [[|h]|]; simpl.
    + repeat split; lia.
    + destruct (p c) eqn:E; simpl; [|repeat split; lia].
      destruct (IH (Some h)) as (A & B & C). simpl in *.
      rewrite E. repeat split; try lia. exact B.
    + destruct (p c) eqn:E; simpl; [|repeat split; lia].
      destruct (IH None) as (A & B & _). simpl in *.
      rewrite E. repeat split; try lia. exact B.
Qed.

Lemma in_counts (greedy : bool) (lo n k : nat) :
  In k (counts greedy lo n) -> lo <= k <= n.
Proof.
  unfold counts. intros H.
  assert (In k (seq lo (S n - lo))) as H'
    by (destruct greedy; [now apply in_rev|easy]).
  apply in_seq in H'. lia.
Qed.

Lemma forallb_firstn_le (p : ascii -> bool) (k n : nat) (l : list ascii) :
  k <= n -> forallb p (firstn n l) = true -> forallb p (firstn k l) = true.
Proof.
  intros Hk H. rewrite forallb_forall in *. intros c Hc. apply H.
  replace n with (k + (n - k)) by lia.
  rewrite <- (firstn_skipn k l) at 1.
  rewrite firstn_app, length_firstn.
  apply in_or_app. left.
  rewrite firstn_all2; [easy|]. rewrite length_firstn. lia.
Qed.

(** What a pattern reads is a word of its language. *)
Lemma run_sound (ic : bool) (r : re) :
  forall st st', In st' (run ic r st) ->
  exists w, m_rest st = w ++ m_rest st' /\
            m_pos st' = m_pos st + length w /\ lang ic r w.
Proof.
  induction r as [s|neg items lo hi g|a IHa b IHb|a IHa b IHb|a IHa| |];
    intros st st' H; simpl in H.
  - destruct (starts_with _ _ _) eqn:E; [|easy].
    destruct H as [<-|[]]. simpl.
    pose proof (starts_with_length _ _ _ E) as L.
    exists (firstn (length (chars s)) (m_rest st)).
    rewrite firstn_skipn, length_firstn.
    repeat split; try lia. now apply starts_with_firstn.
  - apply in_map_iff in H as (k & <- & Hk). apply in_counts in Hk.
    destruct (span_len_spec (cls_test ic neg items) hi (m_rest st))
      as (A & B & C). simpl in *.
    exists (firstn k (m_rest st)).
    rewrite firstn_skipn, length_firstn.
    repeat split; try lia.
    + eapply forallb_firstn_le; [|exact B]. lia.
    + destruct hi; [lia|easy].
  - apply in_flat_map in H as (st1 & H1 & H2).
    destruct (IHa _ _ H1) as (w1 & E1 & P1 & L1).
    destruct (IHb _ _ H2) as (w2 & E2 & P2 & L2).
    exists (w1 ++ w2). rewrite <- app_assoc, <- E2, length_app.
    repeat split; try lia; [easy|]. now exists w1, w2.
  - apply in_app_or in H as [H|H].
    + destruct (IHa _ _ H) as (w & E & P & L). exists w. simpl. tauto.
    + destruct (IHb _ _ H) as (w & E & P & L). exists w. simpl. tauto.
  - apply in_map_iff in H as (st1 & <- & H1).
    destruct (IHa _ _ H1) as (w & E & P & L). now exists w.
  - destruct (at_end _); [|easy]. destruct H as [<-|[]].
    exists []. simpl. repeat split; lia.
  - destruct (xorb _ _); [|easy]. destruct H as [<-|[]].
    exists []. simpl. repeat split; lia.
Qed.

(** Group 1 is left as it was or holds a word of a group's language. *)
Lemma run_cap (ic : bool) (r : re) :
  forall st st', In st' (run ic r st) ->
  m_cap st' = m_cap st \/ exists w, m_cap st' = Some w /\ grp_lang ic r w.
Proof.
  induction r as [s|neg items lo hi g|a IHa b IHb|a IHa b IHb|a IHa| |];
    intros st st' H; simpl in H.
  - destruct (starts_with _ _ _); [|easy]. destruct H as [<-|[]]. now left.
  - apply in_map_iff in H as (k & <- & _). now left.
  - apply in_flat_map in H as (st1 & H1 & H2).
    destruct (IHb _ _ H2) as [E2|(w & E2 & G2)].
    + destruct (IHa _ _ H1) as [E1|(w & E1 & G1)].
      * left. congruence.
      * right. exists w. simpl. rewrite E2. tauto.
    + right. exists w. simpl. tauto.
  - apply in_app_or in H as [H|H].
    + destruct (IHa _ _ H) as [E|(w & E & G)]; [now left|].
      right. exists w. simpl. tauto.
    + destruct (IHb _ _ H) as [E|(w & E & G)]; [now left|].
      right. exists w. simpl. tauto.
  - apply in_map_iff in H as (st1 & <- & H1). right. simpl.
    destruct (run_sound ic a _ _ H1) as (w & E & P & L).
    exists w. split; [|easy]. f_equal.
    rewrite E, P. replace (m_pos st + length w - m_pos st) with (length w) by lia.
    rewrite firstn_app, Nat.sub_diag, firstn_all. simpl. apply app_nil_r.
  - destruct (at_end _); [|easy]. destruct H as [<-|[]]. now left.
  - destruct (xorb _ _); [|easy]. destruct H as [<-|[]]. now left.
Qed.

(** With [has_group] the group has matched at the end of every match. *)
Lemma run_has_group (ic : bool) (r : re) :
  has_group r = true ->
  forall st st', In st' (run ic r st) ->
  exists w, m_cap st' = Some w /\ grp_lang ic r w.
Proof.
  induction r as [s|neg items lo hi g|a IHa b IHb|a IHa b IHb|a IHa| |];
    intros HG st st' H; simpl in HG; try discriminate.
  - simpl in H. apply in_flat_map in H as (st1 & H1 & H2).
    destruct (run_cap ic b _ _ H2) as [E2|(w & E2 & G2)].
    + destruct (has_group a) eqn:Ha.
      * destruct (IHa eq_refl _ _ H1) as (w & E1 & G1).
        exists w. simpl. rewrite E2. tauto.
      * simpl in HG. destruct (IHb HG _ _ H2) as (w & E & G).
        exists w. simpl. tauto.
    + exists w. simpl. tauto.
  - apply andb_true_iff in HG as [Ha Hb]. simpl in H.
    apply in_app_or in H as [H|H].
    + destruct (IHa Ha _ _ H) as (w & E & G). exists w. simpl. tauto.
    + destruct (IHb Hb _ _ H) as (w & E & G). exists w. simpl. tauto.
  - simpl in H. apply in_map_iff in H as (st1 & <- & H1). simpl.
    destruct (run_sound ic a _ _ H1) as (w & E & P & L).
    exists w. split; [|easy]. f_equal.
    rewrite E, P. replace (m_pos st + length w - m_pos st) with (length w) by lia.
    rewrite firstn_app, Nat.sub_diag, firstn_all. simpl. apply app_nil_r.
Qed.

Lemma match_at_sound (ic : bool) (r : re) prev l m :
  match_at ic r prev l = Some m ->
  lang ic r (group0 m) /\
  (exists rest, l = group0 m ++ rest) /\
  (group1 m = None \/ exists w, group1 m = Some w /\ grp_lang ic r w) /\
  (has_group r = true -> exists w, group1 m = Some w /\ grp_lang ic r w).
Proof.
  unfold match_at. destruct (run ic r _) as [|st' tl] eqn:E; [easy|].
  intros [= <-]. simpl.
  assert (In st' (run ic r (MState 0 prev l None))) as H
    by (rewrite E; now left).
  destruct (run_sound ic r _ _ H) as (w & E1 & P & L). simpl in *.
  assert (firstn (m_pos st') l = w) as ->.
  { rewrite E1, P, firstn_app, Nat.sub_diag, firstn_all. simpl.
    apply app_nil_r. }
  repeat split; [easy|now exists (m_rest st')| |].
  - destruct (run_cap ic r _ _ H) as [->|?]; [now left|now right].
  - intros HG. exact (run_has_group ic r HG _ _ H).
Qed.

Lemma search_l_match_at (ic : bool) (r : re) l :
  forall prev m, search_l ic r prev l = Some m ->
  exists prev' l', match_at ic r prev' l' = Some m.
Proof.
  induction l as [|c t IH]; intros prev m; simpl.
  - destruct (match_at ic r prev []) eqn:E; [|easy].
    intros [= <-]. eauto.
  - destruct (match_at ic r prev (c :: t)) eqn:E.
    + intros [= <-]. eauto.
    + apply IH.
Qed.

Lemma findall_l_match_at (ic : bool) (r : re) l :
  forall skip prev m, In m (findall_l ic r skip prev l) ->
  exists prev' l', match_at ic r prev' l' = Some m.
Proof.
  induction l as [|c t IH]; intros skip prev m; simpl.
  - destruct skip; [|easy].
    destruct (match_at ic r prev []) eqn:E; [|easy].
    intros [<-|[]]. eauto.
  - destruct skip as [|k]; [|apply IH].
    destruct (match_at ic r prev (c :: t)) eqn:E.
    + intros [<-|H]; [eauto|]. now apply IH in H.
    + apply IH.
Qed.

(** The group of a [re.search] match is a word of the group's pattern. *)
Lemma search_group (ic : bool) (r : re) (s : string) (m : rmatch) :
  has_group r = true -> search ic r s = Some m ->
  exists w, group1 m = Some w /\ group m = str w /\ grp_lang ic r w.
Proof.
  intros HG H. apply search_l_match_at in H as (prev & l & H).
  apply match_at_sound in H as (_ & _ & _ & H).
  destruct (H HG) as (w & E & G). exists w.
  unfold group. now rewrite E.
Qed.

Lemma findall_group (ic : bool) (r : re) (s : string) (m : rmatch) :
  has_group r = true -> In m (findall ic r s) ->
  exists w, group1 m = Some w /\ group m = str w /\ grp_lang ic r w.
Proof.
  intros HG H. apply findall_l_match_at in H as (prev & l & H).
  apply match_at_sound in H as (_ & _ & _ & H).
  destruct (H HG) as (w & E & G). exists w.
  unfold group. now rewrite E.
Qed.


End ReFacts.

(** ** Finite maps and folds *)

Module MapFacts.

Lemma fold_left_preserves {A B : Type} (P : A -> Prop) (f : A -> B -> A)
    (l : list B) :
  (forall a b, In b l -> P a -> P (f a b)) ->
  forall a, P a -> P (fold_left f l a).
Proof.
  induction l as [|b l IH]; intros Hf a Ha; simpl; [easy|].
  apply IH.
  - intros a' b' Hb. apply Hf. now right.
  - apply Hf; [now left|easy].
Qed.

Lemma nonempty_has_key (m : gmap string string) :
  m <> ∅ <-> exists k v, m !! k = Some v.
Proof.
  split.
  - apply map_choose.
  - intros (k & v & H) ->. now rewrite lookup_empty in H.
Qed.

End MapFacts.

(** ** Classification of the outcome (C1, C10) *)

Module Classification.
Import Text Selenium Files Shapes Scenarios MapFacts.

Lemma finish_scrape (m : gmap string string) :
  (m = ∅ /\ ExtractContactInfo.finish m = None) \/
  (m <> ∅ /\ ExtractContactInfo.finish m = Some m).
Proof.
  unfold ExtractContactInfo.finish. destruct (decide (m = ∅)); tauto.
Qed.

Lemma finish_improved (m : gmap string string) :
  (m = ∅ /\ ImprovedContactExtractor.finish m = None) \/
  (m <> ∅ /\ ImprovedContactExtractor.finish m = Some m).
Proof.
  unfold ImprovedContactExtractor.finish. destruct (decide (m = ∅)); tauto.
Qed.

Lemma spec_classify_failure (name_key : string) (m : gmap string string) :
  spec_classify name_key m = Failure <-> m = ∅.
Proof.
  unfold spec_classify, has_key. split.
  - destruct (_ || _ || _); [easy|]. now destruct (decide (m = ∅)).
  - intros ->. rewrite !lookup_empty. simpl. now destruct (decide _).
Qed.

Lemma two_way_spec_classify (name_key : string) (m : gmap string string) :
  two_way (spec_classify name_key m) = if decide (m = ∅) then Failure else Success.
Proof.
  destruct (decide (m = ∅)) as [E|N].
  - now rewrite (proj2 (spec_classify_failure name_key m) E).
  - destruct (spec_classify name_key m) eqn:C; try easy.
    now apply spec_classify_failure in C.
Qed.

Lemma finish_scrape_key (m : gmap string string) (k v : string) :
  m !! k = Some v -> ExtractContactInfo.finish m = Some m.
Proof.
  intros H. destruct (finish_scrape m) as [[-> _]|[_ F]]; [|easy].
  now rewrite lookup_empty in H.
Qed.

Lemma finish_improved_key (m : gmap string string) (k v : string) :
  m !! k = Some v -> ImprovedContactExtractor.finish m = Some m.
Proof.
  intros H. destruct (finish_improved m) as [[-> _]|[_ F]]; [|easy].
  now rewrite lookup_empty in H.
Qed.

(** A key in the final dict is a key of the dict returned, and the
    attempt is a success. *)
Lemma scrape_returns_key (d : Driver) (k v : string) :
  ExtractContactInfo.collect d !! k = Some v ->
  exists m,
    ExtractContactInfo.scrape_contact_info_selenium (Loaded d) = Some m /\
    m !! k = Some v /\ ExtractContactInfo.success (Some m) = true.
Proof.
  intros H. exists (ExtractContactInfo.collect d).
  unfold ExtractContactInfo.scrape_contact_info_selenium.
  rewrite (finish_scrape_key _ _ _ H). repeat split. exact H.
Qed.

Lemma improved_returns_key (npri_id page_source : string) (w : world)
    (k v : string) :
  writable w ("debug_page_" ++ npri_id ++ ".html") = true ->
  ImprovedContactExtractor.after4 npri_id page_source !! k = Some v ->
  exists m,
    fst (ImprovedContactExtractor.extract_contact_with_progress
           npri_id (Some page_source) w) = Some m /\
    m !! k = Some v /\ ImprovedContactExtractor.success (Some m) = true.
Proof.
  intros Hw H. exists (ImprovedContactExtractor.after4 npri_id page_source).
  unfold ImprovedContactExtractor.extract_contact_with_progress, write_file.
  rewrite Hw. cbn [fst]. rewrite (finish_improved_key _ _ _ H).
  repeat split. exact H.
Qed.

(** C1, as the claim states it, fails: on a page that shows only the
    number of employees the field map holds the key [employees] alone,
    which the rule of the specification classifies as Partial, and the
    attempt is recorded as a success. *)
Lemma only_employees_recorded_success :
  map_to_list (ImprovedContactExtractor.after4 "42" employees_only_page)
    = [("employees", "5")] /\
  spec_classify "contact_name"
    (ImprovedContactExtractor.after4 "42" employees_only_page) = Partial /\
  recorded_outcome
    (ImprovedContactExtractor.success
       (fst (ImprovedContactExtractor.extract_contact_with_progress
               "42" (Some employees_only_page) empty_world))) = Success.
Proof. repeat split; vm_compute; reflexivity. Qed.

(** C1, amended: the outcome is two-way.  In both extractors the recorded
    outcome is the three-way classification of the final field map with
    Partial counted as Success: any field at all gives a success (the
    field map is returned), no field gives a failure ([None]).  A map
    holding [employees] alone is a success. *)
Theorem classification_is_two_way :
  (forall d : Driver,
     recorded_outcome
       (ExtractContactInfo.success
          (ExtractContactInfo.scrape_contact_info_selenium (Loaded d)))
     = two_way (spec_classify "name" (ExtractContactInfo.collect d))) /\
  (forall (npri_id page_source : string) (w : world),
     writable w ("debug_page_" ++ npri_id ++ ".html") = true ->
     recorded_outcome
       (ImprovedContactExtractor.success
          (fst (ImprovedContactExtractor.extract_contact_with_progress
                  npri_id (Some page_source) w)))
     = two_way (spec_classify "contact_name"
                  (ImprovedContactExtractor.after4 npri_id page_source))) /\
  (forall m : gmap string string,
     (ExtractContactInfo.finish m = None <-> m = ∅) /\
     (ImprovedContactExtractor.finish m = None <-> m = ∅) /\
     (m <> ∅ -> ExtractContactInfo.finish m = Some m /\
                ImprovedContactExtractor.finish m = Some m)) /\
  (forall v : string,
     spec_classify "contact_name" {["employees" := v]} = Partial /\
     recorded_outcome
       (ImprovedContactExtractor.success
          (ImprovedContactExtractor.finish {["employees" := v]})) = Success).
Proof.
  split; [|split; [|split]].
  - intros d. unfold ExtractContactInfo.scrape_contact_info_selenium.
    rewrite two_way_spec_classify. unfold ExtractContactInfo.finish.
    now destruct (decide (ExtractContactInfo.collect d = ∅)).
  - intros npri_id page_source w Hw.
    unfold ImprovedContactExtractor.extract_contact_with_progress, write_file.
    rewrite Hw. cbn [fst]. rewrite two_way_spec_classify.
    unfold ImprovedContactExtractor.finish.
    now destruct (decide (ImprovedContactExtractor.after4 npri_id page_source = ∅)).
  - intros m.
    destruct (finish_scrape m) as [[E1 F1]|[E1 F1]];
      destruct (finish_improved m) as [[E2 F2]|[E2 F2]];
      rewrite F1, F2; repeat split; try easy.
  - intros v.
    assert (({["employees" := v]} : gmap string string) <> ∅) as N
      by apply insert_non_empty.
    split.
    + unfold spec_classify, has_key.
      rewrite !lookup_singleton_ne by discriminate. simpl.
      now destruct (decide _).
    + destruct (finish_improved {["employees" := v]}) as [[E _]|[_ ->]];
        [contradiction|easy].
Qed.

(** C10: the success flag is true exactly when the returned field map has
    at least one key, in both extractors, and a key bound to the empty
    string still gives a success: with markup after the label "Phone:"
    and a blank, the phone pattern captures the blank alone, which
    [strip] empties. *)
Theorem success_iff_some_key :
  (forall s : session,
     ExtractContactInfo.success
       (ExtractContactInfo.scrape_contact_info_selenium s) = true <->
     exists m k v,
       ExtractContactInfo.scrape_contact_info_selenium s = Some m /\
       m !! k = Some v) /\
  (forall (npri_id : string) (captured : option string) (w : world),
     ImprovedContactExtractor.success
       (fst (ImprovedContactExtractor.extract_contact_with_progress
               npri_id captured w)) = true <->
     exists m k v,
       fst (ImprovedContactExtractor.extract_contact_with_progress
              npri_id captured w) = Some m /\
       m !! k = Some v) /\
  (exists m,
     ExtractContactInfo.scrape_contact_info_selenium
       (Loaded (plain_browser tagged_other_phone_page)) = Some m /\
     m !! "phone" = Some "" /\
     ExtractContactInfo.success (Some m) = true) /\
  (exists m,
     fst (ImprovedContactExtractor.extract_contact_with_progress
            "42" (Some tagged_other_phone_page) empty_world) = Some m /\
     m !! "phone" = Some "" /\
     ImprovedContactExtractor.success (Some m) = true).
Proof.
  split; [|split; [|split]].
  - intros s. split.
    + destruct s as [| |d]; simpl; try discriminate.
      destruct (finish_scrape (ExtractContactInfo.collect d))
        as [[_ ->]|[N ->]]; [discriminate|].
      intros _. apply nonempty_has_key in N as (k & v & H). eauto.
    + now intros (m & k & v & -> & _).
  - intros npri_id captured w. split.
    + destruct captured as [page_source|]; simpl; [|discriminate].
      destruct (write_file _ _ _); simpl; [|discriminate].
      destruct (finish_improved
                  (ImprovedContactExtractor.after4 npri_id page_source))
        as [[_ ->]|[N ->]]; [discriminate|].
      intros _. apply nonempty_has_key in N as (k & v & H). eauto.
    + now intros (m & k & v & -> & _).
  - apply scrape_returns_key. vm_compute. reflexivity.
  - apply improved_returns_key; vm_compute; reflexivity.
Qed.

(** Without a blank between the label and the tag the phone pattern does
    not match at all and no phone key is stored. *)
Example no_blank_no_phone_key :
  ImprovedContactExtractor.after4 "42" tight_tagged_phone_page !! "phone"
    = None.
Proof. vm_compute. reflexivity. Qed.

End Classification.

(** ** Precedence between the strategies (C2) *)

Module Precedence.
Import Text Re Patterns Selenium Files Shapes Scenarios MapFacts.

(** A step that only inserts under keys that are still free keeps every
    binding. *)
Lemma generic_step_keeps (page_source : string) (ci : gmap string string)
    (kp : string * re) (k v : string) :
  ci !! k = Some v ->
  ImprovedContactExtractor.generic_step page_source ci kp !! k = Some v.
Proof.
  intros H. unfold ImprovedContactExtractor.generic_step.
  destruct (ci !! kp.1) eqn:E; [easy|].
  destruct (search _ _ _); [|easy].
  rewrite lookup_insert_ne; [easy|]. intros <-. congruence.
Qed.

Lemma method2_keeps (page_source : string) (ci : gmap string string)
    (k v : string) :
  ci !! k = Some v ->
  ImprovedContactExtractor.method2 page_source ci !! k = Some v.
Proof.
  unfold ImprovedContactExtractor.method2.
  apply (fold_left_preserves (fun m => m !! k = Some v)).
  intros a b _. apply generic_step_keeps.
Qed.

Lemma method3_keeps (page_source : string) (ci : gmap string string)
    (k v : string) :
  ci !! k = Some v ->
  ImprovedContactExtractor.method3 page_source ci !! k = Some v.
Proof.
  intros H. unfold ImprovedContactExtractor.method3.
  destruct (ci !! "contact_name") eqn:E; [easy|].
  destruct (ImprovedContactExtractor.first_name _ _); [|easy].
  rewrite lookup_insert_ne; [easy|]. intros <-. congruence.
Qed.

Lemma method4_keeps (page_source : string) (ci : gmap string string)
    (k v : string) :
  ci !! k = Some v ->
  ImprovedContactExtractor.method4 page_source ci !! k = Some v.
Proof.
  intros H. unfold ImprovedContactExtractor.method4.
  destruct (ci !! "position") eqn:E; [easy|].
  destruct (ImprovedContactExtractor.first_position _ _); [|easy].
  rewrite lookup_insert_ne; [easy|]. intros <-. congruence.
Qed.

Lemma method1_keys (all_text : string) (k v : string) :
  ExtractContactInfo.method1 all_text ∅ !! k = Some v -> In k ExtractContactInfo.labeled_keys.
Proof.
  unfold ExtractContactInfo.method1.
  revert k v.
  apply (fold_left_preserves
           (fun m : gmap string string =>
              forall k v, m !! k = Some v -> In k ExtractContactInfo.labeled_keys)).
  - intros a [key pattern] Hin IH k v.
    unfold ExtractContactInfo.labeled_step. simpl.
    destruct (search _ _ _); [|apply IH].
    destruct (decide (key = k)) as [<-|N].
    + intros _. now apply (in_map fst) in Hin.
    + rewrite lookup_insert_ne by easy. apply IH.
  - intros k v H. now rewrite lookup_empty in H.
Qed.

Lemma scrape_method2_keeps (d : Driver) (ci : gmap string string)
    (k v : string) :
  k <> "business_number" -> k <> "employees" ->
  ci !! k = Some v -> ExtractContactInfo.method2 d ci !! k = Some v.
Proof.
  intros N1 N2 H. unfold ExtractContactInfo.method2.
  destruct (find_elements d _) as [els|]; [|easy].
  assert ((match els with
           | [] => ci
           | e :: _ => <["business_number" := strip (text e)]> ci
           end) !! k = Some v) as H1.
  { destruct els; [easy|]. now rewrite lookup_insert_ne. }
  destruct (find_elements d _) as [[|e es]|]; try easy.
  destruct (ExtractContactInfo.employees_value e); [|easy].
  now rewrite lookup_insert_ne.
Qed.

Lemma literal_step_keeps (d : Driver) (key literal : string)
    (ci ci' : gmap string string) (k v : string) :
  k <> key -> ci !! k = Some v ->
  ExtractContactInfo.literal_step d key literal ci = Some ci' ->
  ci' !! k = Some v.
Proof.
  intros N H. unfold ExtractContactInfo.literal_step.
  destruct (find_elements d _) as [[|e es]|]; intros [= <-]; [easy|].
  now rewrite lookup_insert_ne.
Qed.

Lemma scrape_method3_keeps (d : Driver) (ci : gmap string string)
    (k v : string) :
  k <> "name" -> k <> "phone" -> k <> "email" ->
  ci !! k = Some v -> ExtractContactInfo.method3 d ci !! k = Some v.
Proof.
  intros N1 N2 N3 H. unfold ExtractContactInfo.method3.
  destruct (ExtractContactInfo.literal_step d "name" _ ci) as [ci1|] eqn:E1;
    [|easy].
  pose proof (literal_step_keeps _ _ _ _ _ _ _ N1 H E1) as H1.
  destruct (ExtractContactInfo.literal_step d "phone" _ ci1) as [ci2|] eqn:E2;
    [|easy].
  pose proof (literal_step_keeps _ _ _ _ _ _ _ N2 H1 E2) as H2.
  destruct (ExtractContactInfo.literal_step d "email" _ ci2) as [ci3|] eqn:E3;
    [|easy].
  exact (literal_step_keeps _ _ _ _ _ _ _ N3 H2 E3).
Qed.

(** When the browser finds the hardcoded phone number, Method 3 stores it
    whatever was stored before. *)
Lemma method3_overwrites_phone (d : Driver) (ci : gmap string string)
    (names : list WebElement) (e : WebElement) (es : list WebElement) :
  find_elements d (ExtractContactInfo.xpath_text "Colin Hennel") = Some names ->
  find_elements d (ExtractContactInfo.xpath_text "587-315-1181")
    = Some (e :: es) ->
  ExtractContactInfo.method3 d ci !! "phone" = Some "587-315-1181".
Proof.
  intros Hn Hp. unfold ExtractContactInfo.method3.
  unfold ExtractContactInfo.literal_step at 1. rewrite Hn.
  assert (forall ci1 : gmap string string,
            match ExtractContactInfo.literal_step d "phone" "587-315-1181" ci1 with
            | Some ci2 =>
                match ExtractContactInfo.literal_step d "email"
                        "chennel@pinecliffenergy.com" ci2 with
                | Some ci3 => ci3
                | None => ci2
                end
            | None => ci1
            end !! "phone" = Some "587-315-1181") as K.
  { intros ci1. unfold ExtractContactInfo.literal_step at 1. rewrite Hp.
    destruct (ExtractContactInfo.literal_step d "email" _ _) as [ci3|] eqn:E.
    - eapply literal_step_keeps; [| |exact E]; [discriminate|].
      apply lookup_insert_eq.
    - apply lookup_insert_eq. }
  destruct names; apply K.
Qed.

(** C2, as the claim states it, fails in [scrape_contact_info_selenium]:
    the labeled-field strategy finds the phone number 403-555-0199 after
    the label, and the hardcoded strategy, which runs last, replaces it
    with 587-315-1181 because that text occurs elsewhere in the page. *)
Lemma hardcoded_phone_overwrites_labeled :
  ExtractContactInfo.method1 two_phones_page ∅ !! "phone"
    = Some "403-555-0199" /\
  exists m,
    ExtractContactInfo.scrape_contact_info_selenium
      (Loaded two_phones_browser) = Some m /\
    m !! "phone" = Some "587-315-1181".
Proof.
  split; [vm_compute; reflexivity|].
  destruct (Classification.scrape_returns_key two_phones_browser
              "phone" "587-315-1181") as (m & E & H & _).
  - vm_compute. reflexivity.
  - exists m. split; assumption.
Qed.

(** When the browser finds the hardcoded name, Method 3 stores it whatever
    was stored before; the two later queries leave it there, also when
    one of them raises. *)
Lemma method3_overwrites_name (d : Driver) (ci : gmap string string)
    (e : WebElement) (es : list WebElement) :
  find_elements d (ExtractContactInfo.xpath_text "Colin Hennel")
    = Some (e :: es) ->
  ExtractContactInfo.method3 d ci !! "name" = Some "Colin Hennel".
Proof.
  intros Hn. unfold ExtractContactInfo.method3.
  unfold ExtractContactInfo.literal_step at 1. rewrite Hn.
  set (ci1 := <["name" := "Colin Hennel"]> ci).
  assert (ci1 !! "name" = Some "Colin Hennel") as H1
    by apply lookup_insert_eq.
  destruct (ExtractContactInfo.literal_step d "phone" _ ci1) as [ci2|] eqn:E2;
    [|exact H1].
  assert (ci2 !! "name" = Some "Colin Hennel") as H2
    by (eapply literal_step_keeps; [|exact H1|exact E2]; discriminate).
  destruct (ExtractContactInfo.literal_step d "email" _ ci2) as [ci3|] eqn:E3;
    [|exact H2].
  eapply literal_step_keeps; [|exact H2|exact E3]. discriminate.
Qed.

(** When the browser finds the hardcoded e-mail address, Method 3 stores
    it whatever was stored before. *)
Lemma method3_overwrites_email (d : Driver) (ci : gmap string string)
    (names phones : list WebElement) (e : WebElement) (es : list WebElement) :
  find_elements d (ExtractContactInfo.xpath_text "Colin Hennel") = Some names ->
  find_elements d (ExtractContactInfo.xpath_text "587-315-1181")
    = Some phones ->
  find_elements d (ExtractContactInfo.xpath_text "chennel@pinecliffenergy.com")
    = Some (e :: es) ->
  ExtractContactInfo.method3 d ci !! "email"
  = Some "chennel@pinecliffenergy.com".
Proof.
  intros Hn Hp He. unfold ExtractContactInfo.method3.
  unfold ExtractContactInfo.literal_step. rewrite Hn, Hp, He.
  destruct names, phones; apply lookup_insert_eq.
Qed.

(** A query of Method 3 that raises ends the method: the literals of the
    queries after it are not stored. *)
Lemma method3_stops_at_exception (d : Driver) (ci : gmap string string) :
  find_elements d (ExtractContactInfo.xpath_text "Colin Hennel") = None ->
  ExtractContactInfo.method3 d ci = ci.
Proof.
  intros Hn. unfold ExtractContactInfo.method3.
  unfold ExtractContactInfo.literal_step at 1. now rewrite Hn.
Qed.

(** C2, amended.  In [extract_contact_with_progress] a key bound by an
    earlier method keeps its value to the end: Methods 2, 3 and 4 store
    only under keys that are still free.  In
    [scrape_contact_info_selenium] a value stored by the labeled-field
    strategy is kept for every key but [name], [phone] and [email]; for
    each of these three the hardcoded strategy, which runs last, stores
    its literal whenever the browser finds that text in the page and no
    query of the strategy before it has raised, whatever was stored
    before. *)
Theorem earlier_value_kept :
  (forall (npri_id page_source k v : string),
     ImprovedContactExtractor.after1 npri_id page_source !! k = Some v \/
     ImprovedContactExtractor.after2 npri_id page_source !! k = Some v \/
     ImprovedContactExtractor.after3 npri_id page_source !! k = Some v ->
     ImprovedContactExtractor.after4 npri_id page_source !! k = Some v) /\
  (forall (d : Driver) (all_text k v : string),
     page_source d = Some all_text ->
     ExtractContactInfo.method1 all_text ∅ !! k = Some v ->
     k <> "name" -> k <> "phone" -> k <> "email" ->
     ExtractContactInfo.collect d !! k = Some v) /\
  (forall (d : Driver) (all_text : string)
          (e : WebElement) (es : list WebElement),
     page_source d = Some all_text ->
     find_elements d (ExtractContactInfo.xpath_text "Colin Hennel")
       = Some (e :: es) ->
     ExtractContactInfo.collect d !! "name" = Some "Colin Hennel") /\
  (forall (d : Driver) (all_text : string) (names : list WebElement)
          (e : WebElement) (es : list WebElement),
     page_source d = Some all_text ->
     find_elements d (ExtractContactInfo.xpath_text "Colin Hennel")
       = Some names ->
     find_elements d (ExtractContactInfo.xpath_text "587-315-1181")
       = Some (e :: es) ->
     ExtractContactInfo.collect d !! "phone" = Some "587-315-1181") /\
  (forall (d : Driver) (all_text : string) (names phones : list WebElement)
          (e : WebElement) (es : list WebElement),
     page_source d = Some all_text ->
     find_elements d (ExtractContactInfo.xpath_text "Colin Hennel")
       = Some names ->
     find_elements d (ExtractContactInfo.xpath_text "587-315-1181")
       = Some phones ->
     find_elements d
       (ExtractContactInfo.xpath_text "chennel@pinecliffenergy.com")
       = Some (e :: es) ->
     ExtractContactInfo.collect d !! "email"
     = Some "chennel@pinecliffenergy.com").
Proof.
  split; [|split; [|split; [|split]]].
  - intros npri_id page_source k v.
    unfold ImprovedContactExtractor.after4, ImprovedContactExtractor.after3,
      ImprovedContactExtractor.after2.
    intros [H|[H|H]].
    + now apply method4_keeps, method3_keeps, method2_keeps.
    + now apply method4_keeps, method3_keeps.
    + now apply method4_keeps.
  - intros d all_text k v Hs H N1 N2 N3.
    unfold ExtractContactInfo.collect. rewrite Hs.
    pose proof (method1_keys _ _ _ H) as Hk.
    apply scrape_method3_keeps; try easy.
    apply scrape_method2_keeps; try easy.
    + intros ->. vm_compute in Hk. intuition discriminate.
    + intros ->. vm_compute in Hk. intuition discriminate.
  - intros d all_text e es Hs Hn.
    unfold ExtractContactInfo.collect. rewrite Hs.
    now apply (method3_overwrites_name d _ e es).
  - intros d all_text names e es Hs Hn Hp.
    unfold ExtractContactInfo.collect. rewrite Hs.
    now apply (method3_overwrites_phone d _ names e es).
  - intros d all_text names phones e es Hs Hn Hp He.
    unfold ExtractContactInfo.collect. rewrite Hs.
    now apply (method3_overwrites_email d _ names phones e es).
Qed.

End Precedence.

(** ** Shapes of the stored values (C5) *)

Module Validation.
Import Text Re Patterns Selenium Files Shapes Scenarios MapFacts TextFacts
  ReFacts.

Lemma forallb_impl (P Q : ascii -> bool) (l : list ascii) :
  (forall c, P c = true -> Q c = true) ->
  forallb P l = true -> forallb Q l = true.
Proof.
  intros H. rewrite !forallb_forall. intros Hl c Hc. now apply H, Hl.
Qed.

(** Facts about single characters, checked on all 256 of them. *)
Lemma phone_class (c : ascii) :
  cls_test true false phone_chars c = true -> set_test phone_chars c = true.
Proof.
  apply (ascii_implies (cls_test true false phone_chars)
           (set_test phone_chars)).
  vm_compute. reflexivity.
Qed.

Lemma digit_class (c : ascii) :
  cls_test true false digit09 c = true -> is_digit c = true.
Proof.
  apply (ascii_implies (cls_test true false digit09) is_digit).
  vm_compute. reflexivity.
Qed.

Lemma email_local_class (c : ascii) :
  cls_test true false email_local c = true -> set_test email_local c = true.
Proof.
  apply (ascii_implies (cls_test true false email_local)
           (set_test email_local)).
  vm_compute. reflexivity.
Qed.

Lemma email_domain_class (c : ascii) :
  cls_test true false email_domain c = true ->
  set_test email_domain c = true.
Proof.
  apply (ascii_implies (cls_test true false email_domain)
           (set_test email_domain)).
  vm_compute. reflexivity.
Qed.

Lemma tld_class (c : ascii) :
  cls_test true false [CRng "a" "z"; CRng "A" "Z"] c = true ->
  is_alpha c = true.
Proof.
  apply (ascii_implies (cls_test true false [CRng "a" "z"; CRng "A" "Z"])
           is_alpha).
  vm_compute. reflexivity.
Qed.

Lemma email_local_no_space (c : ascii) :
  set_test email_local c = true -> negb (is_space c) = true.
Proof.
  apply (ascii_implies (set_test email_local) (fun c => negb (is_space c))).
  vm_compute. reflexivity.
Qed.

Lemma email_domain_no_space (c : ascii) :
  set_test email_domain c = true -> negb (is_space c) = true.
Proof.
  apply (ascii_implies (set_test email_domain) (fun c => negb (is_space c))).
  vm_compute. reflexivity.
Qed.

Lemma alpha_no_space (c : ascii) :
  is_alpha c = true -> negb (is_space c) = true.
Proof.
  apply (ascii_implies is_alpha (fun c => negb (is_space c))).
  vm_compute. reflexivity.
Qed.

Lemma digit_no_space (c : ascii) :
  is_digit c = true -> negb (is_space c) = true.
Proof.
  apply (ascii_implies is_digit (fun c => negb (is_space c))).
  vm_compute. reflexivity.
Qed.

Lemma at_sign_only (c : ascii) :
  chr_eq true "@" c = true -> ascii_eqb "@" c = true.
Proof.
  apply (ascii_implies (chr_eq true "@") (ascii_eqb "@")).
  vm_compute. reflexivity.
Qed.

Lemma dot_only (c : ascii) :
  chr_eq true "." c = true -> ascii_eqb "." c = true.
Proof.
  apply (ascii_implies (chr_eq true ".") (ascii_eqb ".")).
  vm_compute. reflexivity.
Qed.

(** A literal of one character matches that character only. *)
Lemma lang_at (w : list ascii) : lang true (Lit "@") w -> w = ["@"%char].
Proof.
  intros [L S]. destruct w as [|c [|? ?]]; try discriminate.
  simpl in S. rewrite andb_true_r in S.
  apply at_sign_only, Ascii.eqb_eq in S. now subst.
Qed.

Lemma lang_dot (w : list ascii) : lang true (Lit ".") w -> w = ["."%char].
Proof.
  intros [L S]. destruct w as [|c [|? ?]]; try discriminate.
  simpl in S. rewrite andb_true_r in S.
  apply dot_only, Ascii.eqb_eq in S. now subst.
Qed.

(** The text of the e-mail group has the e-mail shape. *)
Lemma email_group_shape (w : list ascii) :
  lang true email_shape w -> email_ok (str w).
Proof.
  unfold email_shape. simpl.
  intros (w1 & r1 & -> & (F1 & L1 & _) & w2 & r2 & -> & A &
          w3 & r3 & -> & (F3 & L3 & _) & w4 & w5 & -> & D & (F5 & L5 & _)).
  apply lang_at in A as ->. apply lang_dot in D as ->.
  exists w1, w3, w5. rewrite chars_str. simpl.
  repeat split.
  - intros ->. simpl in L1. lia.
  - exact (forallb_impl _ _ _ email_local_class F1).
  - intros ->. simpl in L3. lia.
  - exact (forallb_impl _ _ _ email_domain_class F3).
  - exact L5.
  - exact (forallb_impl _ _ _ tld_class F5).
Qed.

Lemma email_no_space (v : string) :
  email_ok v -> forallb (fun c => negb (is_space c)) (chars v) = true.
Proof.
  intros (w1 & w3 & w5 & -> & _ & F1 & _ & F3 & _ & F5).
  rewrite forallb_app. simpl. rewrite forallb_app. simpl.
  rewrite (forallb_impl _ _ _ email_local_no_space F1).
  rewrite (forallb_impl _ _ _ email_domain_no_space F3).
  now rewrite (forallb_impl _ _ _ alpha_no_space F5).
Qed.

Lemma email_strip (w : list ascii) :
  lang true email_shape w -> email_ok (strip (str w)).
Proof.
  intros H. apply email_group_shape in H.
  unfold strip. rewrite strip_l_id, str_chars; [easy|].
  now apply email_no_space.
Qed.

Lemma phone_strip (w : list ascii) :
  lang true (plus false phone_chars) w ->
  phone_shape (strip (str w)) = true /\ strip (strip (str w)) = strip (str w).
Proof.
  intros (F & _). split; [|apply strip_idem].
  unfold phone_shape, strip. rewrite !chars_str.
  apply forallb_strip_l. exact (forallb_impl _ _ _ phone_class F).
Qed.

Lemma business_number_strip (w : list ascii) :
  lang true (exactly 9 digit09) w ->
  business_number_shape (strip (str w)) = true.
Proof.
  intros (F & L1 & L2).
  pose proof (forallb_impl _ _ _ digit_class F) as D.
  unfold business_number_shape, strip, len. rewrite !chars_str.
  rewrite strip_l_id by exact (forallb_impl _ _ _ digit_no_space D).
  rewrite D, andb_true_r. apply Nat.eqb_eq. lia.
Qed.


(** The hardcoded literals have the shapes of their fields. *)
Lemma literal_phone_shape : labeled_shape "phone" "587-315-1181".
Proof. unfold labeled_shape. simpl String.eqb. split; vm_compute; reflexivity. Qed.

Lemma literal_email_shape : labeled_shape "email" "chennel@pinecliffenergy.com".
Proof.
  unfold labeled_shape. simpl String.eqb.
  exists (chars "chennel"), (chars "pinecliffenergy"), (chars "com").
  repeat split; try (vm_compute; reflexivity); try discriminate.
  vm_compute. lia.
Qed.

Lemma literal_business_number_shape :
  business_number_shape "863108833" = true.
Proof. vm_compute. reflexivity. Qed.

Lemma shaped_empty shape : shaped shape ∅.
Proof. intros k v H. now rewrite lookup_empty in H. Qed.

Lemma shaped_insert shape (m : gmap string string) (key val : string) :
  shaped shape m -> shape key val -> shaped shape (<[key := val]> m).
Proof.
  intros Hm Hv k v. destruct (decide (key = k)) as [<-|N].
  - rewrite lookup_insert_eq. now intros [= <-].
  - rewrite lookup_insert_ne by easy. apply Hm.
Qed.

(** The value a labeled-field pattern stores has the shape of its key. *)
Lemma phone_pattern_shape (page : string) (m : rmatch) :
  search true phone_pattern page = Some m ->
  labeled_shape "phone" (strip (group m)).
Proof.
  intros H. apply search_group in H as (w & _ & -> & G); [|reflexivity].
  simpl in G. destruct G as [[]|[[]|G]].
  unfold labeled_shape. simpl String.eqb. now apply phone_strip.
Qed.

Lemma email_pattern_shape (page : string) (m : rmatch) :
  search true email_pattern page = Some m ->
  labeled_shape "email" (strip (group m)).
Proof.
  intros H. apply search_group in H as (w & _ & -> & G); [|reflexivity].
  change (grp_lang true email_pattern w)
    with (False \/ False \/ lang true email_shape w) in G.
  destruct G as [[]|[[]|G]].
  unfold labeled_shape. simpl String.eqb. now apply email_strip.
Qed.

Lemma business_number_pattern_shape (page : string) (m : rmatch) :
  search true generic_business_number page = Some m ->
  business_number_shape (strip (group m)) = true.
Proof.
  intros H. apply search_group in H as (w & _ & -> & G); [|reflexivity].
  change (grp_lang true generic_business_number w)
    with (False \/ False \/ lang true (exactly 9 digit09) w) in G.
  destruct G as [[]|[[]|G]].
  now apply business_number_strip.
Qed.

Lemma labeled_step_shaped (all_text : string) (ci : gmap string string)
    (kp : string * re) :
  In kp contact_patterns -> shaped labeled_shape ci ->
  shaped labeled_shape (ExtractContactInfo.labeled_step all_text ci kp).
Proof.
  intros Hin Hci. unfold ExtractContactInfo.labeled_step.
  destruct (search true kp.2 all_text) as [m|] eqn:E; [|easy].
  apply shaped_insert; [easy|].
  simpl in Hin.
  destruct Hin as [<-|[<-|[<-|[<-|[<-|[]]]]]]; try exact I.
  - now apply phone_pattern_shape with (page := all_text).
  - now apply email_pattern_shape with (page := all_text).
Qed.

Lemma scrape_collect_shaped (d : Driver) :
  shaped labeled_shape (ExtractContactInfo.collect d).
Proof.
  unfold ExtractContactInfo.collect.
  destruct (page_source d) as [all_text|]; [|apply shaped_empty].
  assert (shaped labeled_shape (ExtractContactInfo.method1 all_text ∅)) as H1.
  { unfold ExtractContactInfo.method1.
    apply (fold_left_preserves (shaped labeled_shape));
      [|apply shaped_empty].
    intros a b Hb. now apply labeled_step_shaped. }
  assert (shaped labeled_shape
            (ExtractContactInfo.method2 d
               (ExtractContactInfo.method1 all_text ∅))) as H2.
  { unfold ExtractContactInfo.method2.
    destruct (find_elements d _) as [els|]; [|easy].
    set (ci := match els with [] => _ | _ :: _ => _ end).
    assert (shaped labeled_shape ci) as Hci.
    { unfold ci. destruct els; [easy|]. apply shaped_insert; [easy|exact I]. }
    destruct (find_elements d _) as [[|e es]|]; try easy.
    destruct (ExtractContactInfo.employees_value e); [|easy].
    apply shaped_insert; [easy|exact I]. }
  revert H2. generalize (ExtractContactInfo.method2 d
                           (ExtractContactInfo.method1 all_text ∅)).
  intros ci Hci. unfold ExtractContactInfo.method3.
  assert (forall key literal (c : gmap string string),
            labeled_shape key literal -> shaped labeled_shape c ->
            match ExtractContactInfo.literal_step d key literal c with
            | Some c' => shaped labeled_shape c'
            | None => True
            end) as K.
  { intros key literal c Hl Hc. unfold ExtractContactInfo.literal_step.
    destruct (find_elements d _) as [[|e es]|]; try easy.
    now apply shaped_insert. }
  pose proof (K "name" "Colin Hennel" ci I Hci) as K1.
  destruct (ExtractContactInfo.literal_step d "name" _ ci) as [ci1|]; [|easy].
  pose proof (K "phone" "587-315-1181" ci1 literal_phone_shape K1) as K2.
  destruct (ExtractContactInfo.literal_step d "phone" _ ci1) as [ci2|]; [|easy].
  pose proof (K "email" "chennel@pinecliffenergy.com" ci2
                literal_email_shape K2) as K3.
  now destruct (ExtractContactInfo.literal_step d "email" _ ci2).
Qed.

Lemma known_step_shaped (page_source : string) (ci : gmap string string)
    (kp : string * re) :
  shaped improved_shape ci ->
  shaped improved_shape
    (ImprovedContactExtractor.known_step page_source ci kp).
Proof.
  intros Hci. unfold ImprovedContactExtractor.known_step.
  destruct (search true kp.2 page_source) as [m|]; [|easy].
  repeat match goal with
  | |- context [String.eqb kp.1 ?c] =>
      destruct (String.eqb_spec kp.1 c) as [->|_];
        [apply shaped_insert; [easy|]|]
  end; try easy;
  split;
    first [ exact I
          | exact literal_phone_shape
          | exact literal_email_shape
          | exact literal_business_number_shape ].
Qed.

Lemma generic_step_shaped (page_source : string) (ci : gmap string string)
    (kp : string * re) :
  In kp generic_patterns -> shaped improved_shape ci ->
  shaped improved_shape
    (ImprovedContactExtractor.generic_step page_source ci kp).
Proof.
  intros Hin Hci. unfold ImprovedContactExtractor.generic_step.
  destruct (ci !! kp.1); [easy|].
  destruct (search true kp.2 page_source) as [m|] eqn:E; [|easy].
  apply shaped_insert; [easy|].
  simpl in Hin.
  destruct Hin as [<-|[<-|[<-|[<-|[<-|[]]]]]].
  - split; [exact I|]. simpl String.eqb.
    now apply business_number_pattern_shape with (page := page_source).
  - split; exact I.
  - split; [|exact I]. now apply phone_pattern_shape with (page := page_source).
  - split; [|exact I]. now apply email_pattern_shape with (page := page_source).
  - split; exact I.
Qed.

Lemma improved_after4_shaped (npri_id page_source : string) :
  shaped improved_shape
    (ImprovedContactExtractor.after4 npri_id page_source).
Proof.
  assert (shaped improved_shape
            (ImprovedContactExtractor.after1 npri_id page_source)) as H1.
  { unfold ImprovedContactExtractor.after1, ImprovedContactExtractor.method1.
    destruct (String.eqb npri_id "1368"); [|apply shaped_empty].
    apply (fold_left_preserves (shaped improved_shape));
      [|apply shaped_empty].
    intros a b _. apply known_step_shaped. }
  assert (shaped improved_shape
            (ImprovedContactExtractor.after2 npri_id page_source)) as H2.
  { unfold ImprovedContactExtractor.after2, ImprovedContactExtractor.method2.
    apply (fold_left_preserves (shaped improved_shape)); [|exact H1].
    intros a b Hb. now apply generic_step_shaped. }
  assert (shaped improved_shape
            (ImprovedContactExtractor.after3 npri_id page_source)) as H3.
  { unfold ImprovedContactExtractor.after3, ImprovedContactExtractor.method3.
    destruct (_ !! "contact_name"); [easy|].
    destruct (ImprovedContactExtractor.first_name _ _); [|easy].
    apply shaped_insert; [easy|]. split; exact I. }
  unfold ImprovedContactExtractor.after4, ImprovedContactExtractor.method4.
  destruct (_ !! "position"); [easy|].
  destruct (ImprovedContactExtractor.first_position _ _); [|easy].
  apply shaped_insert; [easy|]. split; exact I.
Qed.

(** In [scrape_contact_info_selenium] the business number is the text of
    the first element the browser finds for 863108833. *)
Lemma scrape_business_number_is_cell_text (d : Driver) (all_text : string)
    (e : WebElement) (es : list WebElement) :
  page_source d = Some all_text ->
  find_elements d ExtractContactInfo.xpath_business_number = Some (e :: es) ->
  ExtractContactInfo.collect d !! "business_number" = Some (strip (text e)).
Proof.
  intros Hs Hb. unfold ExtractContactInfo.collect. rewrite Hs.
  apply Precedence.scrape_method3_keeps; try discriminate.
  unfold ExtractContactInfo.method2. rewrite Hb.
  destruct (find_elements d ExtractContactInfo.xpath_employees)
    as [[|e' es']|]; try apply lookup_insert_eq.
  destruct (ExtractContactInfo.employees_value e').
  - rewrite lookup_insert_ne by discriminate. apply lookup_insert_eq.
  - apply lookup_insert_eq.
Qed.

(** C5, as the claim states it, fails: a phone number written with blanks
    is stored with its blanks, and in [scrape_contact_info_selenium] the
    business number is the text of the cell that holds it, label
    included. *)
Lemma stored_phone_keeps_blanks :
  ImprovedContactExtractor.after4 "42" spaced_phone_page !! "phone"
    = Some "587 315 1181" /\
  strict_phone_shape "587 315 1181" = false /\
  ExtractContactInfo.collect labelled_cell_browser !! "business_number"
    = Some "Business number: 863108833" /\
  numeric "Business number: 863108833" = false.
Proof. repeat split; vm_compute; reflexivity. Qed.

(** C5, amended.  The values stored under [phone], [email] and
    [business_number] have the shape their pattern gives them; nothing
    validates or drops a value afterwards.  In both extractors a phone
    value consists of digits, hyphens, parentheses and white space and
    has no white space at either end (blanks inside remain), and an
    e-mail value has the shape local@domain.tld.  In
    [extract_contact_with_progress] a business number is nine digits; in
    [scrape_contact_info_selenium] it is the stripped text of the first
    cell the browser finds for 863108833, whatever that text is. *)
Theorem stored_values_have_pattern_shape :
  (forall (npri_id page_source v : string),
     ImprovedContactExtractor.after4 npri_id page_source !! "phone" = Some v ->
     phone_shape v = true /\ strip v = v) /\
  (forall (npri_id page_source v : string),
     ImprovedContactExtractor.after4 npri_id page_source !! "email" = Some v ->
     email_ok v) /\
  (forall (npri_id page_source v : string),
     ImprovedContactExtractor.after4 npri_id page_source
       !! "business_number" = Some v ->
     business_number_shape v = true) /\
  (forall (d : Driver) (v : string),
     ExtractContactInfo.collect d !! "phone" = Some v ->
     phone_shape v = true /\ strip v = v) /\
  (forall (d : Driver) (v : string),
     ExtractContactInfo.collect d !! "email" = Some v -> email_ok v) /\
  (forall (d : Driver) (all_text : string) (e : WebElement)
          (es : list WebElement),
     page_source d = Some all_text ->
     find_elements d ExtractContactInfo.xpath_business_number
       = Some (e :: es) ->
     ExtractContactInfo.collect d !! "business_number"
       = Some (strip (text e))).
Proof.
  split; [|split; [|split; [|split; [|split]]]].
  - intros npri_id page_source v H.
    exact (proj1 (improved_after4_shaped npri_id page_source _ _ H)).
  - intros npri_id page_source v H.
    exact (proj1 (improved_after4_shaped npri_id page_source _ _ H)).
  - intros npri_id page_source v H.
    exact (proj2 (improved_after4_shaped npri_id page_source _ _ H)).
  - intros d v H. exact (scrape_collect_shaped d _ _ H).
  - intros d v H. exact (scrape_collect_shaped d _ _ H).
  - exact scrape_business_number_is_cell_text.
Qed.

End Validation.

(** ** A phone number next to markup (C8) *)

Module Normalization.
Import Text Re Patterns Selenium Files Shapes Scenarios MapFacts TextFacts
  ReFacts.

Lemma chars_app (a b : string) : chars (a ++ b) = chars a ++ chars b.
Proof. induction a as [|c a IH]; simpl; [easy|]. now rewrite <- IH. Qed.

Lemma starts_with_app_long eq (p x y : list ascii) :
  length p <= length x ->
  starts_with eq p (x ++ y) = starts_with eq p x.
Proof.
  revert x. induction p as [|a p IH]; intros [|b x] L; simpl in *;
    try easy; try lia.
  rewrite IH; [easy|lia].
Qed.

Lemma starts_with_lower (p x : list ascii) :
  starts_with (chr_eq true) p x
  = starts_with ascii_eqb (lower_l p) (lower_l x).
Proof.
  revert x. induction p as [|a p IH]; intros [|b x]; simpl; try easy.
  now rewrite IH.
Qed.

Lemma contains_l_suffix (sub a b : list ascii) :
  contains_l sub (a ++ b) = false -> starts_with ascii_eqb sub b = false.
Proof.
  induction a as [|c a IH]; simpl.
  - destruct b; simpl; intros H; now apply orb_false_iff in H as [H _].
  - intros H. apply orb_false_iff in H as [_ H]. now apply IH.
Qed.

(** A pattern that begins with a literal fails where the literal is not. *)
Lemma match_at_literal_fails (s : string) (r : re) prev (l : list ascii) :
  starts_with (chr_eq true) (chars s) l = false ->
  match_at true (Seq (Lit s) r) prev l = None.
Proof. intros H. unfold match_at. simpl. now rewrite H. Qed.

Lemma search_l_here (ic : bool) (r : re) prev (l : list ascii) (m : rmatch) :
  match_at ic r prev l = Some m -> search_l ic r prev l = Some m.
Proof. intros H. destruct l; simpl; now rewrite H. Qed.

(** [re.search] passes over a prefix in which the literal does not start. *)
Lemma search_l_skip (s : string) (r : re) (m : rmatch)
    (pre rest : list ascii) :
  (forall a b, pre = a ++ b -> b <> [] ->
     starts_with (chr_eq true) (chars s) (b ++ rest) = false) ->
  (forall prev, match_at true (Seq (Lit s) r) prev rest = Some m) ->
  forall prev, search_l true (Seq (Lit s) r) prev (pre ++ rest) = Some m.
Proof.
  intros Hpre Hm. induction pre as [|c pre IH]; intros prev.
  - simpl. now apply search_l_here.
  - cbn [app search_l].
    rewrite match_at_literal_fails by (apply (Hpre [] (c :: pre)); easy).
    apply IH. intros a b -> Hb. now apply (Hpre (c :: a) b).
Qed.

Lemma phone_after_prefix (pre post : string) :
  no_earlier_label pre ->
  exists m,
    search true phone_pattern (pre ++ "Phone: 587-315-1181<" ++ post) = Some m
    /\ strip (group m) = "587-315-1181".
Proof.
  intros H.
  exists (RMatch (chars "Phone: 587-315-1181") (Some (chars "587-315-1181"))).
  split; [|vm_compute; reflexivity].
  unfold search. rewrite !chars_app.
  apply (search_l_skip "Phone:").
  - intros a b E Hb.
    change (chars "Phone: 587-315-1181<" ++ chars post)
      with (chars "Phone" ++ chars ": 587-315-1181<" ++ chars post).
    rewrite app_assoc, starts_with_app_long.
    + rewrite starts_with_lower.
      unfold no_earlier_label, contains, lower in H.
      rewrite chars_str, chars_app, E in H.
      unfold lower_l in *. rewrite <- app_assoc, map_app in H.
      apply contains_l_suffix in H. exact H.
    + rewrite length_app. destruct b; [easy|]. simpl. lia.
  - intros prev. reflexivity.
Qed.


Lemma labeled_step_other (all_text : string) (ci : gmap string string)
    (kp : string * re) (k : string) :
  kp.1 <> k -> ExtractContactInfo.labeled_step all_text ci kp !! k = ci !! k.
Proof.
  intros N. unfold ExtractContactInfo.labeled_step.
  destruct (search _ _ _); [|easy]. now rewrite lookup_insert_ne.
Qed.

Lemma clean_contact_info_other (m : gmap string string) (k : string) :
  k <> "position" -> CleanContactData.clean_contact_info m !! k = m !! k.
Proof.
  intros N. unfold CleanContactData.clean_contact_info.
  destruct (m !! "position"); [|easy]. now rewrite lookup_insert_ne.
Qed.

(** C8, as the claim states it, fails: with the tag around the number,
    after the label, the phone pattern captures the blank before the tag
    and [strip] leaves the empty string; the cleaning step removes tags
    from the position only and leaves the phone as it is. *)
Lemma tag_around_number_gives_empty_phone :
  ExtractContactInfo.method1 tagged_phone_page ∅ !! "phone" = Some "" /\
  ImprovedContactExtractor.after4 "42" tagged_phone_page !! "phone"
    = Some "" /\
  CleanContactData.clean_contact_info
    (ImprovedContactExtractor.after4 "42" tagged_phone_page) !! "phone"
    = Some "".
Proof. repeat split; vm_compute; reflexivity. Qed.

(** C8, amended.  When the markup follows the number (the tag encloses
    the labelled field, as in <td>Phone: 587-315-1181</td>) and no
    "phone:" stands earlier in the page, the labeled-field strategy
    stores exactly 587-315-1181: the class of the phone pattern stops at
    the tag.  No tag is stripped from a phone value: [clean_contact_data]
    rewrites the position only, from which it removes the tags and the
    repeated white space. *)
Theorem phone_before_markup_is_exact (pre post : string) :
  no_earlier_label pre ->
  ExtractContactInfo.method1 (pre ++ "Phone: 587-315-1181<" ++ post) ∅
    !! "phone" = Some "587-315-1181" /\
  (forall ci : gmap string string,
     ci !! "phone" = None ->
     ImprovedContactExtractor.generic_step
       (pre ++ "Phone: 587-315-1181<" ++ post) ci ("phone", phone_pattern)
       !! "phone" = Some "587-315-1181") /\
  (forall (m : gmap string string) (k : string),
     k <> "position" -> CleanContactData.clean_contact_info m !! k = m !! k) /\
  CleanContactData.clean_position "<b>Manager</b>,   HSE" = "Manager, HSE".
Proof.
  intros H. destruct (phone_after_prefix pre post H) as (m & Hm & Hg).
  split; [|split; [|split]].
  - unfold ExtractContactInfo.method1, contact_patterns. cbn [fold_left].
    rewrite !labeled_step_other by discriminate.
    unfold ExtractContactInfo.labeled_step at 1. cbn [fst snd].
    rewrite Hm, Hg. apply lookup_insert_eq.
  - intros ci Hci. unfold ImprovedContactExtractor.generic_step.
    cbn [fst snd]. rewrite Hci, Hm, Hg. apply lookup_insert_eq.
  - apply clean_contact_info_other.
  - vm_compute. reflexivity.
Qed.

(** C8, witness: the cell <td>Phone: 587-315-1181</td>. *)
Lemma phone_before_markup_witness :
  no_earlier_label "<td>" /\
  ExtractContactInfo.method1 ("<td>" ++ "Phone: 587-315-1181<" ++ "/td>") ∅
    !! "phone" = Some "587-315-1181".
Proof.
  assert (no_earlier_label "<td>") as H by (vm_compute; reflexivity).
  split; [exact H|].
  exact (proj1 (phone_before_markup_is_exact "<td>" "/td>" H)).
Defined.

End Normalization.

(** ** Running the cascade twice (C9) *)

Module Determinism.
Import Text Re Patterns Files Stateful Scenarios.

Lemma write_file_twice (name content : string) (w w' : world) :
  write_file name content w = Some w' ->
  write_file name content w' = Some w'.
Proof.
  unfold write_file. destruct (writable w name) eqn:E; [|easy].
  intros [= <-]. simpl. rewrite E. now rewrite insert_insert_eq.
Qed.

Lemma bind_some {A B : Type} (m : M A) (f : A -> M B) (p p' : process)
    (x : A) :
  m p = (Some x, p') -> (m ≫= f) p = f x p'.
Proof. intros H. unfold mbind, M_bind. now rewrite H. Qed.

(** A loop whose body updates the bound dict by [step] updates it by the
    fold of [step]. *)
Lemma for_each_fold {A : Type} (step : gmap string string -> A -> gmap string string)
    (body : A -> M unit) (l : list A) (d : gmap string string) (w : world) :
  (forall x d', body x (bound d' w) = (Some tt, bound (step d' x) w)) ->
  for_each l body (bound d w) = (Some tt, bound (fold_left step l d) w).
Proof.
  intros H. revert d. induction l as [|x l IH]; intros d; [reflexivity|].
  cbn [for_each fold_left]. rewrite (bind_some _ _ _ _ _ (H x d)). apply IH.
Qed.

Lemma has_key_bound (key : string) (d : gmap string string) (w : world) :
  has_key key (bound d w)
  = (Some (match d !! key with Some _ => true | None => false end),
     bound d w).
Proof.
  unfold has_key, bound. cbn [contact_info]. now destruct (d !! key).
Qed.

Lemma known_stmt_step (page_source : string) (kp : string * re)
    (d : gmap string string) (w : world) :
  known_stmt page_source kp (bound d w)
  = (Some tt, bound (ImprovedContactExtractor.known_step page_source d kp) w).
Proof.
  unfold known_stmt, ImprovedContactExtractor.known_step.
  destruct (search true kp.2 page_source); [|reflexivity].
  repeat (destruct (String.eqb kp.1 _); [reflexivity|]).
  reflexivity.
Qed.

Lemma generic_stmt_step (page_source : string) (kp : string * re)
    (d : gmap string string) (w : world) :
  generic_stmt page_source kp (bound d w)
  = (Some tt, bound (ImprovedContactExtractor.generic_step page_source d kp) w).
Proof.
  unfold generic_stmt, ImprovedContactExtractor.generic_step.
  rewrite (bind_some _ _ _ _ _ (has_key_bound _ d w)).
  destruct (d !! kp.1); [reflexivity|].
  now destruct (search true kp.2 page_source).
Qed.

Lemma name_stmt_step (page_source : string) (d : gmap string string)
    (w : world) :
  name_stmt page_source (bound d w)
  = (Some tt, bound (ImprovedContactExtractor.method3 page_source d) w).
Proof.
  unfold name_stmt, ImprovedContactExtractor.method3.
  rewrite (bind_some _ _ _ _ _ (has_key_bound _ d w)).
  destruct (d !! "contact_name"); [reflexivity|].
  now destruct (ImprovedContactExtractor.first_name _ _).
Qed.

Lemma position_stmt_step (page_source : string) (d : gmap string string)
    (w : world) :
  position_stmt page_source (bound d w)
  = (Some tt, bound (ImprovedContactExtractor.method4 page_source d) w).
Proof.
  unfold position_stmt, ImprovedContactExtractor.method4.
  rewrite (bind_some _ _ _ _ _ (has_key_bound _ d w)).
  destruct (d !! "position"); [reflexivity|].
  now destruct (ImprovedContactExtractor.first_position _ _).
Qed.

(** The statements after [contact_info = {}] take the bound dict through
    the four methods. *)
Lemma methods_from (npri_id page_source : string) (d : gmap string string)
    (w : world) :
  methods npri_id page_source (bound d w)
  = (Some tt,
     bound (ImprovedContactExtractor.method4 page_source
              (ImprovedContactExtractor.method3 page_source
                 (ImprovedContactExtractor.method2 page_source
                    (ImprovedContactExtractor.method1 npri_id page_source d))))
           w).
Proof.
  unfold methods.
  assert ((if String.eqb npri_id "1368"
           then for_each known_patterns (known_stmt page_source)
           else mret tt) (bound d w)
          = (Some tt,
             bound (ImprovedContactExtractor.method1 npri_id page_source d) w))
    as H1.
  { unfold ImprovedContactExtractor.method1.
    destruct (String.eqb npri_id "1368"); [|reflexivity].
    apply for_each_fold. intros x d'. apply known_stmt_step. }
  rewrite (bind_some _ _ _ _ _ H1).
  rewrite (bind_some _ _ _ _ _
             (for_each_fold _ _ generic_patterns _ w
                (fun x d' => generic_stmt_step page_source x d' w))).
  fold (ImprovedContactExtractor.method2 page_source
          (ImprovedContactExtractor.method1 npri_id page_source d)).
  rewrite (bind_some _ _ _ _ _ (name_stmt_step page_source _ w)).
  apply position_stmt_step.
Qed.

(** What a run does, from any state: it fails where the debug file cannot
    be written, and otherwise returns the dict of the four methods
    started on the empty dict, whatever dict was bound before. *)
Lemma run_from_any_state (npri_id page_source : string) (p : process) :
  extract_contact_with_progress npri_id page_source p
  = match write_file ("debug_page_" ++ npri_id ++ ".html") page_source
            (disk p) with
    | Some w' =>
        (ImprovedContactExtractor.finish
           (ImprovedContactExtractor.after4 npri_id page_source),
         bound (ImprovedContactExtractor.after4 npri_id page_source) w')
    | None => (None, p)
    end.
Proof.
  unfold extract_contact_with_progress, cascade.
  unfold mbind at 1, M_bind at 1. unfold write at 1.
  destruct (write_file _ page_source (disk p)) as [w'|]; [|reflexivity].
  unfold mbind at 1, M_bind at 1. unfold new_dict at 1. cbn [disk].
  fold (bound ∅ w').
  rewrite (bind_some _ _ _ _ _ (methods_from npri_id page_source ∅ w')).
  reflexivity.
Qed.

Lemma enhanced_stmt_step (page_source : string) (kp : string * re)
    (d : gmap string string) (w : world) :
  enhanced_stmt page_source kp (bound d w)
  = (Some tt,
     bound (EnhancedContactExtractor.enhanced_step page_source d kp) w).
Proof.
  unfold enhanced_stmt, EnhancedContactExtractor.enhanced_step.
  now destruct (findall true kp.2 page_source).
Qed.

Lemma enhanced_from_any_state (npri_id page_source : string) (p : process) :
  extract_contact_info_enhanced npri_id page_source p
  = match write_file ("page_source_" ++ npri_id ++ ".html") page_source
            (disk p) with
    | Some w' =>
        (Some (EnhancedContactExtractor.collect page_source),
         bound (EnhancedContactExtractor.collect page_source) w')
    | None => (None, p)
    end.
Proof.
  unfold extract_contact_info_enhanced.
  unfold mbind at 1, M_bind at 1. unfold write at 1.
  destruct (write_file _ page_source (disk p)) as [w'|]; [|reflexivity].
  unfold mbind at 1, M_bind at 1. unfold new_dict at 1. cbn [disk].
  fold (bound ∅ w').
  rewrite (bind_some _ _ _ _ _
             (for_each_fold _ _ enhanced_patterns _ w'
                (fun x d' => enhanced_stmt_step page_source x d' w'))).
  reflexivity.
Qed.

(** The methods do read the dict they find: started on a dict that
    already holds a phone number they keep that number, whatever the
    page shows.  What makes two runs agree is the statement
    [contact_info = {}] before them. *)
Lemma methods_read_the_bound_dict :
  exists fresh stale : gmap string string,
    methods "42" spaced_phone_page (bound ∅ empty_world)
    = (Some tt, bound fresh empty_world) /\
    fresh !! "phone" = Some "587 315 1181" /\
    methods "42" spaced_phone_page
      (bound (<["phone" := "000"]> ∅) empty_world)
    = (Some tt, bound stale empty_world) /\
    stale !! "phone" = Some "000".
Proof.
  eexists _, _. rewrite !methods_from.
  split; [reflexivity|]. split; [vm_compute; reflexivity|].
  split; [reflexivity|]. vm_compute. reflexivity.
Qed.

(** C9.  The cascade is run as the statements of the function body on the
    state of the interpreter, which holds whatever could outlive a run:
    the dict last bound to [contact_info] and the files.  On the same
    page source and identifier
    - a second run, started in the state the first run left (its dict
      still bound, its debug file on the disk), returns what the first
      returned and leaves the state as it is;
    - two runs started in any two states return the same outcome,
      whatever dicts are bound and whatever the files hold, provided the
      debug file can be written in both or in neither.
    Both hold for [extract_contact_with_progress] and for
    [extract_contact_info_enhanced]: each binds a new empty dict before
    its first method and reads no file. *)
Theorem second_run_same_outcome :
  (forall (npri_id page_source : string) (p : process),
     let first := extract_contact_with_progress npri_id page_source p in
     extract_contact_with_progress npri_id page_source (snd first) = first) /\
  (forall (npri_id page_source : string) (p1 p2 : process),
     writable (disk p1) ("debug_page_" ++ npri_id ++ ".html")
       = writable (disk p2) ("debug_page_" ++ npri_id ++ ".html") ->
     fst (extract_contact_with_progress npri_id page_source p1)
     = fst (extract_contact_with_progress npri_id page_source p2)) /\
  (forall (npri_id page_source : string) (p : process),
     let first := extract_contact_info_enhanced npri_id page_source p in
     extract_contact_info_enhanced npri_id page_source (snd first) = first) /\
  (forall (npri_id page_source : string) (p1 p2 : process),
     writable (disk p1) ("page_source_" ++ npri_id ++ ".html")
       = writable (disk p2) ("page_source_" ++ npri_id ++ ".html") ->
     fst (extract_contact_info_enhanced npri_id page_source p1)
     = fst (extract_contact_info_enhanced npri_id page_source p2)).
Proof.
  split; [|split; [|split]].
  - intros npri_id page_source p. cbv zeta.
    rewrite (run_from_any_state npri_id page_source p).
    destruct (write_file _ page_source (disk p)) as [w'|] eqn:E; cbn [snd].
    + rewrite run_from_any_state. cbn [disk bound].
      now rewrite (write_file_twice _ _ _ _ E).
    + rewrite run_from_any_state. now rewrite E.
  - intros npri_id page_source p1 p2 E.
    rewrite !run_from_any_state. unfold write_file. rewrite E.
    now destruct (writable (disk p2) _).
  - intros npri_id page_source p. cbv zeta.
    rewrite (enhanced_from_any_state npri_id page_source p).
    destruct (write_file _ page_source (disk p)) as [w'|] eqn:E; cbn [snd].
    + rewrite enhanced_from_any_state. cbn [disk bound].
      now rewrite (write_file_twice _ _ _ _ E).
    + rewrite enhanced_from_any_state. now rewrite E.
  - intros npri_id page_source p1 p2 E.
    rewrite !enhanced_from_any_state. unfold write_file. rewrite E.
    now destruct (writable (disk p2) _).
Qed.

End Determinism.

(** ** The identifier resolver (C3, C6) *)

Module Resolver.
Import Text Re Patterns Soup Url MainPy Shapes Scenarios TextFacts ReFacts.

Lemma append_empty (s : string) : (s ++ "")%string = s.
Proof.
  induction s as [|c s IH]; [easy|].
  change (String c (s ++ "")%string = String c s). now rewrite IH.
Qed.

(** The header cell reads as its stripped text. *)
Lemma header_cell_text (header : string) :
  strip header <> "" -> get_text_strip (header_cell header) = strip header.
Proof.
  intros N. apply String.eqb_neq in N.
  unfold get_text_strip, header_cell, strings.
  cbn -[strip String.eqb].
  destruct (decide (negb (strip header =? "")%string = true)) as [_|D].
  - cbn [foldr]. apply append_empty.
  - rewrite N in D. now contradiction D.
Qed.

Lemma npri_header_not_empty (header : string) :
  is_npri_id_header header = true -> header <> "".
Proof. intros H ->. discriminate. Qed.

(** The header row holds no link, so a match of the company name in it
    leads nowhere. *)
Lemma header_row_next (keywords : list string) (header : string) :
  company_row keywords 1 (header_row header) = Next.
Proof.
  unfold company_row. destruct (row_has_company _ _); reflexivity.
Qed.

(** C6, as the claim states it, fails: with the header "Registry ID" the
    table is not taken for the identifier table (the code looks for
    "NPRI", not "registry"), no known identifier is in the text, and the
    resolver returns None. *)
Lemma registry_header_not_recognised :
  download_npri_csv_with_selenium (create_url_for_company "Acme")
    (Some (listing "Registry ID")) = None /\
  resolve (create_url_for_company "Acme") (Some (listing "Registry ID"))
    = TextScanned "CompanyRegistry IDAcme4821".
Proof. split; vm_compute; reflexivity. Qed.

(** C6, amended: the header must hold the tokens "NPRI" and "ID".  For
    every header cell whose stripped text contains "NPRI" and "ID",
    in any case and in either order, the resolver returns "4821" for the
    query "Acme" on the listing of the claim. *)
Theorem npri_header_resolves_acme (header : string) :
  contains "NPRI" (upper (strip header)) = true ->
  contains "ID" (upper (strip header)) = true ->
  download_npri_csv_with_selenium (create_url_for_company "Acme")
    (Some (listing header)) = Some "4821".
Proof.
  intros H1 H2.
  assert (is_npri_id_header (strip header) = true) as HN
    by (unfold is_npri_id_header; now rewrite H1, H2).
  pose proof (header_cell_text header (npri_header_not_empty _ HN)) as HT.
  unfold download_npri_csv_with_selenium, resolve.
  change (find_all ["table"] (listing header)) with [listing_table header].
  unfold table_phase. cbn [first_flow].
  assert (examine_table (create_url_for_company "Acme") (listing_table header)
          = Return "4821") as ->; [|reflexivity].
  unfold examine_table.
  change (find ["tr"] (listing_table header)) with (Some (header_row header)).
  cbv iota beta.
  change (find_all ["th"; "td"] (header_row header))
    with [NTag "th" [] [NText "Company"]; header_cell header].
  cbn [map]. rewrite HT.
  change (get_text_strip (NTag "th" [] [NText "Company"])) with "Company".
  unfold npri_id_index. cbn [index_of].
  change (is_npri_id_header "Company") with false. cbv iota. rewrite HN.
  change (find_all ["tr"] (listing_table header))
    with [header_row header; acme_row].
  change (company_name_from_url (create_url_for_company "Acme"))
    with (Some "Acme").
  cbv iota beta. cbn [first_flow]. rewrite header_row_next.
  reflexivity.
Qed.

(** C6, witness: the header " id (npri) ", lower case and in the other
    order. *)
Lemma npri_header_resolves_acme_witness :
  contains "NPRI" (upper (strip " id (npri) ")) = true /\
  contains "ID" (upper (strip " id (npri) ")) = true /\
  download_npri_csv_with_selenium (create_url_for_company "Acme")
    (Some (listing " id (npri) ")) = Some "4821".
Proof.
  assert (contains "NPRI" (upper (strip " id (npri) ")) = true) as H1
    by (vm_compute; reflexivity).
  assert (contains "ID" (upper (strip " id (npri) ")) = true) as H2
    by (vm_compute; reflexivity).
  exact (conj H1 (conj H2 (npri_header_resolves_acme " id (npri) " H1 H2))).
Defined.






Section Candidates.

Variable list_of_set : gset string -> list string.
(** [list(s)] lists every element of the set once, in some order. *)
Hypothesis list_of_set_elements :
  forall (X : gset string) (x : string), In x (list_of_set X) <-> x ∈ X.
Hypothesis list_of_set_once :
  forall X : gset string, NoDup (list_of_set X).


End Candidates.




(** The candidates of the example page. *)
Example candidates_of_example_page :
  numbers (get_text candidates_page) = ["4821"; "20455"].
Proof. vm_compute. reflexivity. Qed.

End Resolver.

(** ** Exceptions reaching the caller (C4) *)

Module Propagation.
Import Text Selenium Files Soup MainPy Scenarios.

(** The name the body calls first is not bound in [main.py]. *)
Lemma scrape_npri_data_unbound (f : page_fetchers) :
  existsb (String.eqb "scrape_npri_data") bound_names = false /\
  assoc "scrape_npri_data" (main_globals f) = None /\
  forall name, In name (map fst (main_globals f)) -> In name bound_names.
Proof.
  repeat split. intros name [<-|[]]. vm_compute. tauto.
Qed.

(** C4 fails in [process_single_company]: the body calls
    [scrape_npri_data], a name that [main.py] never binds (the static
    scraper is defined under the name [download_npri_csv_with_selenium]),
    so every call raises NameError before any page is fetched, and nothing
    in [process_single_company] or [main] catches it. *)
Theorem process_single_company_raises (f : page_fetchers)
    (company_name : string) :
  process_single_company (main_globals f) company_name
    = inl (NameError "scrape_npri_data").
Proof. reflexivity. Qed.

(** With the name bound to the static scraper the function returns a
    tuple for every company. *)
Lemma process_single_company_with_name_bound (f : page_fetchers)
    (company_name : string) :
  exists result,
    process_single_company
      (("scrape_npri_data",
        fun url => download_npri_csv_with_selenium url (static_page f url))
       :: main_globals f) company_name = inr result.
Proof.
  set (static := fun url =>
                   download_npri_csv_with_selenium url (static_page f url)).
  set (globals := ("scrape_npri_data", static) :: main_globals f).
  assert (forall url, call_global globals "scrape_npri_data" url
                      = inr (static url)) as E1 by reflexivity.
  assert (forall url, call_global globals "scrape_with_selenium" url
                      = inr (selenium_page f url)) as E2 by reflexivity.
  unfold process_single_company. rewrite E1, E2.
  destruct (truthy (static _)); [eauto|].
  destruct (truthy (selenium_page f _)); [eauto|].
  destruct (assoc company_name get_known_npri_data) as [[id|]|]; eauto.
  destruct (truthy (Some id)); eauto.
Qed.

(** The contact extractors catch what the browser raises and return
    None. *)
Lemma scrape_failures_give_none :
  ExtractContactInfo.scrape_contact_info_selenium ImportFails = None /\
  ExtractContactInfo.scrape_contact_info_selenium DriverFails = None /\
  (forall d, page_source d = None ->
     ExtractContactInfo.scrape_contact_info_selenium (Loaded d) = None) /\
  (forall npri_id w,
     ImprovedContactExtractor.extract_contact_with_progress npri_id None w
     = (None, w)).
Proof.
  repeat split. intros d H.
  unfold ExtractContactInfo.scrape_contact_info_selenium,
    ExtractContactInfo.collect.
  now rewrite H.
Qed.

End Propagation.

(** ** Waiting before extraction (C7) *)

Module Waiting.
Import Waiter.

Section Clock.

Variable sleep : nat -> nat -> nat.
Variable wait_until : nat -> (nat -> bool) -> nat -> nat * bool.
Variable content_at : nat -> bool.

(** [time.sleep(d)] returns no earlier than [d] seconds later. *)
Hypothesis sleep_ge : forall d now, now + d <= sleep d now.
(** [until] returns normally at an instant, not before the call, at which
    the condition holds; it raises TimeoutException no earlier than
    [timeout] seconds after the call. *)
Hypothesis until_found :
  forall timeout cond now t,
    wait_until timeout cond now = (t, true) -> now <= t /\ cond t = true.
Hypothesis until_timeout :
  forall timeout cond now t,
    wait_until timeout cond now = (t, false) -> now + timeout <= t.

Lemma progress_loop_spec (n now : nat) :
  (snd (progress_loop sleep content_at n now) = true ->
   content_at (fst (progress_loop sleep content_at n now)) = true /\
   now + 5 <= fst (progress_loop sleep content_at n now)) /\
  (snd (progress_loop sleep content_at n now) = false ->
   now + 5 * n <= fst (progress_loop sleep content_at n now)).
Proof.
  revert now. induction n as [|n IH]; intros now; simpl.
  - split; [discriminate|lia].
  - pose proof (sleep_ge 5 now) as S.
    destruct (content_at (sleep 5 now)) eqn:E; simpl.
    + split; [intros _; split; [exact E|lia]|discriminate].
    + destruct (IH (sleep 5 now)) as [A B]. split.
      * intros H. destruct (A H) as [A1 A2]. split; [exact A1|lia].
      * intros H. specialize (B H). lia.
Qed.

(** C7, amended.  Neither waiter raises on timeout, and both hand on a
    content-detected outcome (which only selects the message printed).
    In [scrape_contact_info_selenium] a settle delay of 15 seconds
    follows either outcome: extraction begins at least 15 seconds after
    the instant at which content was detected, hence after the instant it
    appeared, and on timeout at least 10 + timeout + 15 seconds after the
    page was requested.  In [extract_contact_with_progress] there is no
    settle delay: the page is polled every 5 seconds, at most six times,
    and extraction begins at the poll that finds the content, or after
    the sixth poll, at least 30 seconds after the page was requested.
    ([extract_contact_info_enhanced] waits like the first, with a settle
    delay of 10 seconds.) *)
Theorem settle_delay_after_wait (timeout : nat) :
  (25 <= fst (scrape_wait sleep wait_until content_at timeout) /\
   (snd (scrape_wait sleep wait_until content_at timeout) = false ->
    10 + timeout + 15
      <= fst (scrape_wait sleep wait_until content_at timeout)) /\
   (snd (scrape_wait sleep wait_until content_at timeout) = true ->
    exists detected_at,
      content_at detected_at = true /\
      detected_at + 15
        <= fst (scrape_wait sleep wait_until content_at timeout)) /\
   (forall t0, appears_at t0 content_at ->
      snd (scrape_wait sleep wait_until content_at timeout) = true ->
      t0 + 15 <= fst (scrape_wait sleep wait_until content_at timeout))) /\
  (5 <= fst (improved_wait sleep content_at) /\
   (snd (improved_wait sleep content_at) = true ->
    content_at (fst (improved_wait sleep content_at)) = true) /\
   (snd (improved_wait sleep content_at) = false ->
    30 <= fst (improved_wait sleep content_at))) /\
  (30 <= fst (enhanced_wait sleep wait_until content_at) /\
   (snd (enhanced_wait sleep wait_until content_at) = true ->
    exists detected_at,
      content_at detected_at = true /\
      detected_at + 10 <= fst (enhanced_wait sleep wait_until content_at))).
Proof.
  split; [|split].
  - unfold scrape_wait.
    pose proof (sleep_ge 10 0) as S1.
    destruct (wait_until timeout content_at (sleep 10 0)) as [t2 [|]] eqn:E;
      cbn [fst snd];
      pose proof (sleep_ge 15 t2) as S2.
    + destruct (until_found _ _ _ _ E) as [L C].
      split; [lia|]. split; [discriminate|]. split.
      * intros _. exists t2. split; [exact C|lia].
      * intros t0 A _. apply A in C. lia.
    + pose proof (until_timeout _ _ _ _ E) as L.
      split; [lia|]. split; [intros _; lia|]. split; discriminate.
  - unfold improved_wait.
    destruct (progress_loop_spec 6 0) as [A B].
    split; [|split].
    + destruct (snd (progress_loop sleep content_at 6 0)) eqn:E.
      * destruct (A eq_refl). lia.
      * specialize (B eq_refl). lia.
    + intros H. now destruct (A H).
    + intros H. specialize (B H). lia.
  - unfold enhanced_wait.
    pose proof (sleep_ge 20 0) as S1.
    destruct (wait_until 30 content_at (sleep 20 0)) as [t2 [|]] eqn:E;
      cbn [fst snd];
      pose proof (sleep_ge 10 t2) as S2.
    + destruct (until_found _ _ _ _ E) as [L C].
      split; [lia|]. intros _. exists t2. split; [exact C|lia].
    + pose proof (until_timeout _ _ _ _ E) as L.
      split; [lia|discriminate].
Qed.

End Clock.

Lemma exact_sleep_ge (d now : nat) : now + d <= exact_sleep d now.
Proof. unfold exact_sleep. lia. Qed.

Lemma single_check_found (timeout : nat) (cond : nat -> bool) (now t : nat) :
  single_check timeout cond now = (t, true) -> now <= t /\ cond t = true.
Proof.
  unfold single_check. destruct (cond now) eqn:E; intros [= <-].
  split; [lia|exact E].
Qed.

Lemma single_check_timeout (timeout : nat) (cond : nat -> bool) (now t : nat) :
  single_check timeout cond now = (t, false) -> now + timeout <= t.
Proof.
  unfold single_check. destruct (cond now); intros [= <-]. lia.
Qed.

(** C7, witness: a clock without overrun, a wait that tests once, and
    content that appears 20 seconds after the request. *)
Lemma settle_delay_after_wait_witness :
  (forall d now, now + d <= exact_sleep d now) /\
  (forall timeout cond now t,
     single_check timeout cond now = (t, true) -> now <= t /\ cond t = true) /\
  (forall timeout cond now t,
     single_check timeout cond now = (t, false) -> now + timeout <= t) /\
  25 <= fst (scrape_wait exact_sleep single_check
               (fun t => (20 <=? t)%nat) 45) /\
  5 <= fst (improved_wait exact_sleep (fun t => (20 <=? t)%nat)).
Proof.
  pose proof (settle_delay_after_wait exact_sleep single_check
                (fun t => (20 <=? t)%nat) exact_sleep_ge single_check_found
                single_check_timeout 45) as [[A _] [[B _] _]].
  exact (conj exact_sleep_ge
           (conj single_check_found (conj single_check_timeout (conj A B)))).
Defined.

(** C7, as the claim states it, fails in [extract_contact_with_progress]:
    with content that appears 5 seconds after the request, inside the
    budget of 30 seconds, extraction begins at that very instant; no
    settle delay passes between the signal and the extraction. *)
Lemma improved_extracts_at_detection :
  appears_at 5 (fun t => (5 <=? t)%nat) /\
  improved_wait exact_sleep (fun t => (5 <=? t)%nat) = (5, true) /\
  fst (improved_wait exact_sleep (fun t => (5 <=? t)%nat)) < 5 + 1.
Proof.
  split; [|split; [reflexivity|]].
  - intros t. apply Nat.leb_le.
  - cbn. lia.
Qed.

End Waiting.
(** * Further properties *)

(** ** The company name through the search URL *)

Module UrlFacts.
Import Text Url MainPy TextFacts UrlShape.

(** An escape written by [quote] is read back by [unquote]. *)
Lemma escape_round_trip (c : ascii) :
  match hex_value (hex_digit (code c / 16)),
        hex_value (hex_digit (code c mod 16)) with
  | Some a, Some b => ascii_eqb (ascii_of_nat (16 * a + b)) c
  | _, _ => false
  end = true.
Proof.
  apply (ascii_forall
           (fun c => match hex_value (hex_digit (code c / 16)),
                           hex_value (hex_digit (code c mod 16)) with
                     | Some a, Some b =>
                         ascii_eqb (ascii_of_nat (16 * a + b)) c
                     | _, _ => false
                     end)).
  vm_compute. reflexivity.
Qed.

Lemma safe_not_percent (c : ascii) :
  is_safe c = true -> negb (ascii_eqb c "%") = true.
Proof.
  apply (ascii_implies is_safe (fun c => negb (ascii_eqb c "%"))).
  vm_compute. reflexivity.
Qed.

Lemma unquote_aux_plain (c : ascii) (t : list ascii) :
  ascii_eqb c "%" = false ->
  unquote_aux 0 (c :: t) = c :: unquote_aux 0 t.
Proof.
  intros H.
  destruct c as [[] [] [] [] [] [] [] []]; try reflexivity.
  discriminate H.
Qed.

Lemma unquote_aux_quote_char (c : ascii) (rest : list ascii) :
  unquote_aux 0 (quote_char c ++ rest) = c :: unquote_aux 0 rest.
Proof.
  unfold quote_char. destruct (is_safe c) eqn:S.
  - apply unquote_aux_plain. apply safe_not_percent in S.
    now apply negb_true_iff in S.
  - pose proof (escape_round_trip c) as E.
    cbn [app unquote_aux].
    destruct (hex_value (hex_digit (code c / 16))) as [a|]; [|discriminate].
    destruct (hex_value (hex_digit (code c mod 16))) as [b|]; [|discriminate].
    apply Ascii.eqb_eq in E. now rewrite E.
Qed.

(** [unquote(quote(s)) == s] *)
Lemma unquote_quote (s : string) : unquote (quote s) = s.
Proof.
  unfold unquote, quote. rewrite chars_str.
  rewrite <- (str_chars s) at 2. f_equal.
  induction (chars s) as [|c l IH]; [reflexivity|].
  cbn [flat_map]. now rewrite unquote_aux_quote_char, IH.
Qed.

(** What [quote] writes holds neither "=" nor "&". *)
Lemma quote_char_plain (c : ascii) :
  forallb plain_char (quote_char c) = true.
Proof.
  apply (ascii_forall (fun c => forallb plain_char (quote_char c))).
  vm_compute. reflexivity.
Qed.

Lemma quote_plain (l : list ascii) :
  forallb plain_char (flat_map quote_char l) = true.
Proof.
  induction l as [|c l IH]; [reflexivity|].
  cbn [flat_map]. now rewrite forallb_app, quote_char_plain, IH.
Qed.


(** A text in which the separator starts nowhere is one piece. *)
Lemma split_on_aux_none (sep cur l : list ascii) :
  (forall a b, l = a ++ b -> starts_with ascii_eqb sep b = false) ->
  split_on_aux sep 0 cur l = [rev cur ++ l].
Proof.
  revert cur. induction l as [|c t IH]; intros cur H.
  - simpl. now rewrite app_nil_r.
  - cbn [split_on_aux]. rewrite (H [] (c :: t) eq_refl).
    rewrite IH.
    + simpl. now rewrite <- app_assoc.
    + intros a b ->. now apply (H (c :: a) b).
Qed.

(** The first piece of a text cut at "&". *)
Lemma split_on_aux_amp (q rest cur : list ascii) :
  forallb plain_char q = true ->
  split_on_aux (chars "&") 0 cur (q ++ "&"%char :: rest)
  = (rev cur ++ q) :: split_on_aux (chars "&") 0 [] rest.
Proof.
  revert cur. induction q as [|c q IH]; intros cur H.
  - cbn. now rewrite app_nil_r.
  - cbn [forallb] in H. apply andb_true_iff in H as [Hc Hq].
    unfold plain_char in Hc. apply andb_true_iff in Hc as [_ Hc].
    apply negb_true_iff in Hc.
    cbn [app split_on_aux chars list_ascii_of_string starts_with].
    rewrite Hc. cbn [andb]. rewrite (IH _ Hq).
    simpl. now rewrite <- app_assoc.
Qed.

Lemma starts_with_name_key (b : list ascii) :
  starts_with ascii_eqb (chars "name=") b = true ->
  nth_error b 4 = Some "="%char.
Proof.
  change (chars "name=") with ["n"; "a"; "m"; "e"; "="]%char.
  destruct b as [|c1 [|c2 [|c3 [|c4 [|c5 b]]]]]; cbn [starts_with];
    intros H; repeat (apply andb_true_iff in H as [? H]);
    try discriminate.
  cbn [nth_error]. f_equal. symmetry. now apply Ascii.eqb_eq.
Qed.

Lemma no_name_key_after (q a b : list ascii) :
  forallb plain_char q = true ->
  q ++ chars url_tail = a ++ b ->
  starts_with ascii_eqb (chars "name=") b = false.
Proof.
  intros Hq E. symmetry in E.
  apply app_eq_app in E as [l [[E1 E2]|[E1 E2]]].
  - apply (Normalization.contains_l_suffix _ l b).
    rewrite <- E2. vm_compute. reflexivity.
  - subst b. assert (forallb plain_char l = true) as Hl.
    { rewrite E1, forallb_app in Hq. now apply andb_true_iff in Hq. }
    clear E1 Hq.
    destruct (starts_with _ _ _) eqn:S; [|reflexivity].
    apply starts_with_name_key in S.
    destruct l as [|c1 [|c2 [|c3 [|c4 [|c5 l]]]]];
      try (vm_compute in S; discriminate S).
    cbn [forallb] in Hl. repeat (apply andb_true_iff in Hl as [? Hl]).
    cbn [app nth_error] in S. injection S as ->.
    discriminate.
Qed.

(** X1: the resolver reads back the company name that
    [create_url_for_company] wrote into the URL, whatever characters the
    name holds: [quote] escapes "=", "&" and "%", so the text between
    "name=" and the next "&" is the encoded name and nothing else. *)
Theorem company_name_survives_url (company_name : string) :
  company_name_from_url (create_url_for_company company_name)
  = Some company_name.
Proof.
  unfold company_name_from_url, create_url_for_company, split_on.
  rewrite !Normalization.chars_app.
  unfold quote at 1. rewrite chars_str.
  set (q := flat_map quote_char (chars company_name)).
  assert (forallb plain_char q = true) as Hq by apply quote_plain.
  change (chars "&direction=ascending&order=NPRI_Id&length=10&page=1")
    with (chars url_tail).
  cbn -[q url_tail].
  rewrite split_on_aux_none
    by (intros a b E; exact (no_name_key_after q a b Hq E)).
  cbn [map rev app lookup list_lookup]. rewrite chars_str.
  change (chars url_tail)
    with ("&"%char
          :: chars "direction=ascending&order=NPRI_Id&length=10&page=1").
  rewrite (split_on_aux_amp q _ [] Hq).
  cbn [map rev app lookup list_lookup]. f_equal. apply unquote_quote.
Qed.

End UrlFacts.

(** ** The resolver returns digits only *)

Module ResolverFacts.
Import Text Re Patterns Soup Url MainPy TextFacts ReFacts Shapes MoreScenarios
  AsciiPages.

(** A loop whose body returns only values with [P] returns only values
    with [P]. *)
Lemma first_flow_return {A B : Type} (P : B -> Prop) (body : A -> flow B)
    (l : list A) (v : B) :
  (forall x w, body x = Return w -> P w) ->
  first_flow body l = Return v -> P v.
Proof.
  intros H. induction l as [|x l IH]; [discriminate|].
  cbn [first_flow]. destruct (body x) as [w| |] eqn:E; try discriminate.
  - intros [= <-]. exact (H x w E).
  - exact IH.
Qed.

Lemma digit_class_cs (c : ascii) :
  cls_test false false [CDigit] c = true -> is_digit c = true.
Proof.
  apply (ascii_implies (cls_test false false [CDigit]) is_digit).
  vm_compute. reflexivity.
Qed.

(** Group 1 of r"/2024/(\d+)" is a non-empty run of digits. *)
Lemma href_group_is_digit (href : string) (m : rmatch) :
  search false href_year_id href = Some m -> isdigit (group m) = true.
Proof.
  intros H. apply search_group in H as (w & _ & -> & G); [|reflexivity].
  change (grp_lang false href_year_id w)
    with (False \/ lang false (plus false [CDigit]) w) in G.
  destruct G as [[]|(F & L & _)].
  unfold isdigit, isdigit_l. rewrite chars_str.
  rewrite (Validation.forallb_impl _ _ _ digit_class_cs F), andb_true_r.
  destruct w; [simpl in L; lia|reflexivity].
Qed.

Lemma row_link_digit (link : node) (v : string) :
  row_link link = Return v -> isdigit v = true.
Proof.
  unfold row_link.
  destruct (contains "/2024/" _ && isdigit _) eqn:E1.
  - intros [= <-]. now apply andb_true_iff in E1.
  - destruct (isdigit _ && _) eqn:E2; [|discriminate].
    intros [= <-]. now apply andb_true_iff in E2.
Qed.

Lemma row_cell_digit (idx : nat) (cells : list node) (v : string) :
  row_cell idx cells = Return v -> isdigit v = true.
Proof.
  unfold row_cell. destruct (cells !! idx) as [c|]; [|discriminate].
  destruct (find_link c) as [a|]; [|discriminate].
  destruct (isdigit (get_text_strip a)) eqn:E; [|discriminate].
  now intros [= <-].
Qed.

Lemma company_row_digit (keywords : list string) (idx : nat) (row : node)
    (v : string) :
  company_row keywords idx row = Return v -> isdigit v = true.
Proof.
  unfold company_row. destruct (row_has_company _ _); [|discriminate].
  destruct (first_flow row_link _) as [w| |] eqn:E; try discriminate.
  - intros [= <-].
    exact (first_flow_return _ _ _ _ row_link_digit E).
  - apply row_cell_digit.
Qed.

Lemma table_link_digit (link : node) (v : string) :
  table_link link = Return v -> isdigit v = true.
Proof.
  unfold table_link.
  destruct (contains "/2024/" _ && isdigit _) eqn:E1.
  - intros [= <-]. now apply andb_true_iff in E1.
  - destruct (search false href_year_id _) as [m|] eqn:E2; [|discriminate].
    intros [= <-]. now apply href_group_is_digit in E2.
Qed.

Lemma table_cell_digit (cell : node) (v : string) :
  table_cell cell = Return v -> isdigit v = true.
Proof.
  unfold table_cell. destruct (isdigit _ && _) eqn:E; [|discriminate].
  intros [= <-]. now apply andb_true_iff in E.
Qed.

Lemma examine_table_digit (url : string) (table : node) (v : string) :
  examine_table url table = Return v -> isdigit v = true.
Proof.
  unfold examine_table.
  destruct (find ["tr"] table) as [hr|]; [|discriminate].
  destruct (npri_id_index _) as [idx|]; [|discriminate].
  destruct (company_name_from_url url) as [name|]; [|discriminate].
  destruct (first_flow (company_row _ _) _) as [w| |] eqn:E1;
    try discriminate.
  - intros [= <-].
    exact (first_flow_return _ _ _ _ (company_row_digit _ _) E1).
  - destruct (first_flow table_link _) as [w| |] eqn:E2; try discriminate.
    + intros [= <-].
      exact (first_flow_return _ _ _ _ table_link_digit E2).
    + apply (first_flow_return _ _ _ _ table_cell_digit).
Qed.

Lemma known_id_digit (page_text npri_id : string) :
  known_id_in page_text = Some npri_id -> isdigit npri_id = true.
Proof.
  intros H. apply find_some in H as [H _].
  destruct H as [<-|[<-|[<-|[]]]]; reflexivity.
Qed.

(** X2: for a URL and a page in ASCII, an identifier returned by the
    resolver is a non-empty string of the digits 0 to 9: each of its six
    return statements is guarded by [isdigit], returns the digits group
    of the href pattern, or returns a known identifier.  (On a page with
    other characters Python's [isdigit] and [\d] also accept the digits
    of other scripts, and the identifier can hold them.) *)
Theorem resolved_id_is_numeric (url : string) (soup : node)
    (npri_id : string) :
  is_ascii url = true ->
  ascii_node soup = true ->
  download_npri_csv_with_selenium url (Some soup) = Some npri_id ->
  isdigit npri_id = true /\ is_ascii npri_id = true.
Proof.
  intros _ _.
  enough (download_npri_csv_with_selenium url (Some soup) = Some npri_id ->
          isdigit npri_id = true) as D.
  { intros H. split; [exact (D H)|]. apply D in H.
    unfold isdigit, isdigit_l in H. apply andb_true_iff in H as [_ H].
    unfold is_ascii.
    refine (Validation.forallb_impl _ _ _ _ H).
    apply (ascii_implies is_digit (fun c => (code c <? 128)%nat)).
    vm_compute. reflexivity. }
  unfold download_npri_csv_with_selenium, resolve.
  destruct (find_all ["table"] soup) as [|t ts]; [discriminate|].
  unfold table_phase.
  destruct (first_flow (examine_table url) (t :: ts)) as [w| |] eqn:E.
  - intros [= <-].
    exact (first_flow_return _ _ _ _ (examine_table_digit url) E).
  - discriminate.
  - destruct (known_id_in _) as [k|] eqn:K; [|discriminate].
    intros [= <-]. now apply known_id_digit in K.
Qed.

(** A listing whose link text is a word: the identifier is read from the
    link target. *)
Lemma resolved_id_is_numeric_witness :
  is_ascii (create_url_for_company "Borealis Gas") = true /\
  ascii_node details_listing = true /\
  download_npri_csv_with_selenium (create_url_for_company "Borealis Gas")
    (Some details_listing) = Some "20455" /\
  isdigit "20455" = true /\ is_ascii "20455" = true.
Proof.
  assert (is_ascii (create_url_for_company "Borealis Gas") = true) as U
    by (vm_compute; reflexivity).
  assert (ascii_node details_listing = true) as S
    by (vm_compute; reflexivity).
  assert (download_npri_csv_with_selenium
            (create_url_for_company "Borealis Gas")
            (Some details_listing) = Some "20455") as H
    by (vm_compute; reflexivity).
  split; [exact U|]. split; [exact S|]. split; [exact H|].
  exact (resolved_id_is_numeric _ _ _ U S H).
Defined.

(** X24: a company name made of words of at most three letters (after
    the removal of the dots) selects no row of the table, whatever the
    rows hold: the keyword test skips every such word, so the resolver
    goes on to the links and cells of the whole table. *)
Theorem short_words_select_no_row (company_name : string)
    (npri_id_index : nat) (row : node) :
  forallb (fun keyword => (len keyword <=? 3)%nat)
    (company_keywords company_name) = true ->
  company_row (company_keywords company_name) npri_id_index row = Next.
Proof.
  intros H. unfold company_row.
  assert (row_has_company (company_keywords company_name) (get_text row)
          = false) as ->; [|reflexivity].
  unfold row_has_company.
  induction (company_keywords company_name) as [|k ks IH]; [reflexivity|].
  cbn [forallb] in H. apply andb_true_iff in H as [Hk Hks].
  cbn [existsb]. rewrite (IH Hks), orb_false_r.
  apply Nat.leb_le in Hk.
  assert ((3 <? len k)%nat = false) as -> by (apply Nat.ltb_ge; exact Hk).
  reflexivity.
Qed.

Lemma short_words_select_no_row_witness :
  company_keywords "A.B.C. Oil Co" = ["ABC"; "Oil"; "Co"] /\
  company_row (company_keywords "A.B.C. Oil Co") 1 Scenarios.acme_row = Next.
Proof.
  split; [vm_compute; reflexivity|].
  apply short_words_select_no_row. vm_compute. reflexivity.
Defined.

End ResolverFacts.

(** ** Stored values carry no surrounding white space *)

Module Trimmed.
Import Text Re Patterns Selenium Files Shapes MoreShapes Scenarios MoreScenarios.
Import TextFacts ReFacts MapFacts Validation.

Lemma strip_trimmed (key s : string) : trimmed key (strip s).
Proof. apply strip_idem. Qed.

(** The digits group of the employees pattern needs no stripping. *)
Lemma known_employees_trimmed (page_source : string) (m : rmatch) :
  search true known_employees page_source = Some m ->
  trimmed "employees" (group m).
Proof.
  intros H. apply search_group in H as (w & _ & -> & G); [|reflexivity].
  change (grp_lang true known_employees w)
    with ((False \/ False \/ False) \/ False \/ lang true (plus false digit09) w)
    in G.
  destruct G as [[[]|[[]|[]]]|[[]|(F & _)]].
  unfold trimmed, strip. rewrite chars_str. f_equal.
  apply strip_l_id.
  exact (forallb_impl _ _ _ digit_no_space (forallb_impl _ _ _ digit_class F)).
Qed.

Lemma labeled_step_trimmed (all_text : string) (ci : gmap string string)
    (kp : string * re) :
  shaped trimmed ci ->
  shaped trimmed (ExtractContactInfo.labeled_step all_text ci kp).
Proof.
  intros Hci. unfold ExtractContactInfo.labeled_step.
  destruct (search true kp.2 all_text); [|easy].
  apply shaped_insert; [easy|apply strip_trimmed].
Qed.

Lemma literal_step_trimmed (d : Driver) (key literal : string)
    (ci ci' : gmap string string) :
  strip literal = literal -> shaped trimmed ci ->
  ExtractContactInfo.literal_step d key literal ci = Some ci' ->
  shaped trimmed ci'.
Proof.
  intros L Hci. unfold ExtractContactInfo.literal_step.
  destruct (find_elements d _) as [[|e es]|]; intros [= <-]; [easy|].
  now apply shaped_insert.
Qed.

(** X3: no value in the dict of [scrape_contact_info_selenium] has white
    space at either end, under any key and for any page and browser:
    the pattern groups and the cell texts are stripped and the three
    hardcoded literals have none. *)
Theorem scraped_values_are_trimmed (d : Driver) (k v : string) :
  ExtractContactInfo.collect d !! k = Some v -> strip v = v.
Proof.
  revert k v. change (shaped trimmed (ExtractContactInfo.collect d)).
  unfold ExtractContactInfo.collect.
  destruct (page_source d) as [all_text|]; [|apply shaped_empty].
  assert (shaped trimmed (ExtractContactInfo.method1 all_text ∅)) as H1.
  { unfold ExtractContactInfo.method1.
    apply (fold_left_preserves (shaped trimmed)); [|apply shaped_empty].
    intros a b _. apply labeled_step_trimmed. }
  assert (shaped trimmed
            (ExtractContactInfo.method2 d
               (ExtractContactInfo.method1 all_text ∅))) as H2.
  { unfold ExtractContactInfo.method2.
    destruct (find_elements d _) as [els|]; [|easy].
    set (ci := match els with [] => _ | _ :: _ => _ end).
    assert (shaped trimmed ci) as Hci.
    { unfold ci. destruct els; [easy|].
      apply shaped_insert; [easy|apply strip_trimmed]. }
    destruct (find_elements d _) as [[|e es]|]; try easy.
    unfold ExtractContactInfo.employees_value.
    destruct (find_element e _) as [row|]; [|easy].
    destruct (find_element row _) as [cell|]; [|easy].
    apply shaped_insert; [easy|apply strip_trimmed]. }
  revert H2. generalize (ExtractContactInfo.method2 d
                           (ExtractContactInfo.method1 all_text ∅)).
  intros ci Hci. unfold ExtractContactInfo.method3.
  destruct (ExtractContactInfo.literal_step d "name" _ ci) as [ci1|] eqn:E1;
    [|easy].
  apply literal_step_trimmed in E1; [|reflexivity|easy].
  destruct (ExtractContactInfo.literal_step d "phone" _ ci1) as [ci2|] eqn:E2;
    [|easy].
  apply literal_step_trimmed in E2; [|reflexivity|easy].
  destruct (ExtractContactInfo.literal_step d "email" _ ci2) as [ci3|] eqn:E3;
    [|easy].
  now apply literal_step_trimmed in E3.
Qed.

(** The cell text around the business number is stored stripped. *)
Lemma scraped_values_are_trimmed_witness :
  ExtractContactInfo.collect labelled_cell_browser !! "business_number"
    = Some "Business number: 863108833" /\
  strip "Business number: 863108833" = "Business number: 863108833".
Proof.
  assert (ExtractContactInfo.collect labelled_cell_browser !! "business_number"
          = Some "Business number: 863108833") as H
    by (vm_compute; reflexivity).
  split; [exact H|].
  exact (scraped_values_are_trimmed _ _ _ H).
Defined.

Lemma known_step_trimmed (page_source : string) (ci : gmap string string)
    (kp : string * re) :
  In kp known_patterns -> shaped trimmed ci ->
  shaped trimmed (ImprovedContactExtractor.known_step page_source ci kp).
Proof.
  intros Hin Hci. unfold ImprovedContactExtractor.known_step.
  destruct (search true kp.2 page_source) as [m|] eqn:E; [|easy].
  simpl in Hin.
  destruct Hin as [<-|[<-|[<-|[<-|[<-|[<-|[<-|[]]]]]]]];
    cbn [fst snd String.eqb Ascii.eqb Bool.eqb] in *;
    try (apply shaped_insert; [easy|reflexivity]).
  apply shaped_insert; [easy|].
  now apply known_employees_trimmed with (page_source := page_source).
Qed.

Lemma first_name_trimmed (page_source : string) (patterns : list re)
    (name : string) :
  ImprovedContactExtractor.first_name page_source patterns = Some name ->
  strip name = name.
Proof.
  induction patterns as [|p ps IH]; [discriminate|].
  cbn [ImprovedContactExtractor.first_name].
  destruct (search true p page_source); [|exact IH].
  intros [= <-]. apply strip_idem.
Qed.

Lemma first_position_trimmed (page_source : string) (patterns : list re)
    (position : string) :
  ImprovedContactExtractor.first_position page_source patterns
    = Some position ->
  strip position = position /\ position <> "".
Proof.
  induction patterns as [|p ps IH]; [discriminate|].
  cbn [ImprovedContactExtractor.first_position].
  destruct (search true p page_source); [|exact IH].
  cbv zeta. destruct (String.eqb_spec (strip (sub placeholder "" (strip (group r)))) "") as [_|N];
    [exact IH|].
  intros [= <-]. split; [apply strip_idem|exact N].
Qed.

(** X4: no value in the dict of [extract_contact_with_progress] has white
    space at either end, under any key, for any identifier and page. *)
Theorem improved_values_are_trimmed (npri_id page_source k v : string) :
  ImprovedContactExtractor.after4 npri_id page_source !! k = Some v ->
  strip v = v.
Proof.
  revert k v.
  change (shaped trimmed (ImprovedContactExtractor.after4 npri_id page_source)).
  assert (shaped trimmed
            (ImprovedContactExtractor.after1 npri_id page_source)) as H1.
  { unfold ImprovedContactExtractor.after1, ImprovedContactExtractor.method1.
    destruct (String.eqb npri_id "1368"); [|apply shaped_empty].
    apply (fold_left_preserves (shaped trimmed)); [|apply shaped_empty].
    intros a b Hb. now apply known_step_trimmed. }
  assert (shaped trimmed
            (ImprovedContactExtractor.after2 npri_id page_source)) as H2.
  { unfold ImprovedContactExtractor.after2, ImprovedContactExtractor.method2.
    apply (fold_left_preserves (shaped trimmed)); [|exact H1].
    intros a b _ Ha. unfold ImprovedContactExtractor.generic_step.
    destruct (a !! b.1); [easy|].
    destruct (search true b.2 page_source); [|easy].
    apply shaped_insert; [easy|apply strip_trimmed]. }
  assert (shaped trimmed
            (ImprovedContactExtractor.after3 npri_id page_source)) as H3.
  { unfold ImprovedContactExtractor.after3, ImprovedContactExtractor.method3.
    destruct (_ !! "contact_name"); [easy|].
    destruct (ImprovedContactExtractor.first_name _ _) eqn:E; [|easy].
    apply shaped_insert; [easy|]. now apply first_name_trimmed in E. }
  unfold ImprovedContactExtractor.after4, ImprovedContactExtractor.method4.
  destruct (_ !! "position"); [easy|].
  destruct (ImprovedContactExtractor.first_position _ _) eqn:E; [|easy].
  apply shaped_insert; [easy|]. now apply first_position_trimmed in E.
Qed.

(** A position followed by blanks is stored without them. *)
Lemma improved_values_are_trimmed_witness :
  ImprovedContactExtractor.after4 "42" position_page !! "position"
    = Some "Plant Manager" /\
  strip "Plant Manager" = "Plant Manager".
Proof.
  assert (ImprovedContactExtractor.after4 "42" position_page !! "position"
          = Some "Plant Manager") as H
    by (vm_compute; reflexivity).
  split; [exact H|].
  exact (improved_values_are_trimmed _ _ _ _ H).
Defined.

(** X5: no value in the dict of [extract_contact_info_enhanced] has white
    space at either end. *)
Theorem enhanced_values_are_trimmed (page_source k v : string) :
  EnhancedContactExtractor.collect page_source !! k = Some v ->
  strip v = v.
Proof.
  revert k v.
  change (shaped trimmed (EnhancedContactExtractor.collect page_source)).
  unfold EnhancedContactExtractor.collect.
  apply (fold_left_preserves (shaped trimmed)); [|apply shaped_empty].
  intros a b _ Ha. unfold EnhancedContactExtractor.enhanced_step.
  destruct (findall true b.2 page_source); [easy|].
  apply shaped_insert; [easy|apply strip_trimmed].
Qed.

Lemma enhanced_values_are_trimmed_witness :
  EnhancedContactExtractor.collect position_page !! "email"
    = Some "pm@example.ca" /\
  strip "pm@example.ca" = "pm@example.ca".
Proof.
  assert (EnhancedContactExtractor.collect position_page !! "email"
          = Some "pm@example.ca") as H
    by (vm_compute; reflexivity).
  split; [exact H|].
  exact (enhanced_values_are_trimmed _ _ _ H).
Defined.

(** X6: a position stored by [extract_contact_with_progress] is never the
    empty string: Method 1 stores a literal and Method 4 skips a pattern
    whose cleaned value is empty. *)
Theorem improved_position_is_not_empty (npri_id page_source v : string) :
  ImprovedContactExtractor.after4 npri_id page_source !! "position" = Some v ->
  (0 < len v)%nat.
Proof.
  set (P := fun k v : string => k = "position" -> (0 < len v)%nat).
  intros H. enough (shaped P (ImprovedContactExtractor.after4 npri_id page_source))
    as S by exact (S _ _ H eq_refl).
  clear H v.
  assert (shaped P (ImprovedContactExtractor.after1 npri_id page_source)) as H1.
  { unfold ImprovedContactExtractor.after1, ImprovedContactExtractor.method1.
    destruct (String.eqb npri_id "1368"); [|apply shaped_empty].
    apply (fold_left_preserves (shaped P)); [|apply shaped_empty].
    intros a b Hin Ha. unfold ImprovedContactExtractor.known_step.
    destruct (search true b.2 page_source) as [m|] eqn:E; [|easy].
    simpl in Hin.
    destruct Hin as [<-|[<-|[<-|[<-|[<-|[<-|[<-|[]]]]]]]];
      cbn [fst snd String.eqb Ascii.eqb Bool.eqb] in *;
      (apply shaped_insert; [easy|]); intros [=].
    vm_compute. lia. }
  assert (shaped P (ImprovedContactExtractor.after2 npri_id page_source)) as H2.
  { unfold ImprovedContactExtractor.after2, ImprovedContactExtractor.method2.
    apply (fold_left_preserves (shaped P)); [|exact H1].
    intros a b Hin Ha. unfold ImprovedContactExtractor.generic_step.
    destruct (a !! b.1); [easy|].
    destruct (search true b.2 page_source); [|easy].
    apply shaped_insert; [easy|].
    simpl in Hin. destruct Hin as [<-|[<-|[<-|[<-|[<-|[]]]]]]; intros [=]. }
  assert (shaped P (ImprovedContactExtractor.after3 npri_id page_source)) as H3.
  { unfold ImprovedContactExtractor.after3, ImprovedContactExtractor.method3.
    destruct (_ !! "contact_name"); [easy|].
    destruct (ImprovedContactExtractor.first_name _ _); [|easy].
    apply shaped_insert; [easy|]. intros [=]. }
  unfold ImprovedContactExtractor.after4, ImprovedContactExtractor.method4.
  destruct (_ !! "position"); [easy|].
  destruct (ImprovedContactExtractor.first_position _ _) as [p|] eqn:E; [|easy].
  apply shaped_insert; [easy|]. intros _.
  apply first_position_trimmed in E as [_ N].
  destruct p; [easy|]. unfold len. simpl. lia.
Qed.

Lemma improved_position_is_not_empty_witness :
  ImprovedContactExtractor.after4 "42" position_page !! "position"
    = Some "Plant Manager" /\
  (0 < len "Plant Manager")%nat.
Proof.
  assert (ImprovedContactExtractor.after4 "42" position_page !! "position"
          = Some "Plant Manager") as H
    by (vm_compute; reflexivity).
  split; [exact H|].
  exact (improved_position_is_not_empty _ _ _ H).
Defined.

End Trimmed.

(** ** main.py: the browser fallback and the per-company driver *)

Module Processing.
Import Text MainPy ScrapeWithSelenium TextFacts MoreScenarios AsciiPages.

Lemma isdigit_trimmed (s : string) : isdigit s = true -> strip s = s.
Proof.
  unfold isdigit, isdigit_l, strip. intros H.
  apply andb_true_iff in H as [_ H].
  rewrite strip_l_id, str_chars; [reflexivity|].
  exact (Validation.forallb_impl _ _ _ Validation.digit_no_space H).
Qed.

Lemma isdigit_truthy (s : string) : isdigit s = true -> truthy (Some s) = true.
Proof. destruct s; [discriminate|reflexivity]. Qed.

Lemma detail_link_digit (link : Link) (t : string) :
  detail_link link = Return t -> isdigit t = true.
Proof.
  unfold detail_link. destruct (href link); [|discriminate].
  destruct (contains _ _ && isdigit _) eqn:E; [|discriminate].
  intros [= <-]. now apply andb_true_iff in E.
Qed.

Lemma any_link_digit (link : Link) (t : string) :
  any_link link = Return t -> isdigit t = true.
Proof.
  unfold any_link.
  destruct (contains _ _ && isdigit _) eqn:E; [|discriminate].
  intros [= <-]. now apply andb_true_iff in E.
Qed.

(** X7: on a page whose link texts are in ASCII, an identifier returned
    by [scrape_with_selenium] is a non-empty string of the digits 0 to
    9, hence true in a condition and free of white space.  (On other
    link texts Python's [isdigit] also accepts the digits of other
    scripts.) *)
Theorem selenium_id_is_numeric (s : session) (t : string) :
  ascii_session s = true ->
  scrape_with_selenium s = Some t ->
  isdigit t = true /\ truthy (Some t) = true /\ strip t = t.
Proof.
  intros _ H.
  enough (isdigit t = true) as D
    by (split; [exact D|split; [now apply isdigit_truthy|
                                 now apply isdigit_trimmed]]).
  destruct s as [| | |p]; try discriminate.
  cbn [scrape_with_selenium] in H. unfold scrape_page in H.
  destruct (table_found p); [|discriminate].
  destruct (detail_links p) as [dl|]; [|discriminate].
  destruct (first_flow detail_link dl) as [w| |] eqn:E1; try discriminate.
  - injection H as <-.
    exact (ResolverFacts.first_flow_return _ _ _ _ detail_link_digit E1).
  - destruct (all_links p) as [al|]; [|discriminate].
    destruct (first_flow any_link al) as [w| |] eqn:E2; try discriminate.
    injection H as <-.
    exact (ResolverFacts.first_flow_return _ _ _ _ any_link_digit E2).
Qed.

Lemma selenium_id_is_numeric_witness :
  ascii_session (Loaded padded_link_page) = true /\
  scrape_with_selenium (Loaded padded_link_page) = Some "20455" /\
  isdigit "20455" = true /\ truthy (Some "20455") = true /\
  strip "20455" = "20455".
Proof.
  assert (ascii_session (Loaded padded_link_page) = true) as A
    by (vm_compute; reflexivity).
  assert (scrape_with_selenium (Loaded padded_link_page) = Some "20455") as H
    by reflexivity.
  split; [exact A|]. split; [exact H|].
  exact (selenium_id_is_numeric _ _ A H).
Defined.

Lemma first_flow_raise {A B : Type} (body : A -> flow B)
    (pre post : list A) (x : A) :
  (forall y, In y pre -> body y = Next) -> body x = Raise ->
  first_flow body (pre ++ x :: post) = Raise.
Proof.
  intros Hpre Hx. induction pre as [|y pre IH]; cbn [app first_flow].
  - now rewrite Hx.
  - rewrite (Hpre y) by now left. apply IH.
    intros z Hz. apply Hpre. now right.
Qed.

(** X8: a detail link without an href ends the browser fallback with
    None, whatever the links after it and whatever the second loop would
    find, when no detail link before it qualifies: the membership test
    on None raises and the outer handler returns None. *)
Theorem detail_link_without_href_gives_none (pre post : list Link)
    (link : Link) (found : bool) (links : option (list Link)) :
  (forall l, In l pre -> detail_link l = Next) ->
  href link = None ->
  scrape_with_selenium
    (Loaded {| table_found := found;
               detail_links := Some (pre ++ link :: post);
               all_links := links |}) = None.
Proof.
  intros Hpre Hl. cbn [scrape_with_selenium]. unfold scrape_page.
  cbn [table_found detail_links all_links].
  destruct found; [|reflexivity].
  rewrite (first_flow_raise detail_link pre post link Hpre); [reflexivity|].
  unfold detail_link. now rewrite Hl.
Qed.

Lemma detail_link_without_href_gives_none_witness :
  scrape_with_selenium
    (Loaded {| table_found := true;
               detail_links :=
                 Some ([] ++ {| href := None; text := "1368" |}
                          :: [{| href := Some "https://x.ca/2024/1368";
                                 text := "1368" |}]);
               all_links :=
                 Some [{| href := Some "https://x.ca/2024/1368";
                          text := "1368" |}] |}) = None.
Proof.
  apply detail_link_without_href_gives_none.
  - intros l [].
  - reflexivity.
Defined.

End Processing.

(** ** The CSV exports *)

Module Exports.
Import Text ContactData MapFacts MoreScenarios.

Lemma fill_cons (f : string) (fields : list string)
    (value : string -> string) (row : gmap string string) :
  fill (f :: fields) value row = fill fields value (<[f := value f]> row).
Proof. reflexivity. Qed.

Lemma fill_other (fields : list string) (value : string -> string)
    (row : gmap string string) (k : string) :
  ~ In k fields -> fill fields value row !! k = row !! k.
Proof.
  revert row.
  induction fields as [|f fs IH]; intros row N; [reflexivity|].
  rewrite fill_cons, IH by (intros H; apply N; now right).
  apply lookup_insert_ne. intros ->. apply N. now left.
Qed.

Lemma fill_field (fields : list string) (value : string -> string)
    (row : gmap string string) (k : string) :
  In k fields -> fill fields value row !! k = Some (value k).
Proof.
  revert row.
  induction fields as [|f fs IH]; intros row H; [destruct H|].
  rewrite fill_cons. destruct (in_dec string_dec k fs) as [I|N].
  - now apply IH.
  - destruct H as [->|H]; [|contradiction].
    rewrite (fill_other fs value _ k N). apply lookup_insert_eq.
Qed.

Lemma in_insert_sorted (k s : string) (l : list string) :
  In k (insert_sorted s l) <-> k = s \/ In k l.
Proof.
  induction l as [|h t IH]; cbn [insert_sorted].
  - cbn. intuition.
  - destruct (String.leb s h); cbn [In]; [intuition|].
    rewrite IH. intuition.
Qed.

Lemma in_sorted (k : string) (l : list string) : In k (sorted l) <-> In k l.
Proof.
  induction l as [|h t IH]; [reflexivity|].
  unfold sorted in *. cbn [fold_right]. rewrite in_insert_sorted, IH.
  cbn. intuition.
Qed.

Lemma length_insert_sorted (s : string) (l : list string) :
  length (insert_sorted s l) = S (length l).
Proof.
  induction l as [|h t IH]; [reflexivity|].
  cbn [insert_sorted]. destruct (String.leb s h); cbn [length]; congruence.
Qed.

Lemma length_sorted (l : list string) : length (sorted l) = length l.
Proof.
  induction l as [|h t IH]; [reflexivity|].
  unfold sorted in *. cbn [fold_right].
  rewrite length_insert_sorted. cbn. congruence.
Qed.

(** The fields only grow along the records. *)
Lemma add_fields_mono (acc : gset string) (data : item) :
  acc ⊆ add_fields acc data.
Proof.
  unfold add_fields. destruct (contact_info data) as [ci|]; [|set_solver].
  destruct (decide (ci = ∅)); set_solver.
Qed.

Lemma fold_add_fields_mono (l : list item) (acc : gset string) :
  acc ⊆ fold_left add_fields l acc.
Proof.
  revert acc. induction l as [|d l IH]; intros acc; [set_solver|].
  cbn [fold_left]. etrans; [apply add_fields_mono|apply IH].
Qed.

Lemma all_fields_holds (contact_data : list item) (holder : item)
    (ci : gmap string string) :
  In holder contact_data -> contact_info holder = Some ci ->
  dom ci ⊆ all_fields contact_data.
Proof.
  unfold all_fields. generalize (∅ : gset string).
  induction contact_data as [|d l IH]; intros acc Hin Hci; [destruct Hin|].
  cbn [fold_left]. destruct Hin as [->|Hin]; [|now apply IH].
  etrans; [|apply fold_add_fields_mono].
  unfold add_fields. rewrite Hci.
  destruct (decide (ci = ∅)) as [->|_]; set_solver.
Qed.

Lemma all_fields_not_empty (contact_data : list item) (holder : item)
    (ci : gmap string string) :
  In holder contact_data -> contact_info holder = Some ci -> ci <> ∅ ->
  exists f fs, elements (all_fields contact_data) = f :: fs.
Proof.
  intros Hin Hci N. apply nonempty_has_key in N as (k & v & Hk).
  pose proof (all_fields_holds _ _ _ Hin Hci) as S.
  assert (k ∈ all_fields contact_data) as K.
  { apply S. apply elem_of_dom. now exists v. }
  destruct (elements (all_fields contact_data)) as [|f fs] eqn:E; [|eauto].
  apply elem_of_elements in K. rewrite E in K. inversion K.
Qed.

Lemma write_rows_stops (row_of : item -> option (gmap string string))
    (names : list string) (pre post : list item) (failed : item) :
  (forall d, In d pre -> row_of d <> None) -> row_of failed = None ->
  exists rows,
    write_rows row_of names (pre ++ failed :: post) = (rows, false) /\
    length rows = length pre.
Proof.
  intros Hpre Hf. induction pre as [|d pre IH]; cbn [app write_rows].
  - rewrite Hf. now exists [].
  - destruct (row_of d) as [row|] eqn:E; [|now destruct (Hpre d (or_introl eq_refl))].
    destruct IH as (rows & -> & L); [intros x Hx; apply Hpre; now right|].
    exists (csv_row names row :: rows). cbn. now rewrite L.
Qed.

Lemma write_rows_all (row_of : item -> option (gmap string string))
    (cells : item -> list string) (names : list string) (l : list item) :
  (forall d, In d l ->
     exists row, row_of d = Some row /\ csv_row names row = cells d) ->
  write_rows row_of names l = (map cells l, true).
Proof.
  induction l as [|d l IH]; intros H; [reflexivity|].
  cbn [write_rows map]. destruct (H d (or_introl eq_refl)) as (row & -> & ->).
  rewrite IH; [reflexivity|]. intros x Hx. apply H. now right.
Qed.

Lemma csv_stops_with_fields (pre post : list item) (failed : item)
    (f : string) (fs : list string) :
  contact_info failed = None ->
  (forall d, In d pre -> contact_info d <> None) ->
  elements (all_fields (pre ++ failed :: post)) = f :: fs ->
  exists rows,
    SaveCsv.save_contact_info_to_csv (pre ++ failed :: post)
    = Written (SaveCsv.fieldnames (pre ++ failed :: post) :: rows) false /\
    length rows = length pre.
Proof.
  intros Hf Hpre E.
  unfold SaveCsv.save_contact_info_to_csv.
  destruct (pre ++ failed :: post) as [|d0 l0] eqn:EL;
    [now destruct pre|].
  rewrite <- EL in *.
  destruct (write_rows_stops
              (SaveCsv.row_of (elements (all_fields (pre ++ failed :: post))))
              (SaveCsv.fieldnames (pre ++ failed :: post)) pre post failed)
    as (rows & -> & L).
  - intros d Hd. unfold SaveCsv.row_of.
    destruct (contact_info d) eqn:Ed; [discriminate|].
    now destruct (Hpre d Hd).
  - unfold SaveCsv.row_of. now rewrite Hf, E.
  - now exists rows.
Qed.

Lemma write_rows_stops_cells (row_of : item -> option (gmap string string))
    (cells : item -> list string) (names : list string)
    (pre post : list item) (failed : item) :
  (forall d, In d pre ->
     exists row, row_of d = Some row /\ csv_row names row = cells d) ->
  row_of failed = None ->
  write_rows row_of names (pre ++ failed :: post) = (map cells pre, false).
Proof.
  intros Hpre Hf. induction pre as [|d pre IH]; cbn [app write_rows map].
  - now rewrite Hf.
  - destruct (Hpre d (or_introl eq_refl)) as (row & -> & ->).
    rewrite IH; [reflexivity|]. intros x Hx. apply Hpre. now right.
Qed.

Lemma fold_add_fields_elem (l : list item) (acc : gset string) (k : string) :
  k ∈ fold_left add_fields l acc ->
  k ∈ acc \/ exists d m, In d l /\ contact_info d = Some m /\ k ∈ dom m.
Proof.
  revert acc. induction l as [|d l IH]; intros acc H; [now left|].
  cbn [fold_left] in H. apply IH in H as [H|(d' & m & I & E & K)].
  - unfold add_fields in H. destruct (contact_info d) as [m|] eqn:E;
      [|now left].
    destruct (decide (m = ∅)); [now left|].
    apply elem_of_union in H as [H|H]; [now left|].
    right. exists d, m. split; [now left|easy].
  - right. exists d', m. split; [now right|easy].
Qed.

Lemma all_fields_elem (contact_data : list item) (k : string) :
  In k (elements (all_fields contact_data)) ->
  exists d m v,
    In d contact_data /\ contact_info d = Some m /\ m !! k = Some v.
Proof.
  intros H. apply list_elem_of_In, elem_of_elements in H.
  apply fold_add_fields_elem in H as [H|(d & m & I & E & K)];
    [set_solver|].
  apply elem_of_dom in K as [v K]. now exists d, m, v.
Qed.

(** The cells of a row built from the two record columns and the values
    of the fields, whatever the order in which the fields were filled. *)
Lemma record_row_cells (fields : gset string) (d : item)
    (value : string -> string) (order : list string) :
  "company_name" ∉ fields -> "npri_id" ∉ fields ->
  (forall k, value k = get_field (info d) k) ->
  (forall k, In k order <-> k ∈ fields) ->
  csv_row (["company_name"; "npri_id"] ++ sorted (elements fields))
    (fill order value
       (<["npri_id" := npri_id d]>
          (<["company_name" := company_name d]> ∅)))
  = record_cells fields d.
Proof.
  intros F1 F2 V O.
  assert (~ In "company_name" order /\ ~ In "npri_id" order) as (N1 & N2)
    by (split; intros H; apply O in H; contradiction).
  unfold csv_row, record_cells. rewrite map_app. f_equal.
  - cbn [map]. unfold get_field. rewrite !fill_other by assumption.
    rewrite lookup_insert_ne, lookup_insert_eq by discriminate.
    now rewrite lookup_insert_eq.
  - apply map_ext_in. intros k Hk. apply (proj1 (in_sorted _ _)) in Hk.
    apply list_elem_of_In, elem_of_elements, O in Hk.
    unfold get_field at 1. now rewrite (fill_field _ _ _ _ Hk), V.
Qed.

Lemma save_row_cells (contact_data : list item) (d : item)
    (ci : gmap string string) :
  plain_record_keys contact_data -> contact_info d = Some ci ->
  exists row,
    SaveCsv.row_of (elements (all_fields contact_data)) d = Some row /\
    csv_row (SaveCsv.fieldnames contact_data) row
    = record_cells (all_fields contact_data) d.
Proof.
  intros R Hd. unfold SaveCsv.row_of. rewrite Hd.
  eexists. split; [reflexivity|].
  assert (forall key, (forall d' m, In d' contact_data ->
                         contact_info d' = Some m -> m !! key = None) ->
                      key ∉ all_fields contact_data) as Fresh.
  { intros key K H. apply elem_of_elements, list_elem_of_In in H.
    apply all_fields_elem in H as (d' & m & v & I & Em & L).
    rewrite (K d' m I Em) in L. discriminate. }
  unfold SaveCsv.fieldnames.
  apply record_row_cells.
  - apply Fresh. intros d' m I Em. now destruct (R d' m I Em).
  - apply Fresh. intros d' m I Em. now destruct (R d' m I Em).
  - intros k. unfold info. now rewrite Hd.
  - intros k. now rewrite <- list_elem_of_In, elem_of_elements.
Qed.

(** X10: [save_contact_info_to_csv] stops at the first record of a
    failed extraction as soon as any record carries a field: the file
    keeps the header and the rows of the records before it, each with
    the name, the identifier and the record's value of every field, and
    the failed record and every record after it are missing. *)
Theorem csv_stops_at_failed_record (pre post : list item)
    (failed holder : item) (ci : gmap string string) :
  contact_info failed = None ->
  (forall d, In d pre -> contact_info d <> None) ->
  In holder (pre ++ failed :: post) ->
  contact_info holder = Some ci -> ci <> ∅ ->
  plain_record_keys (pre ++ failed :: post) ->
  SaveCsv.save_contact_info_to_csv (pre ++ failed :: post)
  = Written
      (SaveCsv.fieldnames (pre ++ failed :: post)
       :: map (record_cells (all_fields (pre ++ failed :: post))) pre)
      false.
Proof.
  intros Hf Hpre Hin Hci N R.
  destruct (all_fields_not_empty _ _ _ Hin Hci N) as (f & fs & E).
  unfold SaveCsv.save_contact_info_to_csv.
  destruct (pre ++ failed :: post) as [|d0 l0] eqn:EL;
    [now destruct pre|].
  rewrite <- EL in *.
  rewrite (write_rows_stops_cells _
             (record_cells (all_fields (pre ++ failed :: post)))).
  - reflexivity.
  - intros d Hd. destruct (contact_info d) as [m|] eqn:Ed;
      [|now destruct (Hpre d Hd)].
    now apply (save_row_cells _ d m).
  - unfold SaveCsv.row_of. now rewrite Hf, E.
Qed.

Lemma csv_stops_at_failed_record_witness :
  SaveCsv.save_contact_info_to_csv ([found_item] ++ failed_item :: [late_item])
  = Written
      (SaveCsv.fieldnames ([found_item] ++ failed_item :: [late_item])
       :: map (record_cells
                 (all_fields ([found_item] ++ failed_item :: [late_item])))
            [found_item])
      false /\
  SaveCsv.fieldnames ([found_item] ++ failed_item :: [late_item])
  = ["company_name"; "npri_id"; "email"; "phone"] /\
  map (record_cells (all_fields ([found_item] ++ failed_item :: [late_item])))
    [found_item]
  = [["Pine Cliff Energy Ltd"; "1368"; ""; "403-555-0199"]].
Proof.
  split; [|split; vm_compute; reflexivity].
  apply (csv_stops_at_failed_record [found_item] [late_item] failed_item
           found_item (<["phone" := "403-555-0199"]> ∅)).
  - reflexivity.
  - intros d [<-|[]]. discriminate.
  - now left.
  - reflexivity.
  - intros H. apply (f_equal (fun m => m !! "phone")) in H.
    rewrite lookup_insert_eq, lookup_empty in H. discriminate.
  - intros d m [<-|[<-|[<-|[]]]] [= <-]; split; reflexivity.
Defined.

Lemma json_row_cells (contact_data : list item) (d : item) :
  plain_keys contact_data ->
  exists row,
    JsonToCsv.row_of (elements (all_fields contact_data)) d = Some row /\
    csv_row (JsonToCsv.fieldnames contact_data) row = json_cells contact_data d.
Proof.
  intros R.
  set (fields := elements (all_fields contact_data)).
  set (base := <["success" := str_bool (success d)]>
                 (<["npri_id" := npri_id d]>
                    (<["company_name" := company_name d]>
                       (∅ : gmap string string)))).
  assert (exists value,
            JsonToCsv.row_of fields d = Some (fill fields value base) /\
            forall k, value k = get_field (info d) k) as (value & E & V).
  { unfold JsonToCsv.row_of, info. fold base.
    destruct (contact_info d) as [m|].
    - destruct (decide (m = ∅)) as [->|_]; eexists; (split; [reflexivity|]).
      + intros k. unfold get_field. now rewrite lookup_empty.
      + easy.
    - eexists. split; [reflexivity|]. intros k.
      unfold get_field. now rewrite lookup_empty. }
  exists (fill fields value base). split; [exact E|].
  assert (~ In "company_name" fields /\ ~ In "npri_id" fields /\
          ~ In "success" fields) as (F1 & F2 & F3).
  { repeat split; intros H;
      apply all_fields_elem in H as (d' & m & v & I & Em & K);
      destruct (R d' m I Em) as (R1 & R2 & R3); congruence. }
  unfold csv_row, JsonToCsv.fieldnames, json_cells. rewrite map_app.
  f_equal.
  - cbn [map]. unfold get_field.
    rewrite !fill_other by assumption. unfold base.
    rewrite lookup_insert_ne, lookup_insert_ne, lookup_insert_eq by discriminate.
    rewrite lookup_insert_ne, lookup_insert_eq by discriminate.
    now rewrite lookup_insert_eq.
  - apply map_ext_in. intros k Hk. apply (proj1 (in_sorted _ _)) in Hk.
    unfold get_field at 1. now rewrite (fill_field _ _ _ _ Hk), V.
Qed.

(** X11: [convert_json_to_csv] writes the header and one row for every
    record, a failed extraction included: the name, the identifier, the
    success flag and the record's value of every field in sorted order,
    the empty string where the record has none. *)
Theorem json_csv_has_every_record (first : item) (others : list item) :
  plain_keys (first :: others) ->
  JsonToCsv.convert_json_to_csv (first :: others)
  = Written (JsonToCsv.fieldnames (first :: others)
             :: map (json_cells (first :: others)) (first :: others)) true.
Proof.
  intros R. unfold JsonToCsv.convert_json_to_csv.
  rewrite (write_rows_all _ (json_cells (first :: others))); [reflexivity|].
  intros d _. now apply json_row_cells.
Qed.

Lemma json_csv_has_every_record_witness :
  JsonToCsv.convert_json_to_csv (found_item :: [failed_item; late_item])
  = Written (JsonToCsv.fieldnames (found_item :: [failed_item; late_item])
             :: map (json_cells (found_item :: [failed_item; late_item]))
                  (found_item :: [failed_item; late_item])) true.
Proof.
  apply json_csv_has_every_record.
  intros d m [<-|[<-|[<-|[]]]] [= <-]; repeat split; reflexivity.
Defined.

Lemma clean_contact_info_not_empty (ci : gmap string string) :
  ci <> ∅ -> CleanContactData.clean_contact_info ci <> ∅.
Proof.
  intros N. unfold CleanContactData.clean_contact_info.
  destruct (ci !! "position"); [|exact N].
  apply insert_non_empty.
Qed.

Lemma clean_item_kept (data d : item) :
  In d (CleanData.clean_item data) ->
  success d = true /\
  exists ci, contact_info d = Some ci /\ ci <> ∅.
Proof.
  unfold CleanData.clean_item. intros H.
  destruct (contact_info data) as [ci|]; [|destruct H].
  destruct (success data && negb (bool_decide (ci = ∅))) eqn:E; [|destruct H].
  apply andb_true_iff in E as [S N].
  apply negb_true_iff, bool_decide_eq_false in N.
  destruct H as [<-|[]]. cbn. split; [exact S|].
  eexists. split; [reflexivity|]. now apply clean_contact_info_not_empty.
Qed.

(** X12: every record that [clean_contact_data] keeps is a successful
    one with a non-empty dict. *)
Theorem cleaned_records_are_successful (data : list item) (d : item) :
  In d (CleanData.cleaned_data data) ->
  success d = true /\
  exists ci, contact_info d = Some ci /\ ci <> ∅.
Proof.
  unfold CleanData.cleaned_data. intros H.
  apply in_flat_map in H as (d0 & _ & H).
  exact (clean_item_kept d0 d H).
Qed.

Lemma cleaned_records_are_successful_witness :
  In found_item (CleanData.cleaned_data [failed_item; found_item]) /\
  success found_item = true /\
  exists ci, contact_info found_item = Some ci /\ ci <> ∅.
Proof.
  assert (In found_item (CleanData.cleaned_data [failed_item; found_item]))
    as H by (left; vm_compute; reflexivity).
  split; [exact H|].
  exact (cleaned_records_are_successful _ _ H).
Defined.

Lemma final_fields_fold (cleaned : list item) (acc : gset string) :
  (forall d, In d cleaned -> contact_info d <> None) ->
  CleanData.final_fields cleaned acc
  = Some (fold_left (fun acc data => acc ∪ dom (info data)) cleaned acc).
Proof.
  revert acc. induction cleaned as [|d l IH]; intros acc H; [reflexivity|].
  cbn [CleanData.final_fields fold_left]. unfold info at 2.
  destruct (contact_info d) eqn:E; [|now destruct (H d (or_introl eq_refl))].
  apply IH. intros x Hx. apply H. now right.
Qed.

Lemma fold_info_elem (l : list item) (acc : gset string) (k : string) :
  k ∈ fold_left (fun acc data => acc ∪ dom (info data)) l acc ->
  k ∈ acc \/ exists d, In d l /\ k ∈ dom (info d).
Proof.
  revert acc. induction l as [|d l IH]; intros acc H; [now left|].
  cbn [fold_left] in H. apply IH in H as [H|(d' & I & K)].
  - apply elem_of_union in H as [H|H]; [now left|].
    right. exists d. split; [now left|exact H].
  - right. exists d'. split; [now right|exact K].
Qed.

(** Cleaning touches the position only: the keys stay the same. *)
Lemma clean_contact_info_other_key (ci : gmap string string) (k : string) :
  k <> "position" ->
  CleanContactData.clean_contact_info ci !! k = ci !! k.
Proof.
  intros N. unfold CleanContactData.clean_contact_info.
  destruct (ci !! "position"); [|reflexivity].
  now rewrite lookup_insert_ne.
Qed.

Lemma cleaned_plain (data : list item) :
  plain_record_keys data -> plain_record_keys (CleanData.cleaned_data data).
Proof.
  intros R d m Hd Hm. unfold CleanData.cleaned_data in Hd.
  apply in_flat_map in Hd as (d0 & I0 & Hd).
  unfold CleanData.clean_item in Hd.
  destruct (contact_info d0) as [ci|] eqn:E; [|destruct Hd].
  destruct (success d0 && _); [|destruct Hd].
  destruct Hd as [<-|[]]. cbn [contact_info] in Hm. injection Hm as <-.
  destruct (R d0 ci I0 E) as [R1 R2].
  now rewrite !clean_contact_info_other_key by discriminate.
Qed.

(** X13: the CSV step of [clean_contact_data] never stops half-way.  It
    writes nothing when no record is kept; otherwise it writes the
    header, made of the two record columns and the sorted fields of the
    kept records, and for each kept record, in order, the row of its
    name, its identifier and its value of every field.  The records of
    failed extractions, on which the dict methods would raise, have been
    filtered out. *)
Theorem final_csv_is_complete (data : list item) :
  plain_record_keys data ->
  CleanData.final_csv data
  = match CleanData.cleaned_data data with
    | [] => NothingWritten
    | cleaned =>
        Written
          ((["company_name"; "npri_id"]
            ++ sorted (elements (CleanData.kept_fields cleaned)))
           :: map (record_cells (CleanData.kept_fields cleaned)) cleaned)
          true
    end.
Proof.
  intros R. apply cleaned_plain in R.
  unfold CleanData.final_csv.
  assert (forall d, In d (CleanData.cleaned_data data) ->
                    exists ci, contact_info d = Some ci) as K.
  { intros d Hd. apply in_flat_map in Hd as (d0 & _ & Hd).
    destruct (clean_item_kept d0 d Hd) as (_ & ci & E & _). now exists ci. }
  destruct (CleanData.cleaned_data data) as [|d l]; [reflexivity|].
  set (cleaned := d :: l) in *.
  rewrite (final_fields_fold cleaned ∅)
    by (intros x Hx; destruct (K x Hx) as [ci ->]; discriminate).
  fold (CleanData.kept_fields cleaned).
  set (fields := CleanData.kept_fields cleaned).
  assert (forall key, (forall d' m, In d' cleaned ->
                         contact_info d' = Some m -> m !! key = None) ->
                      key ∉ fields) as Fresh.
  { intros key N H. apply fold_info_elem in H as [H|(d' & I & H)];
      [set_solver|].
    destruct (K d' I) as [m Em]. unfold info in H. rewrite Em in H.
    apply elem_of_dom in H as [v H]. rewrite (N d' m I Em) in H.
    discriminate. }
  rewrite (write_rows_all _ (record_cells fields)); [reflexivity|].
  intros x Hx. destruct (K x Hx) as [ci Ex].
  unfold CleanData.row_of. rewrite Ex. eexists. split; [reflexivity|].
  apply record_row_cells.
  - apply Fresh. intros d' m I Em. now destruct (R d' m I Em).
  - apply Fresh. intros d' m I Em. now destruct (R d' m I Em).
  - intros k. unfold info. now rewrite Ex.
  - intros k. now rewrite in_sorted, <- list_elem_of_In, elem_of_elements.
Qed.

Lemma final_csv_is_complete_witness :
  CleanData.final_csv [found_item; failed_item; late_item]
  = Written
      [["company_name"; "npri_id"; "email"; "phone"];
       ["Pine Cliff Energy Ltd"; "1368"; ""; "403-555-0199"];
       ["Signalta Resources Ltd"; "15098"; "info@signalta.example"; ""]]
      true.
Proof.
  rewrite (final_csv_is_complete [found_item; failed_item; late_item]).
  - vm_compute. reflexivity.
  - intros d m [<-|[<-|[<-|[]]]] [= <-]; split; reflexivity.
Defined.

Lemma first_failed (l : list item) (d : item) :
  In d l -> contact_info d = None ->
  exists pre failed post,
    l = pre ++ failed :: post /\ contact_info failed = None /\
    forall x, In x pre -> contact_info x <> None.
Proof.
  induction l as [|a l IH]; intros Hin Hd; [destruct Hin|].
  destruct (contact_info a) as [ci|] eqn:E.
  - destruct Hin as [->|Hin]; [congruence|].
    destruct (IH Hin Hd) as (pre & failed & post & -> & F & P).
    exists (a :: pre), failed, post. split; [reflexivity|].
    split; [exact F|]. intros x [<-|Hx]; [congruence|now apply P].
  - exists [], a, l. split; [reflexivity|]. split; [exact E|].
    intros x [].
Qed.

Lemma scraped_dict_not_empty (s : Selenium.session)
    (ci : gmap string string) :
  ExtractContactInfo.scrape_contact_info_selenium s = Some ci -> ci <> ∅.
Proof.
  destruct s as [| |d]; try discriminate.
  cbn [ExtractContactInfo.scrape_contact_info_selenium].
  unfold ExtractContactInfo.finish.
  destruct (decide (ExtractContactInfo.collect d = ∅)); [discriminate|].
  now intros [= <-].
Qed.

Lemma forallb_neg {A : Type} (p : A -> bool) (l : list A) :
  forallb p l = false -> exists x, In x l /\ p x = false.
Proof.
  induction l as [|a l IH]; [discriminate|].
  cbn [forallb]. destruct (p a) eqn:E.
  - intros H. destruct (IH H) as (x & Hx & Px). exists x.
    split; [now right|exact Px].
  - intros _. exists a. split; [now left|exact E].
Qed.

Lemma fold_add_fields_failures (l : list item) (acc : gset string) :
  (forall d, In d l -> contact_info d = None) ->
  fold_left add_fields l acc = acc.
Proof.
  revert acc. induction l as [|a l IH]; intros acc H; [reflexivity|].
  cbn [fold_left]. unfold add_fields at 2.
  rewrite (H a) by now left. apply IH. intros d Hd. apply H. now right.
Qed.

Lemma all_fields_of_failures (l : list item) :
  (forall d, In d l -> contact_info d = None) -> all_fields l = ∅.
Proof. apply fold_add_fields_failures. Qed.

(** X21: the CSV of a batch of [extract_contact_info.py] is written to
    its end exactly when the extractions of the batch all succeed or
    all fail.  With one success and one failure in the batch the
    writing stops at the first failed record, and the file holds fewer
    rows than the batch has companies. *)
Theorem mixed_batch_truncates_csv
    (runs : list (string * string * Selenium.session)) :
  runs <> [] ->
  (ExtractMain.completed
     (SaveCsv.save_contact_info_to_csv (ExtractMain.contact_data runs))
   = forallb (fun d => success d) (ExtractMain.contact_data runs)
     || forallb (fun d => negb (success d)) (ExtractMain.contact_data runs)) /\
  (ExtractMain.completed
     (SaveCsv.save_contact_info_to_csv (ExtractMain.contact_data runs))
   = false ->
   length (ExtractMain.data_rows
             (SaveCsv.save_contact_info_to_csv (ExtractMain.contact_data runs)))
   < length runs).
Proof.
  intros NE.
  set (data := ExtractMain.contact_data runs).
  assert (length data = length runs) as Len by apply length_map.
  assert (forall d ci, In d data -> contact_info d = Some ci -> ci <> ∅)
    as Full.
  { intros d ci Hd Hci. apply in_map_iff in Hd as (run & <- & _).
    now apply scraped_dict_not_empty in Hci. }
  assert (forall d, In d data ->
                    success d = match contact_info d with
                                | Some _ => true | None => false end) as Flag.
  { intros d Hd. apply in_map_iff in Hd as (run & <- & _). reflexivity. }
  assert (data <> []) as NEd.
  { intros E. apply NE. apply length_zero_iff_nil.
    rewrite <- Len, E. reflexivity. }
  destruct (forallb (fun d => success d) data) eqn:AllS.
  { (* every extraction succeeded *)
    cbn [orb]. rewrite forallb_forall in AllS.
    unfold SaveCsv.save_contact_info_to_csv.
    destruct data as [|d0 l0] eqn:ED; [congruence|]. rewrite <- ED in *.
    rewrite (write_rows_all _
               (fun d => csv_row (SaveCsv.fieldnames data)
                           (fill (elements (all_fields data))
                              (get_field (info d))
                              (<["npri_id" := npri_id d]>
                                 (<["company_name" := company_name d]> ∅))))).
    - split; [reflexivity|discriminate].
    - intros d Hd. unfold SaveCsv.row_of, info.
      specialize (AllS d Hd). rewrite (Flag d Hd) in AllS.
      destruct (contact_info d); [now eexists|discriminate]. }
  destruct (forallb (fun d => negb (success d)) data) eqn:AllF.
  { (* every extraction failed *)
    cbn [orb]. rewrite forallb_forall in AllF.
    assert (forall d, In d data -> contact_info d = None) as N.
    { intros d Hd. specialize (AllF d Hd). rewrite (Flag d Hd) in AllF.
      now destruct (contact_info d). }
    unfold SaveCsv.save_contact_info_to_csv.
    destruct data as [|d0 l0] eqn:ED; [congruence|]. rewrite <- ED in *.
    rewrite (all_fields_of_failures data N), elements_empty.
    rewrite (write_rows_all _
               (fun d => csv_row (SaveCsv.fieldnames data)
                           (<["npri_id" := npri_id d]>
                              (<["company_name" := company_name d]> ∅)))).
    - split; [reflexivity|discriminate].
    - intros d Hd. unfold SaveCsv.row_of. rewrite (N d Hd). now eexists. }
  (* one of each *)
  cbn [orb].
  apply forallb_neg in AllS as (f & Hf & Sf).
  apply forallb_neg in AllF as (h & Hh & Sh).
  apply negb_false_iff in Sh.
  rewrite (Flag f Hf) in Sf. rewrite (Flag h Hh) in Sh.
  destruct (contact_info f) eqn:Ef; [discriminate|].
  destruct (contact_info h) as [ci|] eqn:Eh; [|discriminate].
  destruct (first_failed data f Hf Ef) as (pre & failed & post & E & F & P).
  clearbody data. subst data.
  destruct (all_fields_not_empty _ _ _ Hh Eh (Full h ci Hh Eh))
    as (k & ks & Ek).
  destruct (csv_stops_with_fields pre post failed k ks F P Ek)
    as (rows & -> & L).
  cbn. split; [reflexivity|]. intros _.
  rewrite L, <- Len, length_app. cbn. lia.
Qed.

Lemma mixed_batch_truncates_csv_witness :
  ExtractMain.completed
    (SaveCsv.save_contact_info_to_csv (ExtractMain.contact_data mixed_runs))
  = false /\
  length (ExtractMain.data_rows
            (SaveCsv.save_contact_info_to_csv
               (ExtractMain.contact_data mixed_runs)))
  < length mixed_runs.
Proof.
  assert (mixed_runs <> []) as NE by discriminate.
  destruct (mixed_batch_truncates_csv mixed_runs NE) as [C R].
  assert (ExtractMain.completed
            (SaveCsv.save_contact_info_to_csv
               (ExtractMain.contact_data mixed_runs)) = false) as H.
  { rewrite C. vm_compute. reflexivity. }
  exact (conj H (R H)).
Defined.

End Exports.

(** ** The keys of the dicts *)

Module KeySets.
Import Text Re Patterns Selenium Files Shapes MoreShapes ContactData.
Import MapFacts Validation MoreScenarios.

Lemma scrape_collect_keys (d : Driver) :
  shaped (key_among scrape_keys) (ExtractContactInfo.collect d).
Proof.
  unfold ExtractContactInfo.collect.
  destruct (page_source d) as [all_text|]; [|apply shaped_empty].
  assert (shaped (key_among scrape_keys)
            (ExtractContactInfo.method1 all_text ∅)) as H1.
  { unfold ExtractContactInfo.method1.
    apply (fold_left_preserves (shaped (key_among scrape_keys)));
      [|apply shaped_empty].
    intros a b Hb Ha. unfold ExtractContactInfo.labeled_step.
    destruct (search true b.2 all_text); [|easy].
    apply shaped_insert; [easy|]. unfold key_among, scrape_keys.
    simpl in Hb. destruct Hb as [<-|[<-|[<-|[<-|[<-|[]]]]]]; cbn; tauto. }
  assert (shaped (key_among scrape_keys)
            (ExtractContactInfo.method2 d
               (ExtractContactInfo.method1 all_text ∅))) as H2.
  { unfold ExtractContactInfo.method2.
    destruct (find_elements d _) as [els|]; [|easy].
    set (ci := match els with [] => _ | _ :: _ => _ end).
    assert (shaped (key_among scrape_keys) ci) as Hci.
    { unfold ci. destruct els; [easy|].
      apply shaped_insert; [easy|]. cbv. tauto. }
    destruct (find_elements d _) as [[|e es]|]; try easy.
    destruct (ExtractContactInfo.employees_value e); [|easy].
    apply shaped_insert; [easy|]. cbv. tauto. }
  revert H2. generalize (ExtractContactInfo.method2 d
                           (ExtractContactInfo.method1 all_text ∅)).
  intros ci Hci. unfold ExtractContactInfo.method3.
  assert (forall key literal (a a' : gmap string string),
            In key scrape_keys -> shaped (key_among scrape_keys) a ->
            ExtractContactInfo.literal_step d key literal a = Some a' ->
            shaped (key_among scrape_keys) a') as L.
  { intros key literal a a' K Ha. unfold ExtractContactInfo.literal_step.
    destruct (find_elements d _) as [[|e es]|]; intros [= <-]; [easy|].
    now apply shaped_insert. }
  destruct (ExtractContactInfo.literal_step d "name" _ ci) as [ci1|] eqn:E1;
    [|easy].
  apply L in E1; [|cbv; tauto|easy].
  destruct (ExtractContactInfo.literal_step d "phone" _ ci1) as [ci2|] eqn:E2;
    [|easy].
  apply L in E2; [|cbv; tauto|easy].
  destruct (ExtractContactInfo.literal_step d "email" _ ci2) as [ci3|] eqn:E3;
    [|easy].
  apply L in E3; [easy|cbv; tauto|easy].
Qed.

Lemma improved_after4_keys (npri_id page_source : string) :
  shaped (key_among later_keys)
    (ImprovedContactExtractor.after4 npri_id page_source).
Proof.
  assert (shaped (key_among later_keys)
            (ImprovedContactExtractor.after1 npri_id page_source)) as H1.
  { unfold ImprovedContactExtractor.after1, ImprovedContactExtractor.method1.
    destruct (String.eqb npri_id "1368"); [|apply shaped_empty].
    apply (fold_left_preserves (shaped (key_among later_keys)));
      [|apply shaped_empty].
    intros a b Hin Ha. unfold ImprovedContactExtractor.known_step.
    destruct (search true b.2 page_source) as [m|]; [|easy].
    simpl in Hin.
    destruct Hin as [<-|[<-|[<-|[<-|[<-|[<-|[<-|[]]]]]]]];
      cbn [fst snd String.eqb Ascii.eqb Bool.eqb];
      (apply shaped_insert; [easy|]); cbv; tauto. }
  assert (shaped (key_among later_keys)
            (ImprovedContactExtractor.after2 npri_id page_source)) as H2.
  { unfold ImprovedContactExtractor.after2, ImprovedContactExtractor.method2.
    apply (fold_left_preserves (shaped (key_among later_keys))); [|exact H1].
    intros a b Hin Ha. unfold ImprovedContactExtractor.generic_step.
    destruct (a !! b.1); [easy|].
    destruct (search true b.2 page_source); [|easy].
    apply shaped_insert; [easy|].
    simpl in Hin. destruct Hin as [<-|[<-|[<-|[<-|[<-|[]]]]]]; cbv; tauto. }
  assert (shaped (key_among later_keys)
            (ImprovedContactExtractor.after3 npri_id page_source)) as H3.
  { unfold ImprovedContactExtractor.after3, ImprovedContactExtractor.method3.
    destruct (_ !! "contact_name"); [easy|].
    destruct (ImprovedContactExtractor.first_name _ _); [|easy].
    apply shaped_insert; [easy|]. cbv. tauto. }
  unfold ImprovedContactExtractor.after4, ImprovedContactExtractor.method4.
  destruct (_ !! "position"); [easy|].
  destruct (ImprovedContactExtractor.first_position _ _); [|easy].
  apply shaped_insert; [easy|]. cbv. tauto.
Qed.

Lemma enhanced_collect_keys (page_source : string) :
  shaped (key_among later_keys) (EnhancedContactExtractor.collect page_source).
Proof.
  unfold EnhancedContactExtractor.collect.
  apply (fold_left_preserves (shaped (key_among later_keys)));
    [|apply shaped_empty].
  intros a b Hin Ha. unfold EnhancedContactExtractor.enhanced_step.
  destruct (findall true b.2 page_source); [easy|].
  apply shaped_insert; [easy|].
  simpl in Hin.
  destruct Hin as [<-|[<-|[<-|[<-|[<-|[<-|[<-|[]]]]]]]]; cbv; tauto.
Qed.

(** X22: the extractors store under seven keys only, whatever the page:
    [scrape_contact_info_selenium] under name, position, phone, email,
    language, business_number and employees; the improved and the
    enhanced extractor under the same with contact_name for name. *)
Theorem extractors_store_known_keys :
  (forall (d : Driver) (k v : string),
     ExtractContactInfo.collect d !! k = Some v -> In k scrape_keys) /\
  (forall (npri_id page_source k v : string),
     ImprovedContactExtractor.after4 npri_id page_source !! k = Some v ->
     In k later_keys) /\
  (forall (page_source k v : string),
     EnhancedContactExtractor.collect page_source !! k = Some v ->
     In k later_keys).
Proof.
  split; [|split].
  - intros d. apply scrape_collect_keys.
  - intros npri_id page_source. apply improved_after4_keys.
  - intros page_source. apply enhanced_collect_keys.
Qed.

Lemma batch_plain_keys (runs : list (string * string * session)) :
  plain_keys (ExtractMain.contact_data runs).
Proof.
  intros d m Hd Hm. apply in_map_iff in Hd as (run & <- & _).
  cbn [contact_info ExtractMain.result_of] in Hm.
  destruct run.2 as [| |drv]; try discriminate.
  cbn [ExtractContactInfo.scrape_contact_info_selenium] in Hm.
  unfold ExtractContactInfo.finish in Hm.
  destruct (decide (ExtractContactInfo.collect drv = ∅)); [discriminate|].
  injection Hm as <-.
  pose proof (scrape_collect_keys drv) as K.
  repeat split.
  - destruct (_ !! "company_name") eqn:E; [|reflexivity].
    apply K in E. cbv in E. intuition discriminate.
  - destruct (_ !! "npri_id") eqn:E; [|reflexivity].
    apply K in E. cbv in E. intuition discriminate.
  - destruct (_ !! "success") eqn:E; [|reflexivity].
    apply K in E. cbv in E. intuition discriminate.
Qed.

(** X23: [convert_json_to_csv] on the records of a batch of
    [extract_contact_info.py] writes a row for every company, whether
    its extraction succeeded or not. *)
Theorem json_csv_covers_batch (runs : list (string * string * session)) :
  runs <> [] ->
  JsonToCsv.convert_json_to_csv (ExtractMain.contact_data runs)
  = Written (JsonToCsv.fieldnames (ExtractMain.contact_data runs)
             :: map (json_cells (ExtractMain.contact_data runs))
                  (ExtractMain.contact_data runs)) true.
Proof.
  intros NE. pose proof (batch_plain_keys runs) as P.
  destruct runs as [|r rs]; [congruence|].
  cbn [ExtractMain.contact_data map] in *.
  unfold JsonToCsv.convert_json_to_csv.
  rewrite (Exports.write_rows_all _
             (json_cells (ExtractMain.result_of r
                          :: map ExtractMain.result_of rs)));
    [reflexivity|].
  intros d _. now apply Exports.json_row_cells.
Qed.

Lemma json_csv_covers_batch_witness :
  JsonToCsv.convert_json_to_csv (ExtractMain.contact_data mixed_runs)
  = Written (JsonToCsv.fieldnames (ExtractMain.contact_data mixed_runs)
             :: map (json_cells (ExtractMain.contact_data mixed_runs))
                  (ExtractMain.contact_data mixed_runs)) true.
Proof. apply json_csv_covers_batch. discriminate. Defined.

End KeySets.

(** ** The results file, written and read back *)

Module FileFacts.
Import Text Files TextFile ProcessAllCompanies ReadNpriIds TextFacts.
Import MoreScenarios.

(** *** Stripping at the two ends *)

Lemma lstrip_l_spaces (l : list ascii) :
  forallb is_space l = true -> lstrip_l l = [].
Proof.
  induction l as [|c t IH]; [reflexivity|].
  cbn [forallb lstrip_l]. intros H. apply andb_true_iff in H as [-> H].
  now apply IH.
Qed.

Lemma lstrip_l_app (a b : list ascii) :
  lstrip_l (a ++ b)
  = if forallb is_space a then lstrip_l b else lstrip_l a ++ b.
Proof.
  induction a as [|c a IH]; [reflexivity|].
  cbn [app lstrip_l forallb]. destruct (is_space c); [exact IH|reflexivity].
Qed.

Lemma forallb_rev (P : ascii -> bool) (l : list ascii) :
  forallb P (rev l) = forallb P l.
Proof.
  induction l as [|c t IH]; [reflexivity|].
  cbn [rev forallb]. rewrite forallb_app, IH. cbn [forallb].
  rewrite andb_true_r. apply andb_comm.
Qed.

Lemma rstrip_l_app (a b : list ascii) :
  rstrip_l (a ++ b)
  = if forallb is_space b then rstrip_l a else a ++ rstrip_l b.
Proof.
  unfold rstrip_l. rewrite rev_app_distr, lstrip_l_app, forallb_rev.
  destruct (forallb is_space b); [reflexivity|].
  now rewrite rev_app_distr, rev_involutive.
Qed.

Lemma rstrip_l_spaces (l : list ascii) :
  forallb is_space l = true -> rstrip_l l = [].
Proof.
  intros H. unfold rstrip_l. rewrite lstrip_l_spaces; [reflexivity|].
  now rewrite forallb_rev.
Qed.

Lemma rstrip_l_cons (c : ascii) (t : list ascii) :
  is_space c = false -> rstrip_l (c :: t) = c :: rstrip_l t.
Proof.
  intros N. change (c :: t) with ([c] ++ t). rewrite rstrip_l_app.
  destruct (forallb is_space t) eqn:E.
  - rewrite (rstrip_l_spaces t E). unfold rstrip_l. cbn. now rewrite N.
  - reflexivity.
Qed.

Lemma rstrip_l_idem (l : list ascii) : rstrip_l (rstrip_l l) = rstrip_l l.
Proof. unfold rstrip_l. now rewrite rev_involutive, lstrip_l_idem. Qed.

(** Stripping on the left and on the right commute. *)
Lemma lstrip_rstrip (l : list ascii) :
  lstrip_l (rstrip_l l) = rstrip_l (lstrip_l l).
Proof.
  induction l as [|c t IH]; [reflexivity|].
  cbn [lstrip_l]. destruct (is_space c) eqn:S.
  - change (c :: t) with ([c] ++ t). rewrite rstrip_l_app.
    destruct (forallb is_space t) eqn:E.
    + rewrite (lstrip_l_spaces t E).
      rewrite rstrip_l_spaces by (cbn; now rewrite S). reflexivity.
    + cbn [app lstrip_l]. now rewrite S.
  - rewrite (rstrip_l_cons c t S). cbn [lstrip_l]. now rewrite S.
Qed.

Lemma strip_l_rstrip (l : list ascii) : strip_l (rstrip_l l) = strip_l l.
Proof. unfold strip_l. now rewrite lstrip_rstrip, rstrip_l_idem. Qed.

Lemma strip_l_lstrip (l : list ascii) : strip_l (lstrip_l l) = strip_l l.
Proof. unfold strip_l. now rewrite lstrip_l_idem. Qed.

Lemma strip_l_space_cons (c : ascii) (t : list ascii) :
  is_space c = true -> strip_l (c :: t) = strip_l t.
Proof. intros S. unfold strip_l. cbn [lstrip_l]. now rewrite S. Qed.

(** A line of the form  name: rest  with its newline, stripped. *)
Lemma strip_l_labelled (name rest : list ascii) :
  strip_l (name ++ ":"%char :: rest ++ ["010"%char])
  = lstrip_l name ++ ":"%char :: rstrip_l rest.
Proof.
  unfold strip_l.
  assert (lstrip_l (name ++ ":"%char :: rest ++ ["010"%char])
          = lstrip_l name ++ ":"%char :: rest ++ ["010"%char]) as ->.
  { rewrite lstrip_l_app. destruct (forallb is_space name) eqn:E;
      [|reflexivity].
    now rewrite (lstrip_l_spaces name E). }
  rewrite rstrip_l_app. cbn [forallb]. cbn [andb].
  change (is_space ":") with false. cbn [andb]. f_equal.
  rewrite rstrip_l_cons by reflexivity. f_equal.
  rewrite rstrip_l_app. reflexivity.
Qed.

(** *** One line *)

Lemma contains_colon_free (l : list ascii) :
  forallb not_colon l = true -> contains_l [":"%char] l = false.
Proof.
  induction l as [|c t IH]; [reflexivity|].
  cbn [forallb contains_l starts_with]. intros H.
  apply andb_true_iff in H as [H1 H2]. unfold not_colon in H1.
  apply negb_true_iff in H1. rewrite H1. cbn [andb orb]. now apply IH.
Qed.

Lemma contains_colon_at (a b : list ascii) :
  contains_l [":"%char] (a ++ ":"%char :: b) = true.
Proof.
  induction a as [|c a IH]; [reflexivity|].
  cbn [app contains_l]. rewrite IH. apply orb_true_r.
Qed.

(** A prefix without a colon is looked for in the name only. *)
Lemma starts_with_before_colon (p n r : list ascii) :
  forallb not_colon p = true ->
  starts_with ascii_eqb p (n ++ ":"%char :: r) = starts_with ascii_eqb p n.
Proof.
  revert n. induction p as [|a p IH]; intros n H; [now destruct n|].
  cbn [forallb] in H. apply andb_true_iff in H as [Ha Hp].
  destruct n as [|b n]; cbn [app starts_with].
  - unfold not_colon in Ha. apply negb_true_iff in Ha.
    unfold ascii_eqb in *. rewrite Ascii.eqb_sym in Ha. now rewrite Ha.
  - now rewrite IH.
Qed.

Lemma split1_aux_colon (cur n r : list ascii) :
  forallb not_colon n = true ->
  split1_aux [":"%char] cur (n ++ ":"%char :: r) = [rev cur ++ n; r].
Proof.
  revert cur. induction n as [|c n IH]; intros cur H.
  - cbn. now rewrite app_nil_r.
  - cbn [forallb] in H. apply andb_true_iff in H as [Hc Hn].
    unfold not_colon in Hc. apply negb_true_iff in Hc.
    cbn [app split1_aux starts_with]. rewrite Hc. cbn [andb].
    rewrite (IH _ Hn). cbn [rev]. now rewrite <- app_assoc.
Qed.

Lemma forallb_lstrip_l (P : ascii -> bool) (l : list ascii) :
  forallb P l = true -> forallb P (lstrip_l l) = true.
Proof.
  intros H. destruct (lstrip_l_suffix l) as [p E]. rewrite E in H.
  rewrite forallb_app in H. now apply andb_true_iff in H as [_ H].
Qed.

(** A line without a colon gives no pair. *)
Lemma parse_line_no_colon (excluded : list string) (l : list ascii) :
  forallb not_colon l = true -> parse_line excluded (str l) = [].
Proof.
  intros H. unfold parse_line, strip, contains. rewrite !chars_str.
  change (chars ":") with [":"%char].
  rewrite contains_colon_free; [reflexivity|].
  now apply forallb_strip_l.
Qed.

(** A line  name: rest  gives the name and the rest, both stripped, when
    the rest is a number and the line begins with no excluded prefix. *)
Lemma parse_line_labelled (excluded : list string) (name rest : list ascii) :
  forallb no_colon excluded = true ->
  forallb not_colon name = true ->
  parse_line excluded (str (name ++ ":"%char :: rest ++ ["010"%char]))
  = if negb (existsb (startswith (str (lstrip_l name))) excluded)
       && isdigit_l (strip_l rest)
    then [(str (strip_l name), str (strip_l rest))]
    else [].
Proof.
  intros Hex Hn. unfold parse_line, strip, contains, split1, isdigit.
  rewrite !chars_str, strip_l_labelled.
  change (chars ":") with [":"%char].
  rewrite contains_colon_at. cbn [andb].
  assert (existsb
            (startswith (str (lstrip_l name ++ ":"%char :: rstrip_l rest)))
            excluded
          = existsb (startswith (str (lstrip_l name))) excluded) as ->.
  { induction excluded as [|p ps IH]; [reflexivity|].
    cbn [forallb] in Hex. apply andb_true_iff in Hex as [Hp Hps].
    cbn [existsb]. rewrite (IH Hps). f_equal.
    unfold startswith. rewrite !chars_str.
    now apply starts_with_before_colon. }
  destruct (existsb _ excluded); [reflexivity|]. cbn [negb andb].
  rewrite split1_aux_colon by now apply forallb_lstrip_l.
  cbn [rev app map]. rewrite !chars_str.
  now rewrite strip_l_lstrip, strip_l_rstrip.
Qed.

(** *** The lines of a text *)

Lemma readlines_aux_line (cur body rest : list ascii) :
  forallb not_break body = true ->
  readlines_aux cur (body ++ "010"%char :: rest)
  = (rev cur ++ body ++ ["010"%char]) :: readlines_aux [] rest.
Proof.
  revert cur. induction body as [|c body IH]; intros cur H.
  - cbn. reflexivity.
  - cbn [forallb] in H. apply andb_true_iff in H as [Hc Hb].
    unfold not_break in Hc. apply andb_true_iff in Hc as [C1 C2].
    apply negb_true_iff in C1, C2.
    cbn [app readlines_aux]. rewrite C1, C2, (IH _ Hb).
    cbn [rev]. now rewrite <- !app_assoc.
Qed.

(** *** The digits of a number *)

Lemma digit_char_is_digit (n : nat) : is_digit (digit_char (n mod 10)) = true.
Proof.
  assert (n mod 10 < 10) as H by (apply Nat.mod_upper_bound; lia).
  destruct (n mod 10) as [|[|[|[|[|[|[|[|[|[|k]]]]]]]]]];
    try reflexivity; lia.
Qed.

Lemma decimal_digits (fuel n : nat) (acc : list ascii) :
  forallb is_digit acc = true -> forallb is_digit (decimal fuel n acc) = true.
Proof.
  revert n acc. induction fuel as [|fuel IH]; intros n acc H; [exact H|].
  cbn [decimal].
  assert (forallb is_digit (digit_char (n mod 10) :: acc) = true) as H'.
  { cbn [forallb]. now rewrite digit_char_is_digit. }
  destruct (n / 10 =? 0)%nat; [exact H'|now apply IH].
Qed.

Lemma digit_is_plain (c : ascii) :
  is_digit c = true -> not_colon c && not_break c = true.
Proof.
  apply (ascii_implies is_digit (fun c => not_colon c && not_break c)).
  vm_compute. reflexivity.
Qed.

Lemma str_nat_plain (n : nat) :
  forallb not_colon (chars (str_nat n)) = true /\
  forallb not_break (chars (str_nat n)) = true.
Proof.
  unfold str_nat. rewrite chars_str.
  pose proof (decimal_digits (S n) n [] eq_refl) as H.
  split; apply (Validation.forallb_impl is_digit); try exact H;
    intros c Hc; apply digit_is_plain in Hc;
    now apply andb_true_iff in Hc.
Qed.

(** *** The file *)

Lemma chars_concat (l : list string) :
  chars (String.concat "" l) = concat (map chars l).
Proof.
  induction l as [|s l IH]; [reflexivity|].
  cbn [map concat]. rewrite <- IH. destruct l as [|s' l].
  - cbn. now rewrite app_nil_r.
  - change (String.concat "" (s :: s' :: l))
      with (s ++ "" ++ String.concat "" (s' :: l))%string.
    now rewrite Normalization.chars_app.
Qed.

(** The characters of a result's line: the name, a colon, the rest and
    the newline. *)
Lemma result_line_chars (r : result) :
  exists rest,
    chars (result_line r) = chars r.1.1 ++ ":"%char :: rest ++ ["010"%char] /\
    (fits_line r = true -> forallb not_break rest = true) /\
    isdigit_l (strip_l rest)
    = match r.1.2 with
      | Some npri_id =>
          negb (String.eqb npri_id "") && isdigit (strip npri_id)
      | None => false
      end /\
    (found r = true -> strip_l rest = strip_l (chars (default "" r.1.2))).
Proof.
  assert (forall name status : string,
            exists rest,
              chars (name ++ ": NOT FOUND (" ++ status ++ ")" ++ eol)
              = chars name ++ ":"%char :: rest ++ ["010"%char] /\
              (one_line status = true -> forallb not_break rest = true) /\
              isdigit_l (strip_l rest) = false) as NF.
  { intros name status.
    exists (chars " NOT FOUND (" ++ chars status ++ [")"%char]).
    rewrite !Normalization.chars_app. cbn [chars list_ascii_of_string app].
    split; [now rewrite <- !app_assoc|]. split.
    - intros H. cbn [forallb]. rewrite forallb_app. unfold one_line in H.
      rewrite H. reflexivity.
    - rewrite strip_l_space_cons by reflexivity.
      unfold strip_l. cbn [lstrip_l]. change (is_space "N") with false.
      cbv iota. rewrite rstrip_l_cons by reflexivity. reflexivity. }
  destruct r as [[name [npri_id|]] status]; cbn [fst snd result_line found].
  - destruct (String.eqb_spec npri_id "") as [->|N].
    + destruct (NF name status) as (rest & E & B & D). exists rest.
      split; [exact E|]. split; [|split; [exact D|discriminate]].
      unfold fits_line. intros H. apply B.
      now apply andb_true_iff in H as [_ H].
    + exists (" "%char :: chars npri_id).
      rewrite !Normalization.chars_app. cbn [chars list_ascii_of_string app].
      split; [reflexivity|]. split; [|split].
      * unfold fits_line. intros H. apply andb_true_iff in H as [H _].
        apply andb_true_iff in H as [_ H]. cbn [forallb]. exact H.
      * rewrite strip_l_space_cons by reflexivity.
        unfold isdigit, strip. now rewrite chars_str.
      * intros _. now apply strip_l_space_cons.
  - destruct (NF name status) as (rest & E & B & D). exists rest.
    split; [exact E|]. split; [|split; [exact D|discriminate]].
    unfold fits_line. intros H. apply B.
    now apply andb_true_iff in H as [_ H].
Qed.

(** What a reader gets from the line of one result. *)
Lemma parse_result_line (excluded : list string) (r : result) :
  forallb no_colon excluded = true -> fits_line r = true ->
  parse_line excluded (result_line r) = read_back excluded r.
Proof.
  intros Hex Hr.
  destruct (result_line_chars r) as (rest & E & _ & D & S).
  rewrite <- (str_chars (result_line r)), E.
  assert (forallb not_colon (chars r.1.1) = true) as Hn.
  { destruct r as [[name npri_id] status]. unfold fits_line in Hr.
    apply andb_true_iff in Hr as [Hr _]. apply andb_true_iff in Hr as [Hr _].
    now apply andb_true_iff in Hr as [_ Hr]. }
  rewrite (parse_line_labelled excluded _ rest Hex Hn), D.
  destruct r as [[name [npri_id|]] status]; cbn [fst snd read_back] in *.
  - unfold lstrip. destruct (String.eqb npri_id "") eqn:N; cbn [negb andb].
    + now rewrite andb_false_r.
    + destruct (negb (existsb _ excluded));
        destruct (isdigit (strip npri_id)); cbn [andb]; try reflexivity.
      unfold strip. rewrite S; [reflexivity|]. unfold found. now rewrite N.
  - now rewrite andb_false_r.
Qed.

Lemma readlines_aux_results (results : list result) (tail : list ascii) :
  forallb fits_line results = true ->
  readlines_aux [] (concat (map chars (map result_line results)) ++ tail)
  = map chars (map result_line results) ++ readlines_aux [] tail.
Proof.
  induction results as [|r rs IH]; intros H; [reflexivity|].
  cbn [forallb] in H. apply andb_true_iff in H as [Hr Hrs].
  cbn [map concat]. rewrite <- app_assoc.
  destruct (result_line_chars r) as (rest & E & B & _).
  rewrite E.
  replace ((chars r.1.1 ++ ":"%char :: rest ++ ["010"%char])
           ++ concat (map chars (map result_line rs)) ++ tail)
    with ((chars r.1.1 ++ ":"%char :: rest)
          ++ "010"%char :: concat (map chars (map result_line rs)) ++ tail)
    by (rewrite <- !app_assoc; cbn [app]; now rewrite <- !app_assoc).
  rewrite readlines_aux_line.
  - cbn [rev app]. rewrite (IH Hrs). f_equal.
    now rewrite <- !app_assoc.
  - rewrite !forallb_app. cbn [forallb]. rewrite (B Hr).
    destruct r as [[name npri_id] status]. unfold fits_line in Hr.
    apply andb_true_iff in Hr as [Hr _]. apply andb_true_iff in Hr as [Hr _].
    apply andb_true_iff in Hr as [Hr _]. unfold one_line in Hr.
    cbn [fst]. now rewrite Hr.
Qed.

Lemma readlines_aux_blank (rest : list ascii) :
  readlines_aux [] ("010"%char :: rest) = ["010"%char] :: readlines_aux [] rest.
Proof. reflexivity. Qed.

(** The lines of the results file. *)
Lemma readlines_results_text (results : list result) :
  forallb fits_line results = true ->
  exists heading rule counted successful,
    readlines (results_text results)
    = [heading; rule; eol] ++ map result_line results
      ++ [eol; eol; str counted; str successful] /\
    forallb not_colon (chars heading) = true /\
    forallb not_colon (chars rule) = true /\
    forallb not_colon counted = true /\
    forallb not_colon successful = true.
Proof.
  intros H.
  set (n := chars (str_nat (length results))).
  set (k := chars (str_nat (length (filter found results)))).
  destruct (str_nat_plain (length results)) as [Nc Nb].
  destruct (str_nat_plain (length (filter found results))) as [Kc Kb].
  fold n in Nc, Nb. fold k in Kc, Kb.
  set (counted := chars "Processed " ++ n ++ chars " companies").
  set (successful :=
         chars "Successfully found NPRI IDs for " ++ k ++ chars "/" ++ n
         ++ chars " companies").
  exists ("Company Name and First NPRI ID Results" ++ eol)%string,
    (str (repeat "="%char 50) ++ eol)%string,
    (counted ++ ["010"%char]), (successful ++ ["010"%char]).
  split; [|split; [reflexivity|split; [reflexivity|split]]].
  - unfold readlines, results_text.
    rewrite !Normalization.chars_app, chars_concat.
    change (chars eol) with ["010"%char].
    fold n k.
    replace (chars "Processed " ++ n ++ chars " companies" ++ ["010"%char]
             ++ chars "Successfully found NPRI IDs for " ++ k ++ chars "/"
             ++ n ++ chars " companies" ++ ["010"%char])
      with (counted ++ "010"%char :: successful ++ "010"%char :: [])
      by (unfold counted, successful; now rewrite <- !app_assoc).
    cbn [app].
    rewrite (readlines_aux_line []
               (chars "Company Name and First NPRI ID Results") _ eq_refl).
    rewrite (readlines_aux_line [] (chars (str (repeat "="%char 50))) _
               eq_refl).
    rewrite readlines_aux_blank.
    rewrite (readlines_aux_results results _ H).
    rewrite !readlines_aux_blank.
    rewrite (readlines_aux_line [] counted).
    2:{ unfold counted. rewrite !forallb_app, Nb. reflexivity. }
    rewrite (readlines_aux_line [] successful).
    2:{ unfold successful. rewrite !forallb_app, Nb, Kb. reflexivity. }
    cbn [readlines_aux rev app map]. rewrite !map_app, !map_map.
    cbn [map]. f_equal. f_equal. f_equal. f_equal.
    apply map_ext. intros r. apply str_chars.
  - unfold counted. rewrite !forallb_app, Nc. reflexivity.
  - unfold successful. rewrite !forallb_app, Nc, Kc. reflexivity.
Qed.

Lemma parse_results_text (excluded : list string) (results : list result) :
  forallb no_colon excluded = true -> forallb fits_line results = true ->
  flat_map (parse_line excluded) (readlines (results_text results))
  = flat_map (read_back excluded) results.
Proof.
  intros Hex H.
  destruct (readlines_results_text results H)
    as (heading & rule & counted & successful & -> & H1 & H2 & H3 & H4).
  assert (forall s, forallb not_colon (chars s) = true ->
                    parse_line excluded s = []) as Drop.
  { intros s Hs. rewrite <- (str_chars s). now apply parse_line_no_colon. }
  rewrite !flat_map_app. cbn [flat_map].
  rewrite (Drop heading H1), (Drop rule H2), (Drop eol eq_refl).
  rewrite !(parse_line_no_colon excluded) by assumption.
  cbn [app]. rewrite app_nil_r.
  clear -Hex H. induction results as [|r rs IH]; [reflexivity|].
  cbn [forallb] in H. apply andb_true_iff in H as [Hr Hrs].
  cbn [map flat_map]. now rewrite (parse_result_line _ _ Hex Hr), (IH Hrs).
Qed.

Lemma saved_content (results : list result) (output_file : string)
    (w : world) :
  writable w output_file = true ->
  files (save_results_to_file results output_file w) !! output_file
  = Some (results_text results).
Proof.
  intros H. unfold save_results_to_file, write_file. rewrite H.
  cbn [files]. apply lookup_insert_eq.
Qed.

(** X14: what [read_npri_ids_from_file] reads from the file that
    [save_results_to_file] wrote.  Each result with an identifier comes
    back as the pair of its stripped name and stripped identifier, in
    order, when the identifier is numeric; the heading, the rule and the
    two counting lines give nothing, and neither does a result without
    identifier.  A company whose name begins with "=", "Company Name
    and", "Processed" or "Successfully" is left out. *)
Theorem results_file_is_read_back (results : list result)
    (output_file : string) (w : world) :
  writable w output_file = true ->
  forallb fits_line results = true ->
  read_npri_ids_from_file output_file
    (save_results_to_file results output_file w)
  = flat_map (read_back excluded) results.
Proof.
  intros Hw H. unfold read_npri_ids_from_file.
  rewrite (saved_content _ _ _ Hw).
  now apply parse_results_text.
Qed.

Lemma results_file_is_read_back_witness :
  read_npri_ids_from_file "company_npri_ids.txt"
    (save_results_to_file sample_results "company_npri_ids.txt"
       Scenarios.empty_world)
  = flat_map (read_back excluded) sample_results /\
  flat_map (read_back excluded) sample_results
  = [("Pine Cliff Energy Ltd", "1368"); ("Company X Ltd", "4821")].
Proof.
  split; [|vm_compute; reflexivity].
  apply results_file_is_read_back; vm_compute; reflexivity.
Defined.

(** X15: the same file read by [process_all_companies] of the improved
    extractor, which excludes the lines that begin with "=" or
    "Company": a company whose name begins with "Company" is left out,
    one whose name begins with "Processed" is kept. *)
Theorem results_file_read_by_improved (results : list result) (w : world) :
  writable w "company_npri_ids.txt" = true ->
  forallb fits_line results = true ->
  companies_data (save_results_to_file results "company_npri_ids.txt" w)
  = flat_map (read_back improved_excluded) results.
Proof.
  intros Hw H. unfold companies_data.
  rewrite (saved_content _ _ _ Hw).
  now apply parse_results_text.
Qed.

Lemma results_file_read_by_improved_witness :
  companies_data
    (save_results_to_file sample_results "company_npri_ids.txt"
       Scenarios.empty_world)
  = flat_map (read_back improved_excluded) sample_results /\
  flat_map (read_back improved_excluded) sample_results
  = [("Pine Cliff Energy Ltd", "1368"); ("Processed Foods Inc", "20455")].
Proof.
  split; [|vm_compute; reflexivity].
  apply results_file_read_by_improved; vm_compute; reflexivity.
Defined.

(** *** The companies file *)

(** A line that [readlines] gives has no line break except a newline at
    its end. *)
Lemma readlines_aux_lines (l cur line : list ascii) :
  forallb not_break cur = true -> In line (readlines_aux cur l) ->
  exists body,
    forallb not_break body = true /\
    (line = body ++ ["010"%char] \/ line = body).
Proof.
  revert cur. induction l as [|c t IH]; intros cur Hc H.
  - cbn [readlines_aux] in H. destruct cur as [|a cur]; [destruct H|].
    destruct H as [<-|[]]. exists (rev (a :: cur)).
    split; [now rewrite forallb_rev|now right].
  - cbn [readlines_aux] in H. destruct (ascii_eqb c "010") eqn:E1.
    { apply Ascii.eqb_eq in E1 as ->. destruct H as [<-|H].
      - exists (rev cur). split; [now rewrite forallb_rev|now left].
      - now apply (IH []). }
    destruct (ascii_eqb c "013") eqn:E2.
    { destruct H as [<-|H].
      - exists (rev cur). split; [now rewrite forallb_rev|now left].
      - apply (IH []); [reflexivity|].
        destruct t as [|c' t']; [destruct H|].
        destruct (ascii_eqb c' "010") eqn:E3; [|exact H].
        apply Ascii.eqb_eq in E3 as ->. rewrite readlines_aux_blank.
        now right. }
    apply (IH (c :: cur)); [|exact H].
    cbn [forallb]. unfold not_break at 1. now rewrite E1, E2.
Qed.

Lemma strip_l_newline (body : list ascii) :
  strip_l (body ++ ["010"%char]) = strip_l body.
Proof.
  unfold strip_l. rewrite lstrip_l_app.
  destruct (forallb is_space body) eqn:E.
  - now rewrite (lstrip_l_spaces body E).
  - now rewrite rstrip_l_app.
Qed.

(** X16: a company name that [read_companies_from_file] returns is not
    empty, has no white space at either end and no line break inside,
    whatever the file holds. *)
Theorem company_names_are_clean (filename : string) (w : world)
    (company : string) :
  In company (ReadCompanies.read_companies_from_file filename w) ->
  (0 < len company)%nat /\ strip company = company /\
  one_line company = true.
Proof.
  unfold ReadCompanies.read_companies_from_file.
  destruct (files w !! filename) as [content|]; [|intros []].
  intros H. apply in_flat_map in H as (line & Hl & H).
  destruct (String.eqb_spec (strip line) "") as [_|N]; [destruct H|].
  destruct H as [<-|[]]. split; [|split].
  - destruct (strip line); [easy|]. unfold len. cbn. lia.
  - apply strip_idem.
  - unfold readlines in Hl. apply in_map_iff in Hl as (l & <- & Hl).
    apply readlines_aux_lines in Hl as (body & B & [->| ->]);
      [| |reflexivity].
    + unfold one_line, strip. rewrite !chars_str, strip_l_newline.
      now apply forallb_strip_l.
    + unfold one_line, strip. rewrite !chars_str.
      now apply forallb_strip_l.
Qed.

Lemma company_names_are_clean_witness :
  ReadCompanies.read_companies_from_file "companies.txt" companies_world
  = ["Pine Cliff Energy Ltd"; "Spur Petroleum Ltd"] /\
  (0 < len "Pine Cliff Energy Ltd")%nat /\
  strip "Pine Cliff Energy Ltd" = "Pine Cliff Energy Ltd" /\
  one_line "Pine Cliff Energy Ltd" = true.
Proof.
  assert (ReadCompanies.read_companies_from_file "companies.txt"
            companies_world
          = ["Pine Cliff Energy Ltd"; "Spur Petroleum Ltd"]) as E
    by (vm_compute; reflexivity).
  split; [exact E|].
  apply (company_names_are_clean "companies.txt" companies_world).
  rewrite E. now left.
Defined.

End FileFacts.

(** ** The polling loop on an exact clock *)

Module Polling.
Import Waiter.

(** X17: on a clock without overrun and with content that appears at
    [t0] and stays, the polling loop of [extract_contact_with_progress]
    detects the content at the first of its polls at 5, 10, ..., 30
    seconds that is not before [t0].  The loop sleeps before it looks,
    so content that is there from the start ([t0 = 0]) is seen at 5
    seconds; the detection comes at most 5 seconds after the content
    appeared, and less than 5 seconds after it when it appeared after
    the start.  Content that appears after 30 seconds is not detected
    and the loop ends at 30 seconds. *)
Theorem polling_detects_within_five_seconds (t0 : nat)
    (content_at : nat -> bool) :
  appears_at t0 content_at ->
  (t0 <= 30 ->
   improved_wait exact_sleep content_at
   = (5 * Nat.max 1 ((t0 + 4) / 5), true) /\
   t0 <= fst (improved_wait exact_sleep content_at) /\
   fst (improved_wait exact_sleep content_at) <= t0 + 5 /\
   (1 <= t0 -> fst (improved_wait exact_sleep content_at) < t0 + 5) /\
   (t0 = 0 -> fst (improved_wait exact_sleep content_at) = 5)) /\
  (30 < t0 -> improved_wait exact_sleep content_at = (30, false)).
Proof.
  intros A. unfold improved_wait, exact_sleep. cbn [progress_loop Nat.add].
  assert (forall t, content_at t = (t0 <=? t)%nat) as C.
  { intros t. destruct (t0 <=? t)%nat eqn:E.
    - apply A. now apply Nat.leb_le.
    - destruct (content_at t) eqn:F; [|reflexivity].
      apply A in F. apply Nat.leb_gt in E. lia. }
  rewrite !C.
  assert (forall q, 5 * (q - 1) < t0 -> t0 <= 5 * q -> 1 <= q ->
                    Nat.max 1 ((t0 + 4) / 5) = q) as Q.
  { intros q L U P.
    assert ((t0 + 4) / 5 = q \/ (q = 1 /\ (t0 + 4) / 5 = 0)) as [->| [-> ->]];
      [|lia|reflexivity].
    destruct (Nat.eq_dec t0 0) as [->|N].
    - right. split; [lia|reflexivity].
    - left. symmetry. apply (Nat.div_unique (t0 + 4) 5 q (t0 + 4 - 5 * q));
        lia. }
  assert (t0 = 0 -> Nat.max 1 ((t0 + 4) / 5) = 1) as Z
    by (intros ->; reflexivity).
  destruct (t0 <=? 5)%nat eqn:E1.
  { apply Nat.leb_le in E1. split; [intros _|lia].
    cbn [fst snd].
    destruct (Nat.eq_dec t0 0) as [->|N]; [cbn; repeat split; lia|].
    rewrite (Q 1) by lia. cbn. repeat split; lia. }
  apply Nat.leb_gt in E1.
  destruct (t0 <=? 10)%nat eqn:E2.
  { apply Nat.leb_le in E2. split; [intros _|lia].
    rewrite (Q 2) by lia. cbn. repeat split; lia. }
  apply Nat.leb_gt in E2.
  destruct (t0 <=? 15)%nat eqn:E3.
  { apply Nat.leb_le in E3. split; [intros _|lia].
    rewrite (Q 3) by lia. cbn. repeat split; lia. }
  apply Nat.leb_gt in E3.
  destruct (t0 <=? 20)%nat eqn:E4.
  { apply Nat.leb_le in E4. split; [intros _|lia].
    rewrite (Q 4) by lia. cbn. repeat split; lia. }
  apply Nat.leb_gt in E4.
  destruct (t0 <=? 25)%nat eqn:E5.
  { apply Nat.leb_le in E5. split; [intros _|lia].
    rewrite (Q 5) by lia. cbn. repeat split; lia. }
  apply Nat.leb_gt in E5.
  destruct (t0 <=? 30)%nat eqn:E6.
  { apply Nat.leb_le in E6. split; [intros _|lia].
    rewrite (Q 6) by lia. cbn. repeat split; lia. }
  apply Nat.leb_gt in E6. split; [lia|reflexivity].
Qed.

Lemma polling_detects_within_five_seconds_witness :
  appears_at 12 (fun t => (12 <=? t)%nat) /\
  improved_wait exact_sleep (fun t => (12 <=? t)%nat) = (15, true) /\
  appears_at 0 (fun _ => true) /\
  improved_wait exact_sleep (fun _ => true) = (5, true).
Proof.
  assert (appears_at 12 (fun t => (12 <=? t)%nat)) as A.
  { intros t. apply Nat.leb_le. }
  assert (appears_at 0 (fun _ : nat => true)) as B.
  { intros t. split; [lia|reflexivity]. }
  split; [exact A|]. split.
  - exact (proj1 (proj1 (polling_detects_within_five_seconds 12 _ A)
                    ltac:(lia))).
  - split; [exact B|].
    exact (proj1 (proj1 (polling_detects_within_five_seconds 0 _ B)
                    ltac:(lia))).
Defined.

End Polling.

(** ** The cleaned position *)

Module Cleaning.
Import Text Re Patterns MoreShapes TextFacts ReFacts.

Lemma ws_class (c : ascii) : cls_test false false ws c = is_space c.
Proof. unfold cls_test, set_test, ws. cbn. now rewrite orb_false_r. Qed.

Lemma span_len_ws_cons (c : ascii) (t : list ascii) :
  span_len (cls_test false false ws) None (c :: t)
  = if is_space c
    then S (span_len (cls_test false false ws) None t) else 0.
Proof. cbn [span_len option_map]. now rewrite ws_class. Qed.

Lemma rev_seq_S (m : nat) : rev (seq 1 (S m)) = S m :: rev (seq 1 m).
Proof. rewrite seq_S, rev_app_distr. reflexivity. Qed.

(** r"\s+" matches at a white-space character, up to the end of the
    run, and nowhere else. *)
Lemma ws_match_at (prev : option ascii) (c : ascii) (t : list ascii) :
  match_at false whitespace_run prev (c :: t)
  = if is_space c
    then Some (RMatch
                 (c :: firstn (span_len (cls_test false false ws) None t) t)
                 None)
    else None.
Proof.
  unfold match_at, whitespace_run, plus. cbn [run m_rest].
  rewrite span_len_ws_cons. destruct (is_space c); [|reflexivity].
  unfold counts. replace (S (S _) - 1) with (S (span_len (cls_test false false ws) None t)) by lia.
  rewrite rev_seq_S. cbn [map advance m_pos m_cap Nat.add firstn].
  reflexivity.
Qed.

Lemma span_run (t : list ascii) :
  span_len (cls_test false false ws) None t <= length t /\
  run_of (span_len (cls_test false false ws) None t) t.
Proof.
  induction t as [|c t [L [A B]]]; [now repeat split|].
  rewrite span_len_ws_cons. destruct (is_space c) eqn:E.
  - split; [cbn; lia|]. split; cbn [firstn skipn forallb]; [|exact B].
    now rewrite E.
  - split; [cbn; lia|]. split; [reflexivity|]. cbn. now rewrite E.
Qed.

Lemma sub_ws_spaced (l : list ascii) :
  (forall k prev,
     single_spaced (sub_l false whitespace_run [" "%char] k prev l) = true) /\
  (forall k prev, run_of k l ->
     head_not_space (sub_l false whitespace_run [" "%char] k prev l) = true).
Proof.
  induction l as [|c t [IH1 IH2]]; [now split|].
  assert (forall prev,
            single_spaced (sub_l false whitespace_run [" "%char] 0 prev (c :: t))
            = true) as Z.
  { intros prev. cbn [sub_l]. rewrite ws_match_at.
    destruct (is_space c) eqn:E.
    - destruct (span_run t) as [L R].
      cbn [group0 length app]. rewrite length_firstn, Nat.min_l by exact L.
      replace (S _ - 1) with (span_len (cls_test false false ws) None t) by lia.
      cbn [single_spaced]. rewrite IH1, (IH2 _ _ R). reflexivity.
    - cbn [single_spaced]. now rewrite E, IH1. }
  split.
  - intros [|k] prev; [apply Z|]. cbn [sub_l]. apply IH1.
  - intros [|k] prev [A B].
    + cbn [skipn head_not_space] in B. cbn [sub_l]. rewrite ws_match_at.
      apply negb_true_iff in B. rewrite B. cbn. now rewrite B.
    + cbn [sub_l]. apply IH2. cbn [firstn skipn forallb] in *.
      apply andb_true_iff in A as [_ A]. now split.
Qed.

Lemma single_spaced_app (a b : list ascii) :
  single_spaced (a ++ b) = true ->
  single_spaced a = true /\ single_spaced b = true.
Proof.
  induction a as [|c a IH]; [now split|].
  cbn [app single_spaced]. intros H. apply andb_true_iff in H as [H1 H2].
  destruct (IH H2) as [Ha Hb]. split; [|exact Hb].
  rewrite Ha, andb_true_r.
  destruct (negb (is_space c)); [reflexivity|]. cbn [orb] in *.
  apply andb_true_iff in H1 as [-> H1]. cbn [andb].
  destruct a; [reflexivity|exact H1].
Qed.

Lemma clean_position_spaced (position : string) :
  single_spaced (chars (CleanContactData.clean_position position)) = true.
Proof.
  unfold CleanContactData.clean_position, strip, sub.
  rewrite !chars_str.
  set (l := sub_l false whitespace_run (chars " ") 0 None _).
  assert (single_spaced l = true) as H by apply sub_ws_spaced.
  destruct (strip_l_infix l) as (p & q & E). rewrite E in H.
  apply single_spaced_app in H as [_ H].
  now apply single_spaced_app in H as [H _].
Qed.

(** X18: in a cleaned position every white-space character is a single
    blank between two other characters: runs of white space, line
    breaks and tabs included, have become one blank and none is left at
    either end. *)
Theorem cleaned_position_is_single_spaced (position : string) :
  single_spaced (chars (CleanContactData.clean_position position)) = true /\
  strip (CleanContactData.clean_position position)
  = CleanContactData.clean_position position.
Proof.
  split; [apply clean_position_spaced|].
  unfold CleanContactData.clean_position. apply strip_idem.
Qed.

(** *** Tags *)

Lemma not_gt_class (c : ascii) :
  cls_test false true [CChr ">"] c = not_gt c.
Proof.
  unfold cls_test, set_test, not_gt, is_gt. cbn.
  now rewrite orb_false_r.
Qed.

(** The run of characters that a class repeats over ends at the end of
    the text or before a character outside the class. *)
Lemma span_len_stop (p : ascii -> bool) (l : list ascii) :
  forallb p (firstn (span_len p None l) l) = true /\
  match skipn (span_len p None l) l with
  | [] => True
  | x :: _ => p x = false
  end.
Proof.
  induction l as [|c t [A B]]; [now split|].
  cbn [span_len option_map]. destruct (p c) eqn:E.
  - cbn [firstn skipn forallb]. rewrite E. now split.
  - now split.
Qed.

Lemma flat_map_none {A B : Type} (f : A -> list B) (l : list A) :
  (forall x, In x l -> f x = []) -> flat_map f l = [].
Proof.
  induction l as [|x l IH]; intros H; [reflexivity|].
  cbn [flat_map]. rewrite (H x) by now left.
  apply IH. intros y Hy. apply H. now right.
Qed.

Lemma forallb_skipn (p : ascii -> bool) (k : nat) (l : list ascii) :
  forallb p l = true -> forallb p (skipn k l) = true.
Proof.
  intros H. rewrite <- (firstn_skipn k l), forallb_app in H.
  now apply andb_true_iff in H as [_ H].
Qed.

(** No tag begins at a character other than "<", nor at a "<" whose next
    ">" follows at once or is missing. *)
Lemma tag_match_none (prev : option ascii) (c : ascii) (t : list ascii) :
  negb (is_lt c) || open_ok t = true ->
  match_at false html_tag prev (c :: t) = None.
Proof.
  intros H. unfold match_at, html_tag, plus. cbn [cat run m_rest].
  change (chars "<") with ["<"%char]. change (chars ">") with [">"%char].
  cbn [starts_with chr_eq]. rewrite andb_true_r.
  fold (is_lt c). destruct (is_lt c); [|reflexivity]. cbn [negb orb] in H.
  cbn [flat_map]. rewrite app_nil_r.
  rewrite flat_map_none; [reflexivity|].
  intros st Hst. apply in_map_iff in Hst as (k & <- & Hk).
  apply ReFacts.in_counts in Hk.
  cbn [advance m_rest length skipn] in *. change (skipn 0 t) with t in *.
  destruct (skipn k t) as [|x r] eqn:E; [reflexivity|].
  cbn [starts_with]. rewrite andb_true_r.
  fold (is_gt x). destruct (is_gt x) eqn:G; [|reflexivity].
  exfalso. destruct t as [|c' t']; [now destruct k|].
  cbn [open_ok] in H. apply orb_true_iff in H as [H|H].
  - (* the run is empty *)
    cbn [span_len option_map] in Hk. rewrite not_gt_class in Hk.
    unfold not_gt in Hk. rewrite H in Hk. cbn in Hk. lia.
  - apply (forallb_skipn _ k) in H. rewrite E in H. cbn [forallb] in H.
    unfold not_gt at 1 in H. now rewrite G in H.
Qed.

(** A tag begins at every other "<". *)
Lemma tag_match_some (prev : option ascii) (c : ascii) (t : list ascii) :
  is_lt c = true -> open_ok t = false ->
  exists m, match_at false html_tag prev (c :: t) = Some m.
Proof.
  intros L O. unfold match_at, html_tag, plus. cbn [cat run m_rest].
  change (chars "<") with ["<"%char]. change (chars ">") with [">"%char].
  cbn [starts_with chr_eq]. rewrite andb_true_r.
  fold (is_lt c). rewrite L. cbn [flat_map]. rewrite app_nil_r.
  cbn [advance m_rest length skipn]. change (skipn 0 t) with t.
  set (n := span_len (cls_test false true [CChr ">"]) None t).
  destruct (span_len_stop (cls_test false true [CChr ">"]) t) as [A B].
  fold n in A, B.
  destruct t as [|c' t']; [discriminate|].
  cbn [open_ok] in O. apply orb_false_iff in O as [O1 O2].
  assert (exists m, n = S m) as [m En].
  { unfold n. cbn [span_len option_map]. rewrite not_gt_class.
    unfold not_gt. rewrite O1. now eexists. }
  destruct (skipn n (c' :: t')) as [|x r] eqn:E.
  { exfalso. rewrite <- (firstn_skipn n (c' :: t')), E, app_nil_r in O2.
    apply (Validation.forallb_impl _ not_gt) in A; [congruence|].
    intros y. now rewrite not_gt_class. }
  unfold counts. replace (S n - 1) with n by lia. rewrite En, rev_seq_S.
  cbn [map flat_map]. rewrite <- En.
  assert (m_rest (advance n (advance 1 (MState 0 prev (c :: c' :: t') None)))
          = x :: r) as -> by exact E.
  rewrite not_gt_class in B. unfold not_gt in B.
  apply negb_false_iff in B. fold (is_gt x). rewrite B. cbn [andb app].
  now eexists.
Qed.

(** What [re.sub] leaves is made of the characters of the text and of the
    replacement. *)
Lemma forallb_sub_l (p : ascii -> bool) (ic : bool) (r : re)
    (repl l : list ascii) (k : nat) (prev : option ascii) :
  forallb p repl = true -> forallb p l = true ->
  forallb p (sub_l ic r repl k prev l) = true.
Proof.
  intros Hr. revert k prev. induction l as [|c t IH]; intros k prev H;
    [reflexivity|].
  cbn [forallb] in H. apply andb_true_iff in H as [Hc Ht].
  cbn [sub_l]. destruct k as [|k]; [|now apply IH].
  destruct (match_at ic r prev (c :: t)).
  - rewrite forallb_app, Hr. now apply IH.
  - cbn [forallb]. rewrite Hc. now apply IH.
Qed.

(** The condition after a "<" survives a substitution that neither
    starts a match at ">" nor inserts one. *)
Lemma open_ok_sub_l (ic : bool) (r : re) (repl t : list ascii)
    (prev : option ascii) :
  (forall prev' t', match_at ic r prev' (">"%char :: t') = None) ->
  forallb not_gt repl = true ->
  open_ok t = true -> open_ok (sub_l ic r repl 0 prev t) = true.
Proof.
  intros Hm Hr H. destruct t as [|c t]; [reflexivity|].
  cbn [open_ok] in H. apply orb_true_iff in H as [H|H].
  - unfold is_gt in H. apply Ascii.eqb_eq in H as <-.
    cbn [sub_l]. now rewrite Hm.
  - pose proof (forallb_sub_l not_gt ic r repl (c :: t) 0 prev Hr H) as F.
    destruct (sub_l ic r repl 0 prev (c :: t)) as [|x out]; [reflexivity|].
    cbn [open_ok]. rewrite F. apply orb_true_r.
Qed.

(** Removing the tags leaves no tag. *)
Lemma sub_tag_free (l : list ascii) (k : nat) (prev : option ascii) :
  tag_free (sub_l false html_tag [] k prev l) = true.
Proof.
  revert k prev. induction l as [|c t IH]; intros k prev; [reflexivity|].
  cbn [sub_l]. destruct k as [|k]; [|apply IH].
  destruct (match_at false html_tag prev (c :: t)) as [m|] eqn:E;
    [apply IH|].
  cbn [tag_free]. rewrite IH, andb_true_r.
  destruct (is_lt c) eqn:L; [|reflexivity]. cbn [negb orb].
  apply open_ok_sub_l; [|reflexivity|].
  - intros prev' t'. now apply tag_match_none.
  - destruct (open_ok t) eqn:O; [reflexivity|].
    destruct (tag_match_some prev c t L O) as [m Em]. congruence.
Qed.

(** Collapsing the white space makes no tag. *)
Lemma sub_ws_tag_free (l : list ascii) (k : nat) (prev : option ascii) :
  tag_free l = true ->
  tag_free (sub_l false whitespace_run [" "%char] k prev l) = true.
Proof.
  revert k prev. induction l as [|c t IH]; intros k prev H; [reflexivity|].
  cbn [tag_free] in H. apply andb_true_iff in H as [Hc Ht].
  cbn [sub_l]. destruct k as [|k]; [|now apply IH].
  rewrite ws_match_at. destruct (is_space c) eqn:S.
  - cbn [app tag_free]. now rewrite IH.
  - cbn [tag_free]. rewrite (IH _ _ Ht), andb_true_r.
    destruct (is_lt c); [|reflexivity]. cbn [negb orb] in *.
    apply open_ok_sub_l; [|reflexivity|exact Hc].
    intros prev' t'. now rewrite ws_match_at.
Qed.

Lemma tag_free_app (a b : list ascii) :
  tag_free (a ++ b) = true -> tag_free a = true /\ tag_free b = true.
Proof.
  induction a as [|c a IH]; [now split|].
  cbn [app tag_free]. intros H. apply andb_true_iff in H as [H1 H2].
  destruct (IH H2) as [Ha Hb]. split; [|exact Hb].
  rewrite Ha, andb_true_r.
  destruct (negb (is_lt c)); [reflexivity|]. cbn [orb] in *.
  destruct a as [|x a]; [reflexivity|]. cbn [app open_ok] in *.
  apply orb_true_iff in H1 as [->|H1]; [reflexivity|].
  change (forallb not_gt ((x :: a) ++ b) = true) in H1.
  rewrite forallb_app in H1. apply andb_true_iff in H1 as [-> _].
  apply orb_true_r.
Qed.

(** The pattern of the tags is found nowhere in a text without tags. *)
Lemma search_tag_free (l : list ascii) (prev : option ascii) :
  tag_free l = true -> search_l false html_tag prev l = None.
Proof.
  revert prev. induction l as [|c t IH]; intros prev H.
  - reflexivity.
  - cbn [tag_free] in H. apply andb_true_iff in H as [Hc Ht].
    cbn [search_l]. rewrite (tag_match_none prev c t Hc). now apply IH.
Qed.

Lemma clean_position_tag_free (position : string) :
  tag_free (chars (CleanContactData.clean_position position)) = true.
Proof.
  unfold CleanContactData.clean_position, strip, sub.
  rewrite !chars_str.
  set (l := sub_l false whitespace_run (chars " ") 0 None _).
  assert (tag_free l = true) as H
    by (apply sub_ws_tag_free, sub_tag_free).
  destruct (strip_l_infix l) as (p & q & E). rewrite E in H.
  apply tag_free_app in H as [_ H].
  now apply tag_free_app in H as [H _].
Qed.

(** X19: the pattern r"<[^>]+>" that [clean_contact_data] removes is
    found nowhere in a cleaned position: removing the tags once leaves
    none, and neither the collapsing of white space nor the stripping
    makes a new one. *)
Theorem cleaned_position_has_no_tag (position : string) :
  search false html_tag (CleanContactData.clean_position position) = None.
Proof.
  unfold search. apply search_tag_free, clean_position_tag_free.
Qed.

Lemma sub_tag_id (l : list ascii) (prev : option ascii) :
  tag_free l = true -> sub_l false html_tag [] 0 prev l = l.
Proof.
  revert prev. induction l as [|c t IH]; intros prev H; [reflexivity|].
  cbn [tag_free] in H. apply andb_true_iff in H as [Hc Ht].
  cbn [sub_l]. rewrite (tag_match_none prev c t Hc). now rewrite IH.
Qed.

Lemma sub_ws_id (l : list ascii) (prev : option ascii) :
  single_spaced l = true ->
  sub_l false whitespace_run [" "%char] 0 prev l = l.
Proof.
  revert prev. induction l as [|c t IH]; intros prev H; [reflexivity|].
  cbn [single_spaced] in H. apply andb_true_iff in H as [Hc Ht].
  cbn [sub_l]. rewrite ws_match_at. destruct (is_space c) eqn:S.
  - cbn [negb orb] in Hc. apply andb_true_iff in Hc as [E N].
    apply Ascii.eqb_eq in E as ->.
    assert (span_len (cls_test false false ws) None t = 0) as ->.
    { destruct t as [|x t]; [reflexivity|]. rewrite span_len_ws_cons.
      cbn [head_not_space] in N. apply negb_true_iff in N. now rewrite N. }
    cbn [firstn group0 length Nat.sub app]. now rewrite IH.
  - now rewrite IH.
Qed.

(** X20: cleaning a cleaned position changes nothing. *)
Theorem clean_position_is_idempotent (position : string) :
  CleanContactData.clean_position (CleanContactData.clean_position position)
  = CleanContactData.clean_position position.
Proof.
  pose proof (clean_position_spaced position) as S.
  assert (strip (CleanContactData.clean_position position)
          = CleanContactData.clean_position position) as T
    by (unfold CleanContactData.clean_position; apply strip_idem).
  pose proof (clean_position_tag_free position) as F.
  set (out := CleanContactData.clean_position position) in *.
  unfold CleanContactData.clean_position at 1. unfold sub.
  rewrite (sub_tag_id _ _ F), str_chars.
  change (chars " ") with [" "%char].
  rewrite (sub_ws_id _ _ S), str_chars. exact T.
Qed.

End Cleaning.
